(** * Hybrid search fusion and reranking: a shallow embedding

    The development follows the JavaScript sources

    - [server/utils/reranker/index.js]
      ([RerankerService], [HybridReranker], [HybridSearchManager]),
    - [server/utils/reranker/providers/openai.js], [providers/cohere.js],
      [providers/gemini.js]

    and proves properties of the functions defined there.

    Modelling conventions.

    - JavaScript numbers are exact rationals ([Q]); [NaN] and the infinities
      appear only where the code can produce them ([parseFloat]).
    - Strings are sequences of ASCII code units; [toLowerCase], [\w], [\s],
      [trim] and [length] are the JavaScript ones on ASCII text.  Where
      white space, letter case or length outside ASCII would change what a
      statement says of a text it quantifies over, the statement assumes
      the text to be ASCII ([asciiText]).
    - An object read only through fixed property names is a record.  A
      property that may be missing is an [option]; for the metadata rows,
      which are spread key by key into another object, a property is a
      [prop] (absent, [null], or a value).
    - [try]/[catch] is an explicit result type; external services (vector
      store, metadata store, scoring endpoints) are arguments that say what
      the service answered. *)

From Stdlib Require Import Bool Arith ZArith QArith Qminmax Qabs Lia Lqa List.
From Stdlib Require Import Strings.String Strings.Ascii.
From Stdlib Require Import Sorting.Sorted Sorting.Permutation.
From Stdlib Require Import Numbers.DecimalString.
Import ListNotations.

Set Implicit Arguments.

(* ================================================================== *)
(** * JavaScript strings and regular expressions *)
(* ================================================================== *)

Module Js.

Definition code (c : ascii) : nat := nat_of_ascii c.

Definition between (lo hi : nat) (c : ascii) : bool :=
  (lo <=? code c)%nat && (code c <=? hi)%nat.

Definition isUpper : ascii -> bool := between 65 90.
Definition isLower : ascii -> bool := between 97 122.
Definition isDigit : ascii -> bool := between 48 57.

(** [\w] is [[A-Za-z0-9_]]. *)
Definition isWord (c : ascii) : bool :=
  isUpper c || isLower c || isDigit c || (code c =? 95)%nat.

(** [\s] on ASCII text: tab, line feed, vertical tab, form feed, carriage
    return, space.  JavaScript's class also holds U+00A0 and the other
    Unicode spaces, which ASCII text does not contain. *)
Definition isSpace (c : ascii) : bool :=
  between 9 13 c || (code c =? 32)%nat.

Definition lowerChar (c : ascii) : ascii :=
  if isUpper c then ascii_of_nat (code c + 32) else c.

Definition upperChar (c : ascii) : ascii :=
  if isLower c then ascii_of_nat (code c - 32) else c.

Fixpoint mapChars (f : ascii -> ascii) (s : string) : string :=
  match s with
  | EmptyString => EmptyString
  | String c s' => String (f c) (mapChars f s')
  end.

Fixpoint filterChars (p : ascii -> bool) (s : string) : string :=
  match s with
  | EmptyString => EmptyString
  | String c s' => if p c then String c (filterChars p s') else filterChars p s'
  end.

Definition toLowerCase : string -> string := mapChars lowerChar.

(** [s.substring(0, n)] *)
Fixpoint take (n : nat) (s : string) : string :=
  match n, s with
  | S n', String c s' => String c (take n' s')
  | _, _ => EmptyString
  end.

Fixpoint drop (n : nat) (s : string) : string :=
  match n, s with
  | S n', String _ s' => drop n' s'
  | _, _ => s
  end.

(** [s.startsWith(p)] *)
Fixpoint startsWith (p s : string) : bool :=
  match p, s with
  | EmptyString, _ => true
  | String a p', String b s' => Ascii.eqb a b && startsWith p' s'
  | String _ _, EmptyString => false
  end.

(** [s.includes(t)] *)
Fixpoint includes (s t : string) : bool :=
  startsWith t s ||
  match s with
  | EmptyString => false
  | String _ s' => includes s' t
  end.

(** [a.includes(x)] on an array of strings *)
Definition arrayIncludes (a : list string) (x : string) : bool :=
  existsb (String.eqb x) a.

Fixpoint trimStart (s : string) : string :=
  match s with
  | EmptyString => EmptyString
  | String c s' => if isSpace c then trimStart s' else s
  end.

Fixpoint trimEnd (s : string) : string :=
  match s with
  | EmptyString => EmptyString
  | String c s' =>
      match trimEnd s' with
      | EmptyString => if isSpace c then EmptyString else String c EmptyString
      | r => String c r
      end
  end.

Definition trim (s : string) : string := trimEnd (trimStart s).

(** [s.split(/\s+/)]: the pieces between maximal runs of white space; a
    leading or trailing run yields an empty first or last piece. *)
Fixpoint splitSpaces (s : string) (cur : string) (inRun : bool) : list string :=
  match s with
  | EmptyString => [cur]
  | String c s' =>
      if isSpace c then
        if inRun then splitSpaces s' cur true
        else cur :: splitSpaces s' EmptyString true
      else splitSpaces s' (cur ++ String c EmptyString)%string false
  end.

Definition split_ws (s : string) : list string := splitSpaces s EmptyString false.

(** [s.replace(/\s+/g, ' ')] *)
Fixpoint collapseSpaces (s : string) (inRun : bool) : string :=
  match s with
  | EmptyString => EmptyString
  | String c s' =>
      if isSpace c then
        if inRun then collapseSpaces s' true
        else String " "%char (collapseSpaces s' true)
      else String c (collapseSpaces s' false)
  end.

(** [s.split(',')] *)
Fixpoint splitComma (s : string) (cur : string) : list string :=
  match s with
  | EmptyString => [cur]
  | String c s' =>
      if Ascii.eqb c ","%char then cur :: splitComma s' EmptyString
      else splitComma s' (cur ++ String c EmptyString)%string
  end.

(** A JavaScript value used as a condition: the empty string is falsy. *)
Definition truthyStr (o : option string) : option string :=
  match o with
  | Some s => if String.eqb s EmptyString then None else Some s
  | None => None
  end.

(** ** Regular expressions

    The fragment the sources use: literals, character classes, [c+] on a
    class, sequence, alternation and [\b].  Matching is by backtracking in
    the priority order of ECMAScript (left alternative first, [+] greedy);
    the continuation receives the last character consumed, which [\b]
    needs. *)

Inductive regex : Type :=
| Lit (s : string)
| Class (p : ascii -> bool)
| Plus (p : ascii -> bool)
| Seq (r1 r2 : regex)
| Alt (r1 r2 : regex)
| WordBoundary.

(** With the [i] flag a class matches if either case of the character is
    in it. *)
Definition classTest (ci : bool) (p : ascii -> bool) (c : ascii) : bool :=
  p c || (ci && (p (lowerChar c) || p (upperChar c))).

Definition charTest (ci : bool) (a c : ascii) : bool :=
  if ci then Ascii.eqb (lowerChar a) (lowerChar c) else Ascii.eqb a c.

Fixpoint litMatch (ci : bool) (p : string) (prev : option ascii) (s : string)
  : option (option ascii * string) :=
  match p with
  | EmptyString => Some (prev, s)
  | String a p' =>
      match s with
      | EmptyString => None
      | String c s' => if charTest ci a c then litMatch ci p' (Some c) s' else None
      end
  end.

Fixpoint plusRun (t : ascii -> bool) (s : string)
    (k : option ascii -> string -> option string) : option string :=
  match s with
  | EmptyString => None
  | String c s' =>
      if t c then
        match plusRun t s' k with
        | Some r => Some r
        | None => k (Some c) s'
        end
      else None
  end.

Definition wordBefore (prev : option ascii) : bool :=
  match prev with Some c => isWord c | None => false end.

Definition wordAfter (s : string) : bool :=
  match s with String c _ => isWord c | EmptyString => false end.

(** [rmatch ci r prev s k]: match [r] at the front of [s]; [k] continues
    with what is left.  The result is the input left after the whole match. *)
Fixpoint rmatch (ci : bool) (r : regex) (prev : option ascii) (s : string)
    (k : option ascii -> string -> option string) : option string :=
  match r with
  | Lit p =>
      match litMatch ci p prev s with
      | Some (prev', rest) => k prev' rest
      | None => None
      end
  | Class p =>
      match s with
      | String c s' => if classTest ci p c then k (Some c) s' else None
      | EmptyString => None
      end
  | Plus p => plusRun (classTest ci p) s k
  | Seq r1 r2 => rmatch ci r1 prev s (fun prev' s' => rmatch ci r2 prev' s' k)
  | Alt r1 r2 =>
      match rmatch ci r1 prev s k with
      | Some x => Some x
      | None => rmatch ci r2 prev s k
      end
  | WordBoundary =>
      if xorb (wordBefore prev) (wordAfter s) then k prev s else None
  end.

(** The match of [r] starting exactly here, as [match[0]]. *)
Definition matchHere (ci : bool) (r : regex) (prev : option ascii) (s : string)
  : option string :=
  match rmatch ci r prev s (fun _ rest => Some rest) with
  | Some rest => Some (take (String.length s - String.length rest) s)
  | None => None
  end.

(** [s.match(r)] without the [g] flag: the leftmost match, as
    [(index, match[0])]. *)
Fixpoint searchFrom (ci : bool) (r : regex) (prev : option ascii) (s : string)
    (i : nat) : option (nat * string) :=
  match matchHere ci r prev s with
  | Some m => Some (i, m)
  | None =>
      match s with
      | String c s' => searchFrom ci r (Some c) s' (S i)
      | EmptyString => None
      end
  end.

Definition exec (ci : bool) (r : regex) (s : string) : option (nat * string) :=
  searchFrom ci r None s 0.

(** [r.test(s)] *)
Definition test (ci : bool) (r : regex) (s : string) : bool :=
  match exec ci r s with Some _ => true | None => false end.

(** [s.match(r)] with the [g] flag: all matches, left to right, not
    overlapping.  [skip] counts the characters still covered by the last
    match; after an empty match the scan moves on by one character. *)
Fixpoint matchAllFrom (ci : bool) (r : regex) (prev : option ascii) (s : string)
    (skip : nat) : list string :=
  match skip with
  | S k =>
      match s with
      | String c s' => matchAllFrom ci r (Some c) s' k
      | EmptyString => []
      end
  | O =>
      match matchHere ci r prev s with
      | Some m =>
          m :: match s with
               | String c s' => matchAllFrom ci r (Some c) s' (String.length m - 1)
               | EmptyString => []
               end
      | None =>
          match s with
          | String c s' => matchAllFrom ci r (Some c) s' 0
          | EmptyString => []
          end
      end
  end.

Definition matchAll (ci : bool) (r : regex) (s : string) : list string :=
  matchAllFrom ci r None s 0.

(** [s.replace(r, '')] with the [g] flag, for a pattern that matches no
    empty string. *)
Fixpoint removeAllFrom (ci : bool) (r : regex) (prev : option ascii) (s : string)
    (skip : nat) : string :=
  match s with
  | EmptyString => EmptyString
  | String c s' =>
      match skip with
      | S k => removeAllFrom ci r (Some c) s' k
      | O =>
          match matchHere ci r prev s with
          | Some m =>
              match String.length m with
              | O => String c (removeAllFrom ci r (Some c) s' 0)
              | S n => removeAllFrom ci r (Some c) s' n
              end
          | None => String c (removeAllFrom ci r (Some c) s' 0)
          end
      end
  end.

Definition removeAll (ci : bool) (r : regex) (s : string) : string :=
  removeAllFrom ci r None s 0.

(** [s.replace(p, '')] for a string [p]: the first occurrence only. *)
Fixpoint removeFirst (p s : string) : string :=
  if startsWith p s then drop (String.length p) s
  else match s with
       | EmptyString => EmptyString
       | String c s' => String c (removeFirst p s')
       end.

(** [String(n)] for an integer. *)
Definition stringOfZ (n : Z) : string := NilEmpty.string_of_int (Z.to_int n).

(** The value of a string of decimal digits. *)
Fixpoint digitsValue (acc : Z) (s : string) : Z :=
  match s with
  | EmptyString => acc
  | String c s' =>
      if isDigit c then digitsValue (10 * acc + Z.of_nat (code c - 48))%Z s'
      else acc
  end.

End Js.

(* ================================================================== *)
(** * Numbers, results of fallible code, sorting *)
(* ================================================================== *)

Open Scope Q_scope.

(** [Math.min(Math.max(x, 0), 1)] *)
Definition clamp01 (x : Q) : Q := Qmin (Qmax x 0) 1.

Definition isZero (x : Q) : bool := Qeq_bool x 0.

(** [x || d] for a number [x] that may be missing: zero is falsy. *)
Definition orQ (x : option Q) (d : Q) : Q :=
  match x with
  | Some q => if isZero q then d else q
  | None => d
  end.

(** What [parseFloat] returns. *)
Inductive parsedFloat : Type :=
| NaN
| Infinite (negative : bool)
| Finite (q : Q).

Definition isNaN (x : parsedFloat) : bool :=
  match x with NaN => true | _ => false end.

(** A decimal literal is read as the nearest double, ties to even: a value
    of magnitude at most [2^-1075], half the smallest positive double, is
    read as 0, and every other value as a double that is not 0, for which
    the model takes the value itself. *)
Definition roundsToZero (q : Q) : bool :=
  Qle_bool (Qabs q) (1 # (2 ^ 1075)).

Definition readDecimal (q : Q) : Q := if roundsToZero q then 0 else q.

(** [Math.min(Math.max(s, 0), 1)] on a number that is not [NaN]. *)
Definition clampParsed (x : parsedFloat) : Q :=
  match x with
  | Finite q => clamp01 q
  | Infinite false => 1
  | Infinite true => 0
  | NaN => 0
  end.

(** A computation that returns or throws. *)
Inductive Result (A : Type) : Type :=
| Ok (a : A)
| Throw (message : string).

Arguments Ok {A} a.
Arguments Throw {A} message.

Definition bind {A B : Type} (m : Result A) (f : A -> Result B) : Result B :=
  match m with
  | Ok a => f a
  | Throw e => Throw e
  end.

(** [try { body } catch (error) { handler }] *)
Definition tryCatch {A : Type} (body : Result A) (handler : string -> Result A)
  : Result A :=
  match body with
  | Ok a => Ok a
  | Throw e => handler e
  end.

Declare Scope result_scope.
Delimit Scope result_scope with result.
Notation "x <- m ;; k" := (bind m (fun x => k))
  (at level 61, m at next level, right associativity) : result_scope.

(** [a.sort((x, y) => key(y) - key(x))]: stable, descending by [key]. *)
Section Sorting.
Variable A : Type.
Variable key : A -> Q.

Fixpoint insertDesc (x : A) (l : list A) : list A :=
  match l with
  | [] => [x]
  | y :: t => if Qle_bool (key y) (key x) then x :: l else y :: insertDesc x t
  end.

Fixpoint sortDesc (l : list A) : list A :=
  match l with
  | [] => []
  | x :: t => insertDesc x (sortDesc t)
  end.

(** Non-increasing by [key]. *)
Definition sortedDesc (l : list A) : Prop :=
  StronglySorted (fun a b => key b <= key a) l.
End Sorting.

(** [a.slice(i, j)] for indices within the natural numbers. *)
Definition slice {A : Type} (i j : nat) (l : list A) : list A :=
  firstn (j - i) (skipn i l).

(** [a.slice(0, n)] for an integer [n]: a negative [n] counts from the end. *)
Definition sliceTo {A : Type} (n : Z) (l : list A) : list A :=
  if (n <? 0)%Z then firstn (Z.to_nat (Z.of_nat (List.length l) + n)) l
  else firstn (Z.to_nat n) l.

(* ================================================================== *)
(** * Scoring providers *)
(* ================================================================== *)

(** A document with the score a provider attached:
    [{ ...doc, rerankerScore }]. *)
Record Scored (D : Type) : Type := mkScored {
  doc : D;
  rerankerScore : Q
}.

Arguments mkScored {D} doc rerankerScore.

(** [documents.map(doc => ({ ...doc, rerankerScore: 0.5 }))] *)
Definition neutral {D : Type} (documents : list D) : list (Scored D) :=
  map (fun d => mkScored d (1#2)) documents.

(** [documents.map((doc, idx) => ({ ...doc, rerankerScore: scores[idx] || 0.5 }))] *)
Fixpoint attach {D : Type} (documents : list D) (scores : list Q) (idx : nat)
  : list (Scored D) :=
  match documents with
  | [] => []
  | d :: t => mkScored d (orQ (nth_error scores idx) (1#2)) :: attach t scores (S idx)
  end.

(** [Array(n).fill(0.5)] *)
Definition fillNeutral (n : nat) : list Q := repeat (1#2) n.

(** Events of a batched run: a request for a chunk of so many documents, and
    [setTimeout(resolve, ms)]. *)
Inductive Event : Type :=
| Request (size : nat)
| Sleep (ms : nat).

Section Batching.
Variables D Reply : Type.
(** One provider's [rerank], given the endpoint's answer. *)
Variable rerank : Reply -> list D -> Result (list (Scored D)).
(** The endpoint's answer to the [k]-th request. *)
Variable replies : nat -> Reply.

Record BatchState : Type := mkBatch {
  results : list (Scored D);
  calls : nat;
  events : list Event
}.

(** The [for (let i = 0; i < documents.length; i += batchSize)] loop of
    [rerankBatch].  [None]: the loop did not finish within [fuel]
    iterations. *)
Fixpoint batchLoop (batchSize : nat) (documents : list D) (fuel : nat) (i : nat)
    (st : BatchState) : option (Result BatchState) :=
  if (i <? List.length documents)%nat then
    match fuel with
    | O => None
    | S fuel' =>
        let batch := slice i (i + batchSize) documents in
        match rerank (replies (calls st)) batch with
        | Throw e => Some (Throw e)
        | Ok rankedBatch =>
            let ev := events st ++ [Request (List.length batch)] in
            let ev' :=
              if (i + batchSize <? List.length documents)%nat
              then ev ++ [Sleep 100] else ev in
            batchLoop batchSize documents fuel' (i + batchSize)
              (mkBatch (results st ++ rankedBatch) (S (calls st)) ev')
        end
    end
  else Some (Ok st).

Definition rerankBatchWith (batchSize : nat) (documents : list D) (fuel : nat)
  : option (Result BatchState) :=
  batchLoop batchSize documents fuel 0 (mkBatch [] 0 []).
End Batching.

Arguments results {D} b.
Arguments calls {D} b.
Arguments events {D} b.

(** ** OpenAI: chat completion *)
Module OpenAI.

(** [JSON.parse(content)], as far as [parseScores] looks at it. *)
Inductive Content : Type :=
| NotJson                              (* [JSON.parse] throws *)
| NoScores                             (* no [scores] array *)
| Scores (l : list parsedFloat).       (* [parseFloat] of each entry *)

Inductive Reply : Type :=
| FetchRejected
| NotOk (status : nat)
| BodyUnreadable
| Body (content : Content).

Definition parseScores (content : Content) (expectedCount : nat) : list Q :=
  match content with
  | Scores l =>
      let scores := filter (fun s => negb (isNaN s)) l in
      if (List.length scores =? expectedCount)%nat
      then map clampParsed scores
      else fillNeutral expectedCount
  | _ => fillNeutral expectedCount
  end.

Definition request (reply : Reply) : Result Content :=
  match reply with
  | FetchRejected => Throw "fetch failed"
  | NotOk _ => Throw "OpenAI API error"
  | BodyUnreadable => Throw "invalid json response body"
  | Body c => Ok c
  end.

Definition rerank {D : Type} (reply : Reply) (documents : list D)
  : Result (list (Scored D)) :=
  tryCatch
    (match documents with
     | [] => Ok []
     | _ =>
         (content <- request reply ;;
          let scores := parseScores content (List.length documents) in
          let rankedDocs := attach documents scores 0 in
          Ok (sortDesc (@rerankerScore D) rankedDocs))%result
     end)
    (fun _ => Ok (neutral documents)).

Definition defaultBatchSize : nat := 10.

Definition rerankBatch {D : Type} (replies : nat -> Reply)
    (documents : list D) (batchSize : option nat) (fuel : nat) :=
  rerankBatchWith rerank replies
    (match batchSize with Some b => b | None => defaultBatchSize end)
    documents fuel.

End OpenAI.

(** ** Cohere: rerank endpoint *)
Module Cohere.

Record Entry : Type := mkEntry {
  index : option nat;
  relevance_score : option Q
}.

Inductive Reply : Type :=
| FetchRejected
| NotOk (status : nat)
| BodyUnreadable
| Data (results : option (list Entry)).

Definition request (reply : Reply) : Result (option (list Entry)) :=
  match reply with
  | FetchRejected => Throw "fetch failed"
  | NotOk _ => Throw "Cohere API error"
  | BodyUnreadable => Throw "invalid json response body"
  | Data r => Ok r
  end.

(** [data.results?.find(r => r.index === idx)?.relevance_score] *)
Definition scoreAt (results : option (list Entry)) (idx : nat) : option Q :=
  match results with
  | None => None
  | Some l =>
      match find (fun r => match index r with
                           | Some i => (i =? idx)%nat
                           | None => false
                           end) l with
      | Some r => relevance_score r
      | None => None
      end
  end.

Fixpoint attachFound {D : Type} (documents : list D)
    (results : option (list Entry)) (idx : nat) : list (Scored D) :=
  match documents with
  | [] => []
  | d :: t =>
      mkScored d (orQ (scoreAt results idx) (1#2)) :: attachFound t results (S idx)
  end.

Definition rerank {D : Type} (reply : Reply) (documents : list D)
  : Result (list (Scored D)) :=
  tryCatch
    (match documents with
     | [] => Ok []
     | _ =>
         (data <- request reply ;;
          let rankedDocs := attachFound documents data 0 in
          Ok (sortDesc (@rerankerScore D) rankedDocs))%result
     end)
    (fun _ => Ok (neutral documents)).

Definition defaultBatchSize : nat := 100.

Definition rerankBatch {D : Type} (replies : nat -> Reply)
    (documents : list D) (batchSize : option nat) (fuel : nat) :=
  rerankBatchWith rerank replies
    (match batchSize with Some b => b | None => defaultBatchSize end)
    documents fuel.

End Cohere.

(** ** Gemini: generated text *)
Module Gemini.

Inductive Reply : Type :=
| Rejected                 (* [generateContent] or [response.text()] throws *)
| Text (text : string).

Fixpoint spanDigits (s : string) : string * string :=
  match s with
  | EmptyString => (EmptyString, EmptyString)
  | String c s' =>
      if Js.isDigit c
      then let (d, r) := spanDigits s' in (String c d, r)
      else (EmptyString, s)
  end.

(** [parseFloat] on the strings it meets here, made of digits, dots and
    white space: leading white space is skipped and the longest prefix
    [digits], [digits.digits], [digits.] or [.digits] is the number. *)
Definition parseFloat (s : string) : parsedFloat :=
  let (ip, rest) := spanDigits (Js.trimStart s) in
  let fp := match rest with
            | String "."%char r => fst (spanDigits r)
            | _ => EmptyString
            end in
  if String.eqb ip EmptyString && String.eqb fp EmptyString then NaN
  else Finite (readDecimal
                 (Qmake (Js.digitsValue 0 (ip ++ fp))
                        (Z.to_pos (10 ^ Z.of_nat (String.length fp))))).

(** [[\d\s.,]] *)
Definition scoreChar (c : ascii) : bool :=
  Js.isDigit c || Js.isSpace c || Ascii.eqb c "."%char || Ascii.eqb c ","%char.

(** [/\[([\d\s.,]+)\]/] *)
Definition arrayPattern : Js.regex :=
  Js.Seq (Js.Lit "[") (Js.Seq (Js.Plus scoreChar) (Js.Lit "]")).

(** [/\d+\.\d+/g] *)
Definition numberPattern : Js.regex :=
  Js.Seq (Js.Plus Js.isDigit) (Js.Seq (Js.Lit ".") (Js.Plus Js.isDigit)).

(** [jsonMatch[1]]: the match without its brackets. *)
Definition group1 (m : string) : string :=
  Js.take (String.length m - 2) (Js.drop 1 m).

Definition parseScores (text : string) (expectedCount : nat) : list Q :=
  let fallback :=
    match Js.matchAll false numberPattern text with
    | [] => fillNeutral expectedCount
    | numbers =>
        if (expectedCount <=? List.length numbers)%nat
        then map (fun n => clampParsed (parseFloat n)) (firstn expectedCount numbers)
        else fillNeutral expectedCount
    end in
  match Js.exec false arrayPattern text with
  | Some (_, m) =>
      let scoresStr := group1 m in
      let scores :=
        filter (fun s => negb (isNaN s))
          (map (fun s => parseFloat (Js.trim s))
               (Js.splitComma scoresStr EmptyString)) in
      if (List.length scores =? expectedCount)%nat
      then map clampParsed scores
      else fallback
  | None => fallback
  end.

Definition request (reply : Reply) : Result string :=
  match reply with
  | Rejected => Throw "generateContent failed"
  | Text t => Ok t
  end.

Definition rerank {D : Type} (reply : Reply) (documents : list D)
  : Result (list (Scored D)) :=
  tryCatch
    (match documents with
     | [] => Ok []
     | _ =>
         (text <- request reply ;;
          let scores := parseScores text (List.length documents) in
          let rankedDocs := attach documents scores 0 in
          Ok (sortDesc (@rerankerScore D) rankedDocs))%result
     end)
    (fun _ => Ok (neutral documents)).

Definition defaultBatchSize : nat := 10.

Definition rerankBatch {D : Type} (replies : nat -> Reply)
    (documents : list D) (batchSize : option nat) (fuel : nat) :=
  rerankBatchWith rerank replies
    (match batchSize with Some b => b | None => defaultBatchSize end)
    documents fuel.

End Gemini.

(* ================================================================== *)
(** * RerankerService *)
(* ================================================================== *)

(** The variables of [process.env] the service reads. *)
Record Env : Type := mkEnv {
  RERANKER_PROVIDER : option string;
  RERANKER_ENABLED : option string;
  RERANKER_API_KEY : option string;
  RERANKER_MODEL : option string;
  GEMINI_API_KEY : option string;
  GEMINI_LLM_MODEL_PREF : option string;
  OPEN_AI_KEY : option string
}.

(** What each scoring endpoint answers to the [k]-th request sent to it. *)
Record Network : Type := mkNetwork {
  geminiReplies : nat -> Gemini.Reply;
  cohereReplies : nat -> Cohere.Reply;
  openaiReplies : nat -> OpenAI.Reply
}.

Inductive Provider : Type :=
| GeminiReranker (apiKey model : string)
| CohereReranker (apiKey model : string)
| OpenAIReranker (apiKey model : string).

(** [a || b] on strings that may be missing. *)
Definition orStr (a b : option string) : option string :=
  match Js.truthyStr a with
  | Some s => Some s
  | None => b
  end.

Definition orDefault (a : option string) (d : string) : string :=
  match Js.truthyStr a with
  | Some s => s
  | None => d
  end.

Module RerankerService.

Record t : Type := mk {
  provider : option Provider;
  initialized : bool
}.

(** [new RerankerService()] *)
Definition fresh : t := mk None false.

(** The constructors of the provider classes: they throw without a key. *)
Definition construct (make : string -> string -> Provider) (what : string)
    (apiKey : option string) (model : string) : Result Provider :=
  match Js.truthyStr apiKey with
  | None => Throw (what ++ " API key is required for reranking")
  | Some k => Ok (make k model)
  end.

(** The [switch (provider)] inside the [try] of [initialize]; the result
    is the new value of [this.provider]. *)
Definition selectProvider (env : Env) (current : option Provider)
    (selector : option string) : Result (option Provider) :=
  match selector with
  | Some "gemini"%string =>
      let geminiKey := orStr (RERANKER_API_KEY env) (GEMINI_API_KEY env) in
      let geminiModel :=
        orDefault (orStr (RERANKER_MODEL env) (GEMINI_LLM_MODEL_PREF env))
                  "gemini-2.0-flash-lite" in
      match Js.truthyStr geminiKey with
      | None => Throw "Gemini API key not found. Set RERANKER_API_KEY or GEMINI_API_KEY"
      | Some _ =>
          (p <- construct GeminiReranker "Gemini" geminiKey geminiModel ;;
           Ok (Some p))%result
      end
  | Some "cohere"%string =>
      let cohereKey := RERANKER_API_KEY env in
      let cohereModel := orDefault (RERANKER_MODEL env) "rerank-english-v3.0" in
      match Js.truthyStr cohereKey with
      | None => Throw "Cohere API key not found. Set RERANKER_API_KEY"
      | Some _ =>
          (p <- construct CohereReranker "Cohere" cohereKey cohereModel ;;
           Ok (Some p))%result
      end
  | Some "openai"%string =>
      let openaiKey := orStr (RERANKER_API_KEY env) (OPEN_AI_KEY env) in
      let openaiModel := orDefault (RERANKER_MODEL env) "gpt-4o-mini" in
      match Js.truthyStr openaiKey with
      | None => Throw "OpenAI API key not found. Set RERANKER_API_KEY or OPEN_AI_KEY"
      | Some _ =>
          (p <- construct OpenAIReranker "OpenAI" openaiKey openaiModel ;;
           Ok (Some p))%result
      end
  | _ => Ok current
  end.

Definition enabled (env : Env) : bool :=
  match RERANKER_ENABLED env with
  | Some s => String.eqb s "true"
  | None => false
  end.

Definition initialize (env : Env) (this : t) : t :=
  if initialized this then this
  else
    let selector := option_map Js.toLowerCase (RERANKER_PROVIDER env) in
    if negb (enabled env) then mk (provider this) true
    else
      match selectProvider env (provider this) selector with
      | Ok p => mk p true
      | Throw _ => mk None true
      end.

Definition ensure (env : Env) (this : t) : t :=
  if initialized this then this else initialize env this.

Definition isAvailable (env : Env) (this : t) : bool * t :=
  let this' := ensure env this in
  (match provider this' with Some _ => true | None => false end, this').

(** [this.provider.rerank(query, documents)] *)
Definition providerRerank {D : Type} (net : Network) (p : Provider)
    (documents : list D) : Result (list (Scored D)) :=
  match p with
  | GeminiReranker _ _ => Gemini.rerank (geminiReplies net 0%nat) documents
  | CohereReranker _ _ => Cohere.rerank (cohereReplies net 0%nat) documents
  | OpenAIReranker _ _ => OpenAI.rerank (openaiReplies net 0%nat) documents
  end.

(** [this.provider.rerankBatch(query, documents, batchSize)]; the result
    of a finished run is the list it returns. *)
Definition providerRerankBatch {D : Type} (net : Network) (p : Provider)
    (documents : list D) (batchSize : option nat) (fuel : nat)
  : option (Result (list (Scored D))) :=
  let run :=
    match p with
    | GeminiReranker _ _ => Gemini.rerankBatch (geminiReplies net) documents batchSize fuel
    | CohereReranker _ _ => Cohere.rerankBatch (cohereReplies net) documents batchSize fuel
    | OpenAIReranker _ _ => OpenAI.rerankBatch (openaiReplies net) documents batchSize fuel
    end in
  match run with
  | None => None
  | Some (Ok st) => Some (Ok (results st))
  | Some (Throw e) => Some (Throw e)
  end.

Definition rerank {D : Type} (env : Env) (net : Network) (this : t)
    (documents : list D) : Result (list (Scored D)) * t :=
  let this' := ensure env this in
  match provider this' with
  | None => (Ok (neutral documents), this')
  | Some p =>
      (tryCatch (providerRerank net p documents)
                (fun _ => Ok (neutral documents)), this')
  end.

Definition rerankBatch {D : Type} (env : Env) (net : Network) (this : t)
    (documents : list D) (batchSize : option nat) (fuel : nat)
  : option (Result (list (Scored D))) * t :=
  let this' := ensure env this in
  match provider this' with
  | None => (Some (Ok (neutral documents)), this')
  | Some p =>
      (match providerRerankBatch net p documents batchSize fuel with
       | None => None
       | Some r => Some (tryCatch r (fun _ => Ok (neutral documents)))
       end, this')
  end.

End RerankerService.

(* ================================================================== *)
(** * Documents *)
(* ================================================================== *)

(** A property of an object that is spread into another one. *)
Inductive prop (A : Type) : Type :=
| Absent
| Null
| Has (a : A).

Arguments Absent {A}.
Arguments Null {A}.
Arguments Has {A} a.

Definition valueOf {A : Type} (p : prop A) : option A :=
  match p with Has a => Some a | _ => None end.

(** The property after [{ ...old, ...new }]. *)
Definition spreadProp {A : Type} (old new : prop A) : prop A :=
  match new with Absent => old | _ => new end.

(** A row of [legal_judgment_metadata], with the columns the code reads. *)
Module Meta.
Record t : Type := mk {
  doc_id : prop string;
  title : prop string;
  citation : prop string;
  court : prop string;
  year : prop Z;
  case_type : prop string;
  jurisdiction : prop string;
  keywords : prop string;
  petitioner : prop string;
  respondent : prop string
}.

Definition empty : t :=
  mk Absent Absent Absent Absent Absent Absent Absent Absent Absent Absent.

(** [{ ...old, ...new }] *)
Definition spread (old new : t) : t :=
  mk (spreadProp (doc_id old) (doc_id new))
     (spreadProp (title old) (title new))
     (spreadProp (citation old) (citation new))
     (spreadProp (court old) (court new))
     (spreadProp (year old) (year new))
     (spreadProp (case_type old) (case_type new))
     (spreadProp (jurisdiction old) (jurisdiction new))
     (spreadProp (keywords old) (keywords new))
     (spreadProp (petitioner old) (petitioner new))
     (spreadProp (respondent old) (respondent new)).

(** A string property used as a condition or as the left of [||]. *)
Definition str (p : prop string) : option string := Js.truthyStr (valueOf p).

(** [p || ''] *)
Definition strOrEmpty (p : prop string) : string :=
  match str p with Some s => s | None => EmptyString end.

(** A number property used as a condition. *)
Definition num (p : prop Z) : option Z :=
  match valueOf p with
  | Some z => if (z =? 0)%Z then None else Some z
  | None => None
  end.
End Meta.

(** A hit of the vector store. *)
Module VectorResult.
Record t : Type := mk {
  id : option string;
  docId : option string;
  score : option Q;
  similarity : option Q;
  title : option string;
  text : option string;
  pageContent : option string;
  metadata : option Meta.t
}.
End VectorResult.

Inductive Source : Type := vector | metadata | hybrid.

Definition Source_eqb (a b : Source) : bool :=
  match a, b with
  | vector, vector | metadata, metadata | hybrid, hybrid => true
  | _, _ => false
  end.

(** An entry of [documentMap]. *)
Module Doc.
Record t : Type := mk {
  docId : string;
  title : option string;
  text : option string;
  pageContent : option string;
  metadata : option Meta.t;
  vectorScore : Q;
  metadataScore : Q;
  metadataMatch : bool;
  source : Source;
  combinedScore : Q;
  semanticScore : option Q;
  hostedRerankerScore : option Q;
  metadataRelevanceScore : option Q
}.

Definition setCombinedScore (c : Q) (d : t) : t :=
  mk (docId d) (title d) (text d) (pageContent d) (metadata d)
     (vectorScore d) (metadataScore d) (metadataMatch d) (source d)
     c (semanticScore d) (hostedRerankerScore d) (metadataRelevanceScore d).

(** The four assignments of the merge of a metadata row into [existing]. *)
Definition mergeMetadata (metadataRelevance : Q) (result : Meta.t) (existing : t) : t :=
  mk (docId existing) (title existing) (text existing) (pageContent existing)
     (Some (Meta.spread
              (match metadata existing with Some m => m | None => Meta.empty end)
              result))
     (vectorScore existing) metadataRelevance true hybrid
     (combinedScore existing) (semanticScore existing)
     (hostedRerankerScore existing) (metadataRelevanceScore existing).

(** The four assignments of the scoring step. *)
Definition setScores (combined semantic hosted meta : Q) (d : t) : t :=
  mk (docId d) (title d) (text d) (pageContent d) (metadata d)
     (vectorScore d) (metadataScore d) (metadataMatch d) (source d)
     combined (Some semantic) (Some hosted) (Some meta).
End Doc.

(** A JavaScript [Map] with string keys: entries in insertion order, one
    per key; [set] on a present key replaces the value in place. *)
Module Map.
Definition t (V : Type) : Type := list (string * V).

Fixpoint get {V : Type} (m : t V) (k : string) : option V :=
  match m with
  | [] => None
  | (k', v) :: r => if String.eqb k' k then Some v else get r k
  end.

Fixpoint set {V : Type} (m : t V) (k : string) (v : V) : t V :=
  match m with
  | [] => [(k, v)]
  | (k', v') :: r =>
      if String.eqb k' k then (k, v) :: r else (k', v') :: set r k v
  end.

Definition keys {V : Type} (m : t V) : list string := map fst m.
Definition values {V : Type} (m : t V) : list V := map snd m.
End Map.

(* ================================================================== *)
(** * HybridReranker *)
(* ================================================================== *)

Module HybridReranker.

Record Options : Type := mkOptions {
  semanticWeight : option Q;
  rerankerWeight : option Q;
  metadataWeight : option Q;
  maxResults : option Z;
  diversityFactor : option Q;
  useHostedReranker : option bool
}.

(** [{}] *)
Definition noOptions : Options := mkOptions None None None None None None.

Definition orElse {A : Type} (o : option A) (d : A) : A :=
  match o with Some a => a | None => d end.

Definition tokenize (text : string) : list string :=
  filter (fun term => (2 <? String.length term)%nat)
    (Js.split_ws
       (Js.mapChars (fun c => if Js.isWord c || Js.isSpace c then c else " "%char)
          (Js.toLowerCase text))).

(** Exact for ASCII titles; see [Js.isSpace] for white space outside
    ASCII. *)
Definition normalizeTitle (title : string) : string :=
  Js.take 50
    (Js.trim
       (Js.collapseSpaces
          (Js.filterChars (fun c => Js.isWord c || Js.isSpace c)
             (Js.toLowerCase title))
          false)).

(** [queryTerms.some(t => field.toLowerCase().includes(t))], guarded by
    the field being present. *)
Definition fieldMentions (field : prop string) (queryTerms : list string) : bool :=
  match Meta.str field with
  | Some f => existsb (fun t => Js.includes (Js.toLowerCase f) t) queryTerms
  | None => false
  end.

Definition calculateMetadataRelevance (metadata : Meta.t) (queryTerms : list string) : Q :=
  let score := 1#2 in
  let searchableText :=
    Js.toLowerCase
      (String.concat " "%string
         [Meta.strOrEmpty (Meta.title metadata);
          Meta.strOrEmpty (Meta.citation metadata);
          Meta.strOrEmpty (Meta.court metadata);
          Meta.strOrEmpty (Meta.case_type metadata);
          Meta.strOrEmpty (Meta.jurisdiction metadata);
          Meta.strOrEmpty (Meta.keywords metadata)]) in
  let metadataTerms := tokenize searchableText in
  let matchCount :=
    List.length (filter (fun term => Js.arrayIncludes metadataTerms term) queryTerms) in
  let score :=
    if (0 <? List.length queryTerms)%nat then
      let termOverlap :=
        inject_Z (Z.of_nat matchCount) / inject_Z (Z.of_nat (List.length queryTerms)) in
      score + termOverlap * (1#2)
    else score in
  let score :=
    if fieldMentions (Meta.court metadata) queryTerms then score + (15#100) else score in
  let score :=
    match Meta.num (Meta.year metadata) with
    | Some y =>
        if Js.arrayIncludes queryTerms (Js.stringOfZ y) then score + (15#100) else score
    | None => score
    end in
  let score :=
    if fieldMentions (Meta.case_type metadata) queryTerms then score + (1#10) else score in
  let score :=
    if fieldMentions (Meta.citation metadata) queryTerms then score + (2#10) else score in
  Qmin score 1.

Definition formatMetadataAsText (metadata : Meta.t) : string :=
  let part (label : string) (p : option string) : list string :=
    match p with Some v => [(label ++ v)%string] | None => [] end in
  String.concat (String "010"%char EmptyString)
    (part "Title: "%string (Meta.str (Meta.title metadata)) ++
     part "Citation: "%string (Meta.str (Meta.citation metadata)) ++
     part "Court: "%string (Meta.str (Meta.court metadata)) ++
     part "Year: "%string (option_map Js.stringOfZ (Meta.num (Meta.year metadata))) ++
     part "Type: "%string (Meta.str (Meta.case_type metadata)) ++
     part "Petitioner: "%string (Meta.str (Meta.petitioner metadata)) ++
     part "Respondent: "%string (Meta.str (Meta.respondent metadata)) ++
     part "Keywords: "%string (Meta.str (Meta.keywords metadata))).

(** [result.id || result.docId], when it is truthy. *)
Definition vectorDocId (result : VectorResult.t) : option string :=
  orStr (VectorResult.id result) (Js.truthyStr (VectorResult.docId result)).

(** [result.score || result.similarity || 0] *)
Definition baseScore (result : VectorResult.t) : Q :=
  orQ (VectorResult.score result) (orQ (VectorResult.similarity result) 0).

(** [result.doc_id], when it is truthy. *)
Definition metadataDocId (result : Meta.t) : option string :=
  Meta.str (Meta.doc_id result).

(** The entry made for a vector hit. *)
Definition vectorDoc (docId : string) (result : VectorResult.t) : Doc.t :=
  Doc.mk docId (VectorResult.title result) (VectorResult.text result)
    (VectorResult.pageContent result) (VectorResult.metadata result)
    (baseScore result) 0 false vector 0 None None None.

(** The entry made for a metadata row whose id is not in the map. *)
Definition metadataDoc (docId : string) (metadataRelevance : Q) (result : Meta.t)
  : Doc.t :=
  Doc.mk docId
    (Some (match Meta.str (Meta.title result) with
           | Some t => t
           | None => "Untitled"%string
           end))
    (Some (formatMetadataAsText result))
    None (Some result)
    0 metadataRelevance true metadata 0 None None None.

(** Step 2: the loop over [vectorResults]. *)
Definition addVector (documentMap : Map.t Doc.t) (result : VectorResult.t)
  : Map.t Doc.t :=
  match vectorDocId result with
  | None => documentMap
  | Some docId => Map.set documentMap docId (vectorDoc docId result)
  end.

(** Step 3: the loop over [metadataResults]. *)
Definition addMetadata (queryTerms : list string) (documentMap : Map.t Doc.t)
    (result : Meta.t) : Map.t Doc.t :=
  match metadataDocId result with
  | None => documentMap
  | Some docId =>
      let metadataRelevance := calculateMetadataRelevance result queryTerms in
      match Map.get documentMap docId with
      | Some existing =>
          Map.set documentMap docId (Doc.mergeMetadata metadataRelevance result existing)
      | None =>
          Map.set documentMap docId (metadataDoc docId metadataRelevance result)
      end
  end.

(** Steps 1 to 3. *)
Definition merge (vectorResults : list VectorResult.t)
    (metadataResults : list Meta.t) (query : string) : Map.t Doc.t :=
  let queryTerms := tokenize (Js.toLowerCase query) in
  fold_left (addMetadata queryTerms) metadataResults
    (fold_left addVector vectorResults []).

(** A string used as a condition. *)
Definition nonEmpty (s : string) : bool := negb (String.eqb s EmptyString).

(** The [forEach] of step 4. *)
Definition storeScores (rerankedDocs : list (Scored Doc.t)) : Map.t Q :=
  fold_left
    (fun rerankerScores scored =>
       if nonEmpty (Doc.docId (doc scored))
       then Map.set rerankerScores (Doc.docId (doc scored))
                    (orQ (Some (rerankerScore scored)) (1#2))
       else rerankerScores)
    rerankedDocs [].

(** Step 4. *)
Definition hostedScores (env : Env) (net : Network) (service : RerankerService.t)
    (useHosted : bool) (documentMap : Map.t Doc.t) : Map.t Q * RerankerService.t :=
  if useHosted then
    let (available, service1) := RerankerService.isAvailable env service in
    if available then
      let allDocs := Map.values documentMap in
      let (rerankedDocs, service2) := RerankerService.rerank env net service1 allDocs in
      match rerankedDocs with
      | Ok docs => (storeScores docs, service2)
      | Throw _ => ([], service2)
      end
    else ([], service1)
  else ([], service).

(** The body of the loop of step 5. *)
Definition scoreDoc (sW rW mW dF : Q) (rerankerScores : Map.t Q)
    (metadataCount vectorCount : nat) (docId : string) (doc : Doc.t) : Doc.t :=
  let semanticScore := clamp01 (Doc.vectorScore doc) in
  let metadataScore := clamp01 (Doc.metadataScore doc) in
  let hostedRerankerScore := orQ (Map.get rerankerScores docId) (1#2) in
  let combinedScore :=
    semanticScore * sW + hostedRerankerScore * rW + metadataScore * mW in
  let combinedScore :=
    if Source_eqb (Doc.source doc) metadata && (vectorCount <? metadataCount)%nat
    then combinedScore * (1 - dF)
    else combinedScore in
  Doc.setScores (Qmin combinedScore 1) semanticScore hostedRerankerScore
                metadataScore doc.

(** The loop of [applyDiversity]: the documents in order, with the sets
    of titles and courts seen so far. *)
Definition displayTitle (result : Doc.t) : string :=
  match Js.truthyStr (Doc.title result) with
  | Some t => t
  | None =>
      match Doc.metadata result with
      | Some m => Meta.strOrEmpty (Meta.title m)
      | None => EmptyString
      end
  end.

Definition displayCourt (result : Doc.t) : string :=
  match Doc.metadata result with
  | Some m => Meta.strOrEmpty (Meta.court m)
  | None => EmptyString
  end.

Definition setHas (s : list string) (x : string) : bool := existsb (String.eqb x) s.

Definition diversityPenalty (diversityFactor : Q) (seenTitles seenCourts : list string)
    (result : Doc.t) : Q :=
  let title := displayTitle result in
  let court := displayCourt result in
  let diversityPenalty := 0 in
  let diversityPenalty :=
    if nonEmpty title && setHas seenTitles (normalizeTitle title)
    then diversityPenalty + diversityFactor else diversityPenalty in
  if nonEmpty court && setHas seenCourts court
  then diversityPenalty + diversityFactor * (1#2) else diversityPenalty.

Fixpoint diversify (diversityFactor : Q) (seenTitles seenCourts : list string)
    (results : list Doc.t) : list Doc.t :=
  match results with
  | [] => []
  | result :: rest =>
      let title := displayTitle result in
      let court := displayCourt result in
      let penalty := diversityPenalty diversityFactor seenTitles seenCourts result in
      let result' :=
        Doc.setCombinedScore (Qmax 0 (Doc.combinedScore result - penalty)) result in
      let seenTitles' :=
        if nonEmpty title then normalizeTitle title :: seenTitles else seenTitles in
      let seenCourts' :=
        if nonEmpty court then court :: seenCourts else seenCourts in
      result' :: diversify diversityFactor seenTitles' seenCourts' rest
  end.

Definition applyDiversity (results : list Doc.t) (diversityFactor : Q) : list Doc.t :=
  if Qle_bool diversityFactor 0 || (List.length results <=? 1)%nat then results
  else sortDesc Doc.combinedScore (diversify diversityFactor [] [] results).

(** Steps 1 to 6 of [HybridReranker.rerank]: merge, hosted scores,
    combined scores, first sort. *)
Definition scoredResults (env : Env) (net : Network) (service : RerankerService.t)
    (vectorResults : list VectorResult.t) (metadataResults : list Meta.t)
    (query : option string) (options : Options)
  : list Doc.t * RerankerService.t :=
  let query := orElse query EmptyString in
  let sW := orElse (semanticWeight options) (7#10) in
  let rW := orElse (rerankerWeight options) (2#10) in
  let mW := orElse (metadataWeight options) (1#10) in
  let dF := orElse (diversityFactor options) (1#10) in
  let useHosted := orElse (useHostedReranker options) true in
  let documentMap := merge vectorResults metadataResults query in
  let (rerankerScores, service') := hostedScores env net service useHosted documentMap in
  let scoredResults :=
    map (fun e => scoreDoc sW rW mW dF rerankerScores
                    (List.length metadataResults) (List.length vectorResults)
                    (fst e) (snd e))
        documentMap in
  (sortDesc Doc.combinedScore scoredResults, service').

(** [HybridReranker.rerank]: steps 7 and 8 after [scoredResults].  Nothing
    in the [try] block throws on arguments of these types, so its [catch]
    is not taken. *)
Definition rerank (env : Env) (net : Network) (service : RerankerService.t)
    (vectorResults : list VectorResult.t) (metadataResults : list Meta.t)
    (query : option string) (options : Options)
  : list Doc.t * RerankerService.t :=
  let maxR := orElse (maxResults options) 10%Z in
  let dF := orElse (diversityFactor options) (1#10) in
  let (scored, service') :=
    scoredResults env net service vectorResults metadataResults query options in
  let diversifiedResults := applyDiversity scored dF in
  (sliceTo maxR diversifiedResults, service').

End HybridReranker.

(* ================================================================== *)
(** * HybridSearchManager *)
(* ================================================================== *)

Module Filters.
Record t : Type := mk {
  year : option Z;
  court : option string;
  case_type : option string;
  jurisdiction : option string;
  bench_type : option string;
  judge : option string;
  citation : option string;
  keywords : option string;
  fulltext : option string
}.

(** [{}] *)
Definition empty : t := mk None None None None None None None None None.

Definition count {A : Type} (o : option A) : nat :=
  match o with Some _ => 1 | None => 0 end.

(** [Object.keys(filters).length] *)
Definition size (f : t) : nat :=
  count (year f) + count (court f) + count (case_type f) +
  count (jurisdiction f) + count (bench_type f) + count (judge f) +
  count (citation f) + count (keywords f) + count (fulltext f).

Definition over {A : Type} (old new : option A) : option A :=
  match new with Some _ => new | None => old end.

(** [Object.assign(target, source)] *)
Definition assign (target source : t) : t :=
  mk (over (year target) (year source))
     (over (court target) (court source))
     (over (case_type target) (case_type source))
     (over (jurisdiction target) (jurisdiction source))
     (over (bench_type target) (bench_type source))
     (over (judge target) (judge source))
     (over (citation target) (citation source))
     (over (keywords target) (keywords source))
     (over (fulltext target) (fulltext source)).
End Filters.

Module HybridSearchManager.

Definition digit2 : Js.regex := Js.Seq (Js.Class Js.isDigit) (Js.Class Js.isDigit).

(** [/\b(19\d{2}|20\d{2})\b/] *)
Definition yearPattern : Js.regex :=
  Js.Seq Js.WordBoundary
    (Js.Seq (Js.Alt (Js.Seq (Js.Lit "19") digit2) (Js.Seq (Js.Lit "20") digit2))
            Js.WordBoundary).

(** [[a-z\s]] *)
Definition letterOrSpace (c : ascii) : bool := Js.isLower c || Js.isSpace c.

(** The rules of [courtPatterns], all with the [i] flag; [None] is the
    [null] value, for which the matched text is taken. *)
Definition courtPatterns : list (Js.regex * option string) :=
  [ (Js.Lit "supreme court", Some "Supreme Court of India"%string);
    (Js.Seq (Js.Lit "high court of ") (Js.Plus letterOrSpace), None);
    (Js.Lit "delhi high court", Some "High Court of Delhi"%string);
    (Js.Lit "bombay high court", Some "High Court of Bombay"%string);
    (Js.Lit "calcutta high court", Some "High Court of Calcutta"%string);
    (Js.Lit "madras high court", Some "High Court of Madras"%string) ].

(** The rules of [caseTypePatterns], all with the [i] flag. *)
Definition caseTypePatterns : list (Js.regex * string) :=
  [ (Js.Lit "criminal appeal", "Criminal Appeal"%string);
    (Js.Lit "civil appeal", "Civil Appeal"%string);
    (Js.Lit "writ petition", "Writ Petition"%string);
    (Js.Alt (Js.Lit "special leave petition") (Js.Lit "slp"),
     "Special Leave Petition"%string);
    (Js.Alt (Js.Seq Js.WordBoundary (Js.Seq (Js.Lit "pil") Js.WordBoundary))
            (Js.Lit "public interest litigation"),
     "PIL"%string);
    (Js.Lit "bail", "Bail Application"%string) ].

(** The loop over [courtPatterns], leaving at the first match. *)
Fixpoint firstCourt (patterns : list (Js.regex * option string)) (query : string)
  : option string :=
  match patterns with
  | [] => None
  | (pattern, value) :: rest =>
      match Js.exec true pattern query with
      | Some (_, match0) =>
          Some (match Js.truthyStr value with Some v => v | None => match0 end)
      | None => firstCourt rest query
      end
  end.

(** The loop over [caseTypePatterns], leaving at the first match. *)
Fixpoint firstCaseType (patterns : list (Js.regex * string)) (query : string)
  : option string :=
  match patterns with
  | [] => None
  | (pattern, value) :: rest =>
      if Js.test true pattern query then Some value
      else firstCaseType rest query
  end.

Definition extractYear (query : string) : option Z :=
  match Js.exec false yearPattern query with
  | Some (_, m) => Some (Js.digitsValue 0 m)
  | None => None
  end.

Definition extractJurisdiction (query : string) : option string :=
  if Js.test true (Js.Lit "criminal") query then Some "Criminal"%string
  else if Js.test true (Js.Lit "civil") query then Some "Civil"%string
  else None.

Definition extractBenchType (query : string) : option string :=
  if Js.test true (Js.Lit "constitution bench") query then Some "Constitution Bench"%string
  else if Js.test true (Js.Lit "division bench") query then Some "Division Bench"%string
  else None.

Definition truthyZ (o : option Z) : option Z :=
  match o with
  | Some z => if (z =? 0)%Z then None else Some z
  | None => None
  end.

(** [new RegExp(source, 'gi')] for a source of letters and white space,
    which is all the extracted values are made of. *)
Definition regExpOf (source : string) : Js.regex := Js.Lit source.

(** The three [replace] calls that clean the query. *)
Definition cleanQuery (query : string) (year : option Z)
    (court case_type : option string) : string :=
  let cleanedQuery := query in
  let cleanedQuery :=
    match truthyZ year with
    | Some y => Js.removeFirst (Js.stringOfZ y) cleanedQuery
    | None => cleanedQuery
    end in
  let cleanedQuery :=
    match Js.truthyStr court with
    | Some c => Js.removeAll true (regExpOf c) cleanedQuery
    | None => cleanedQuery
    end in
  match Js.truthyStr case_type with
  | Some c => Js.removeAll true (regExpOf c) cleanedQuery
  | None => cleanedQuery
  end.

(** Exact for ASCII queries: [trim] and [length] count code units, which
    for ASCII text are the characters. *)
Definition extractFiltersFromQuery (query : string) : Filters.t :=
  let year := extractYear query in
  let court := firstCourt courtPatterns query in
  let case_type := firstCaseType caseTypePatterns query in
  let jurisdiction := extractJurisdiction query in
  let bench_type := extractBenchType query in
  let cleanedQuery := Js.trim (cleanQuery query year court case_type) in
  let fulltext :=
    if (5 <? String.length cleanedQuery)%nat then Some cleanedQuery else None in
  Filters.mk year court case_type jurisdiction bench_type None None None fulltext.

(** ** The collaborators *)

Record Workspace : Type := mkWorkspace {
  id : Z;
  slug : string
}.

(** The argument of [LegalJudgmentMetadata.search]. *)
Record SearchParams : Type := mkSearchParams {
  workspace_id : Z;
  limit : Z;
  params : Filters.t
}.

(** The vector store and the metadata store: what a call returns, or that
    it throws.  A vector search returns an object whose [sources] may be
    missing. *)
Record Stores : Type := mkStores {
  performSimilaritySearch :
    option (string -> option string -> Z -> Result (option (list VectorResult.t)));
  metadataSearch : SearchParams -> Result (list Meta.t);
  metadataGet : string -> Result (option Meta.t)
}.

Record Params : Type := mkParams {
  query : option string;
  workspace : option Workspace;
  topN : option Z;
  filters : option Filters.t;
  rerankOptions : option HybridReranker.Options
}.

(** Reading a property of [workspace]: a [TypeError] when it is missing. *)
Definition ofWorkspace {A : Type} (w : option Workspace) (f : Workspace -> A)
  : Result A :=
  match w with
  | Some ws => Ok (f ws)
  | None => Throw "Cannot read properties of undefined"
  end.

Definition performVectorSearch (stores : Stores) (query : option string)
    (workspace : option Workspace) (topN : Z) : Result (list VectorResult.t) :=
  tryCatch
    (match performSimilaritySearch stores with
     | None => Ok []
     | Some call =>
         (namespace <- ofWorkspace workspace slug ;;
          results <- call namespace query topN ;;
          Ok (match results with Some sources => sources | None => [] end))%result
     end)
    (fun _ => Ok []).

(** The copies [if (filters.x) searchParams.x = filters.x]. *)
Definition mapFilters (f : Filters.t) : Filters.t :=
  Filters.mk (truthyZ (Filters.year f))
    (Js.truthyStr (Filters.court f))
    (Js.truthyStr (Filters.case_type f))
    (Js.truthyStr (Filters.jurisdiction f))
    (Js.truthyStr (Filters.bench_type f))
    (Js.truthyStr (Filters.judge f))
    (Js.truthyStr (Filters.citation f))
    (Js.truthyStr (Filters.keywords f))
    (Js.truthyStr (Filters.fulltext f)).

Definition performMetadataSearch (stores : Stores) (filters : Filters.t)
    (workspaceId : Z) (limit : Z) : Result (list Meta.t) :=
  tryCatch
    (metadataSearch stores (mkSearchParams workspaceId limit (mapFilters filters)))
    (fun _ => Ok []).

(** A ranked document after enrichment. *)
Record Enriched : Type := mkEnriched {
  result : Doc.t;
  legalMetadata : option Meta.t
}.

(** [{ ...result.metadata, court, year, citation, case_type }] *)
Definition displayMetadata (old : option Meta.t) (legal : Meta.t) : Meta.t :=
  let m := match old with Some m => m | None => Meta.empty end in
  Meta.mk (Meta.doc_id m) (Meta.title m) (Meta.citation legal) (Meta.court legal)
    (Meta.year legal) (Meta.case_type legal) (Meta.jurisdiction m)
    (Meta.keywords m) (Meta.petitioner m) (Meta.respondent m).

Definition withMetadata (m : Meta.t) (d : Doc.t) : Doc.t :=
  Doc.mk (Doc.docId d) (Doc.title d) (Doc.text d) (Doc.pageContent d) (Some m)
    (Doc.vectorScore d) (Doc.metadataScore d) (Doc.metadataMatch d) (Doc.source d)
    (Doc.combinedScore d) (Doc.semanticScore d) (Doc.hostedRerankerScore d)
    (Doc.metadataRelevanceScore d).

(** The lookups of [enrichResultsWithMetadata]; one that throws is
    skipped. *)
Definition fetchMetadata (stores : Stores) (docIds : list string) : Map.t Meta.t :=
  fold_left
    (fun metadataMap docId =>
       match metadataGet stores docId with
       | Ok (Some m) => Map.set metadataMap docId m
       | _ => metadataMap
       end)
    docIds [].

Definition enrichResultsWithMetadata (stores : Stores) (results : list Doc.t)
    (workspaceId : Z) : Result (list Enriched) :=
  let docIds :=
    filter HybridReranker.nonEmpty (map Doc.docId results) in
  let metadataMap := fetchMetadata stores docIds in
  Ok (map (fun r =>
             match Map.get metadataMap (Doc.docId r) with
             | Some legal =>
                 mkEnriched
                   (withMetadata (displayMetadata (Doc.metadata r) legal) r)
                   (Some legal)
             | None => mkEnriched r None
             end)
          results).

(** What [search] resolves to: the enriched ranking, or the plain vector
    hits of its fallback. *)
Inductive Output : Type :=
| Ranked (results : list Enriched)
| VectorOnly (results : list VectorResult.t).

(** The options [search] passes to the reranker:
    [{ semanticWeight: 0.6, ..., ...rerankOptions }]. *)
Definition fusionOptions (topN : Z) (rerankOptions : HybridReranker.Options)
  : HybridReranker.Options :=
  let over {A : Type} (new : option A) (d : A) : option A :=
    match new with Some _ => new | None => Some d end in
  HybridReranker.mkOptions
    (over (HybridReranker.semanticWeight rerankOptions) (6#10))
    (over (HybridReranker.rerankerWeight rerankOptions) (3#10))
    (over (HybridReranker.metadataWeight rerankOptions) (1#10))
    (over (HybridReranker.maxResults rerankOptions) topN)
    (HybridReranker.diversityFactor rerankOptions)
    (over (HybridReranker.useHostedReranker rerankOptions) true).

(** The [try] block of [search]. *)
Definition searchBody (env : Env) (net : Network) (stores : Stores)
    (service : RerankerService.t) (p : Params)
  : Result (list Enriched) * RerankerService.t :=
  let topN := HybridReranker.orElse (topN p) 10%Z in
  let filters := HybridReranker.orElse (filters p) Filters.empty in
  let rerankOptions :=
    HybridReranker.orElse (rerankOptions p) HybridReranker.noOptions in
  let step1 : Result Filters.t :=
    if (Filters.size filters =? 0)%nat then
      match query p with
      | Some q => Ok (Filters.assign filters (extractFiltersFromQuery q))
      | None => Throw "Cannot read properties of undefined (reading 'toLowerCase')"
      end
    else Ok filters in
  match step1 with
  | Throw e => (Throw e, service)
  | Ok enhancedFilters =>
      let step2 : Result (list VectorResult.t * list Meta.t) :=
        (vectorResults <-
           performVectorSearch stores (query p) (workspace p) (topN * 2)%Z ;;
         metadataResults <-
           (if (0 <? Filters.size enhancedFilters)%nat then
              (workspaceId <- ofWorkspace (workspace p) id ;;
               performMetadataSearch stores enhancedFilters workspaceId (topN * 2)%Z)
            else Ok []) ;;
         Ok (vectorResults, metadataResults))%result in
      match step2 with
      | Throw e => (Throw e, service)
      | Ok (vectorResults, metadataResults) =>
          let (rerankedResults, service') :=
            HybridReranker.rerank env net service vectorResults metadataResults
              (query p) (fusionOptions topN rerankOptions) in
          ((workspaceId <- ofWorkspace (workspace p) id ;;
            enrichResultsWithMetadata stores rerankedResults workspaceId)%result,
           service')
      end
  end.

Definition search (env : Env) (net : Network) (stores : Stores)
    (service : RerankerService.t) (p : Params)
  : Result Output * RerankerService.t :=
  match searchBody env net stores service p with
  | (Ok enrichedResults, service') => (Ok (Ranked enrichedResults), service')
  | (Throw _, service') =>
      ((r <- performVectorSearch stores (query p) (workspace p)
               (HybridReranker.orElse (topN p) 10%Z) ;;
        Ok (VectorOnly r))%result, service')
  end.

End HybridSearchManager.

(* ================================================================== *)
(** * Vocabulary of the statements *)
(* ================================================================== *)

(** What every provider's [rerank] is expected to do: it returns, the
    documents returned are those given, in some order, and every score
    attached satisfies [P]. *)
Definition returnsAll {D : Type} (r : Result (list (Scored D))) (documents : list D)
    (P : Q -> Prop) : Prop :=
  exists out, r = Ok out /\
    Permutation (map (@doc D) out) documents /\
    Forall (fun s => P (rerankerScore s)) out.

Section Chunks.
Variables D Reply : Type.
Variable rerank : Reply -> list D -> Result (list (Scored D)).
Variable replies : nat -> Reply.

(** The chunks a batched run sends: consecutive pieces of [batchSize]
    documents, the last one possibly shorter. *)
Fixpoint chunksOf (fuel batchSize : nat) (l : list D) : list (list D) :=
  match fuel with
  | O => []
  | S fuel' =>
      match l with
      | [] => []
      | _ => firstn batchSize l :: chunksOf fuel' batchSize (skipn batchSize l)
      end
  end.

Definition chunks (batchSize : nat) (l : list D) : list (list D) :=
  chunksOf (List.length l) batchSize l.

(** What is expected back: the answer for each chunk, in chunk order; the
    [k]-th request gets the [k]-th reply. *)
Fixpoint chunkResults (k : nat) (cs : list (list D)) : list (Scored D) :=
  match cs with
  | [] => []
  | c :: rest =>
      match rerank (replies k) c with
      | Ok out => out
      | Throw _ => []
      end ++ chunkResults (S k) rest
  end.

(** One request per chunk, a pause of 100 ms between two requests. *)
Fixpoint chunkEvents (cs : list (list D)) : list Event :=
  match cs with
  | [] => []
  | c :: rest =>
      Request (List.length c) ::
      match rest with
      | [] => []
      | _ => Sleep 100 :: chunkEvents rest
      end
  end.
End Chunks.

(** The configurations in which the service has no provider to use:
    reranking not enabled, a provider name that is none of the three, or
    the key of the selected provider missing (not set, or empty). *)
Inductive Unusable (env : Env) : Prop :=
| Disabled :
    RERANKER_ENABLED env <> Some "true"%string -> Unusable env
| UnknownProvider :
    (forall name, RERANKER_PROVIDER env = Some name ->
       Js.toLowerCase name <> "gemini"%string /\
       Js.toLowerCase name <> "cohere"%string /\
       Js.toLowerCase name <> "openai"%string) ->
    Unusable env
| MissingKey :
    forall name, RERANKER_PROVIDER env = Some name ->
      (Js.toLowerCase name = "gemini"%string /\
       Js.truthyStr (RERANKER_API_KEY env) = None /\
       Js.truthyStr (GEMINI_API_KEY env) = None)
      \/ (Js.toLowerCase name = "cohere"%string /\
          Js.truthyStr (RERANKER_API_KEY env) = None)
      \/ (Js.toLowerCase name = "openai"%string /\
          Js.truthyStr (RERANKER_API_KEY env) = None /\
          Js.truthyStr (OPEN_AI_KEY env) = None) ->
      Unusable env.

(** ** Inputs of the scenarios *)

(** Reranking enabled, Cohere selected, no key. *)
Definition envCohereNoKey : Env :=
  mkEnv (Some "Cohere"%string) (Some "true"%string) None None None None None.

(** Nothing configured. *)
Definition envNone : Env := mkEnv None None None None None None None.

(** Every scoring endpoint unreachable. *)
Definition netDown : Network :=
  mkNetwork (fun _ => Gemini.Rejected) (fun _ => Cohere.FetchRejected)
            (fun _ => OpenAI.FetchRejected).

(** The metadata row [{ doc_id: "d1", court: "Supreme Court of India",
    year: 2024, title: "A v. B" }]. *)
Definition scenarioRow : Meta.t :=
  Meta.mk (Has "d1"%string) (Has "A v. B"%string) Absent
          (Has "Supreme Court of India"%string) (Has 2024%Z)
          Absent Absent Absent Absent Absent.

Definition scenarioQuery : string := "Supreme Court 2024 A v B".

(** The weights [HybridSearchManager.search] passes. *)
Definition searchWeights : HybridReranker.Options :=
  HybridReranker.mkOptions (Some (6#10)) (Some (3#10)) (Some (1#10)) None None None.

(** The vector hit [{ id: "d1", score: 0.9 }] and the metadata row
    [{ doc_id: "d1", court: "X" }]. *)
Definition hybridHit : VectorResult.t :=
  VectorResult.mk (Some "d1"%string) None (Some (9#10)) None None None None None.

Definition hybridRow : Meta.t :=
  Meta.mk (Has "d1"%string) Absent Absent (Has "X"%string) Absent
          Absent Absent Absent Absent Absent.

(** ** Identifiers in the two candidate lists *)

Definition idIs (k : string) (o : option string) : bool :=
  match o with Some s => String.eqb s k | None => false end.

(** The last vector hit with identifier [k]. *)
Fixpoint lastVector (k : string) (vr : list VectorResult.t) : option VectorResult.t :=
  match vr with
  | [] => None
  | r :: t =>
      match lastVector k t with
      | Some x => Some x
      | None => if idIs k (HybridReranker.vectorDocId r) then Some r else None
      end
  end.

(** How many metadata rows have identifier [k]. *)
Definition countMeta (k : string) (mr : list Meta.t) : nat :=
  List.length (filter (fun r => idIs k (HybridReranker.metadataDocId r)) mr).

(** The Cohere endpoint never answers with a negative relevance score. *)
Definition cohereNonneg (net : Network) : Prop :=
  forall k l e s,
    cohereReplies net k = Cohere.Data (Some l) -> In e l ->
    Cohere.relevance_score e = Some s -> 0 <= s.

(** One vector hit with score 1, and a negative semantic weight. *)
Definition fullHit : VectorResult.t :=
  VectorResult.mk (Some "d1"%string) None (Some 1) None None None None None.

Definition negativeWeight : HybridReranker.Options :=
  HybridReranker.mkOptions (Some (-1)) None None None None None.

(** ** The diversity penalty, by position

    [results] is the list the pass walks through; a title or court counts
    as seen at position [i] when one of the [i] documents before has it. *)
Definition seenTitleBefore (results : list Doc.t) (i : nat) (d : Doc.t) : bool :=
  let title := HybridReranker.displayTitle d in
  HybridReranker.nonEmpty title &&
  existsb (fun e =>
             HybridReranker.nonEmpty (HybridReranker.displayTitle e) &&
             String.eqb (HybridReranker.normalizeTitle title)
                        (HybridReranker.normalizeTitle (HybridReranker.displayTitle e)))
          (firstn i results).

Definition seenCourtBefore (results : list Doc.t) (i : nat) (d : Doc.t) : bool :=
  let court := HybridReranker.displayCourt d in
  HybridReranker.nonEmpty court &&
  existsb (fun e =>
             HybridReranker.nonEmpty (HybridReranker.displayCourt e) &&
             String.eqb court (HybridReranker.displayCourt e))
          (firstn i results).

Definition penaltyAt (dF : Q) (results : list Doc.t) (i : nat) (d : Doc.t) : Q :=
  (if seenTitleBefore results i d then dF else 0) +
  (if seenCourtBefore results i d then dF * (1#2) else 0).

(** Two metadata rows, and a diversity factor above 1. *)
Definition rowA : Meta.t :=
  Meta.mk (Has "a"%string) (Has "Case A"%string) Absent Absent Absent
          Absent Absent Absent Absent Absent.

Definition rowB : Meta.t :=
  Meta.mk (Has "b"%string) (Has "Case B"%string) Absent Absent Absent
          Absent Absent Absent Absent Absent.

Definition steepDiversity : HybridReranker.Options :=
  HybridReranker.mkOptions None None None None (Some 2) None.

(** Two scored documents with the same title. *)
Definition twin (docId : string) (combinedScore : Q) : Doc.t :=
  Doc.mk docId (Some "State v. Rao"%string) None None None
         combinedScore 0 false vector combinedScore None None None.

Definition twins : list Doc.t := [twin "t1" (8#10); twin "t2" (7#10)].

(** The invariant of the loop of the pass: the two sets hold what the
    documents of [prefix] contributed. *)
Definition seenInv (prefix : list Doc.t) (st sc : list string) : Prop :=
  (forall x, HybridReranker.setHas st x =
             existsb (fun e =>
                        HybridReranker.nonEmpty (HybridReranker.displayTitle e) &&
                        String.eqb x (HybridReranker.normalizeTitle
                                        (HybridReranker.displayTitle e)))
                     prefix)
  /\ (forall c, HybridReranker.setHas sc c =
                existsb (fun e =>
                           HybridReranker.nonEmpty (HybridReranker.displayCourt e) &&
                           String.eqb c (HybridReranker.displayCourt e))
                        prefix).


(** ** Stores for the statements about [search] *)

(** [stores] with another vector client, or another metadata search. *)
Definition withVector (stores : HybridSearchManager.Stores)
    (call : string -> option string -> Z -> Result (option (list VectorResult.t)))
  : HybridSearchManager.Stores :=
  HybridSearchManager.mkStores (Some call)
    (HybridSearchManager.metadataSearch stores)
    (HybridSearchManager.metadataGet stores).

Definition withMetadataSearch (stores : HybridSearchManager.Stores)
    (f : HybridSearchManager.SearchParams -> Result (list Meta.t))
  : HybridSearchManager.Stores :=
  HybridSearchManager.mkStores
    (HybridSearchManager.performSimilaritySearch stores) f
    (HybridSearchManager.metadataGet stores).

(** A vector store that answers every search with one hit, and an empty
    metadata store. *)
Definition storesOneHit : HybridSearchManager.Stores :=
  HybridSearchManager.mkStores
    (Some (fun _ _ _ => Ok (Some [hybridHit])))
    (fun _ => Ok [])
    (fun _ => Ok None).

Definition someWorkspace : HybridSearchManager.Workspace :=
  HybridSearchManager.mkWorkspace 1 "ws".

(* ================================================================== *)
(** * Further parts of the sources *)
(* ================================================================== *)

(** ** [RerankerService.getConfig] *)

Record Config : Type := mkConfig {
  configEnabled : bool;
  configProvider : string;
  configModel : string;
  configAvailable : bool
}.

Definition getConfig (env : Env) (this : RerankerService.t)
  : Config * RerankerService.t :=
  let this1 := RerankerService.ensure env this in
  let (available, this2) := RerankerService.isAvailable env this1 in
  (mkConfig (RerankerService.enabled env)
            (orDefault (RERANKER_PROVIDER env) "none")
            (orDefault (RERANKER_MODEL env) "default")
            available,
   this2).

(** An environment in which the service gets a provider: reranking enabled,
    one of the three names (in any letter case), and a key for it. *)
Definition Configured (env : Env) : Prop :=
  RERANKER_ENABLED env = Some "true"%string
  /\ exists name, RERANKER_PROVIDER env = Some name
     /\ ((Js.toLowerCase name = "gemini"%string
          /\ Js.truthyStr (orStr (RERANKER_API_KEY env) (GEMINI_API_KEY env)) <> None)
         \/ (Js.toLowerCase name = "cohere"%string
             /\ Js.truthyStr (RERANKER_API_KEY env) <> None)
         \/ (Js.toLowerCase name = "openai"%string
             /\ Js.truthyStr (orStr (RERANKER_API_KEY env) (OPEN_AI_KEY env)) <> None)).

(** Reranking enabled with Gemini, a general key and a Gemini key. *)
Definition envGeminiTwoKeys : Env :=
  mkEnv (Some "GEMINI"%string) (Some "true"%string)
        (Some "general-key"%string) None
        (Some "gemini-key"%string) None None.

(** ** Batches *)

(** How many chunks of [b] documents [n] documents make. *)
Definition ceilDiv (n b : nat) : nat := (n + b - 1) / b.

Definition countSleeps (events : list Event) : nat :=
  List.length (filter (fun e => match e with Sleep _ => true | Request _ => false end)
                      events).

Definition countRequests (events : list Event) : nat :=
  List.length (filter (fun e => match e with Request _ => true | Sleep _ => false end)
                      events).

(** ** Characters of tokens and titles *)

Fixpoint allChars (p : ascii -> bool) (s : string) : bool :=
  match s with
  | EmptyString => true
  | String c s' => p c && allChars p s'
  end.

(** A lower-case letter, a digit or an underscore. *)
Definition tokenChar (c : ascii) : bool := Js.isWord c && negb (Js.isUpper c).

(** [[\w\s]] *)
Definition wordOrSpace (c : ascii) : bool := Js.isWord c || Js.isSpace c.

(** The identifier [k] is the identifier of a vector hit or of a metadata
    row of the two input lists. *)
Definition fromInputs (vectorResults : list VectorResult.t)
    (metadataResults : list Meta.t) (k : string) : Prop :=
  (exists r, In r vectorResults /\ HybridReranker.vectorDocId r = Some k)
  \/ (exists r, In r metadataResults /\ HybridReranker.metadataDocId r = Some k).

(** The court names the rules of [courtPatterns] carry. *)
Definition courtNames : list string :=
  [ "Supreme Court of India"; "High Court of Delhi"; "High Court of Bombay";
    "High Court of Calcutta"; "High Court of Madras" ]%string.

(** ** What [search] asks of the metadata store *)

(** The filters [search] goes on with after its first step, when that step
    does not throw: the given ones, or the ones read from the query when
    none is given. *)
Definition enhancedFilters (p : HybridSearchManager.Params) : option Filters.t :=
  let filters := HybridReranker.orElse (HybridSearchManager.filters p) Filters.empty in
  if (Filters.size filters =? 0)%nat then
    match HybridSearchManager.query p with
    | Some q =>
        Some (Filters.assign filters (HybridSearchManager.extractFiltersFromQuery q))
    | None => None
    end
  else Some filters.

(** The argument of the one call of [LegalJudgmentMetadata.search] that
    [search] can make. *)
Definition metadataRequest (p : HybridSearchManager.Params)
  : option HybridSearchManager.SearchParams :=
  match HybridSearchManager.workspace p, enhancedFilters p with
  | Some w, Some f =>
      if (0 <? Filters.size f)%nat then
        Some (HybridSearchManager.mkSearchParams
                (HybridSearchManager.id w)
                (HybridReranker.orElse (HybridSearchManager.topN p) 10 * 2)%Z
                (HybridSearchManager.mapFilters f))
      else None
  | _, _ => None
  end.

(** The lookup of one document in [enrichResultsWithMetadata]: none for a
    document without identifier, and none when the lookup throws. *)
Definition lookedUp (stores : HybridSearchManager.Stores) (r : Doc.t) : option Meta.t :=
  if HybridReranker.nonEmpty (Doc.docId r) then
    match HybridSearchManager.metadataGet stores (Doc.docId r) with
    | Ok (Some legal) => Some legal
    | _ => None
    end
  else None.

(* ================================================================== *)
(** * The metadata model: [LegalJudgmentMetadata] *)
(* ================================================================== *)

(** The model builds SQL text and a list of bound values and hands both to
    [pool.query]; what the pool answers is an argument, as for the scoring
    endpoints. *)
Module LegalJudgmentMetadata.
Local Open Scope string_scope.

(** A value bound to a placeholder. *)
Inductive Param : Type :=
| PNum (z : Z)
| PStr (s : string)
| PArr (l : list string).

(** The connection manager: [isEnabled] is set when
    [POSTGRES_CONNECTION_STRING] is, and [poolQuery] is [pool.query], the
    [rows] of its result or the error it throws. *)
Record Database (Row : Type) : Type := mkDatabase {
  isEnabled : bool;
  poolQuery : string -> list Param -> Result (list Row)
}.

(** [postgresManager.query], which [executeQuery] calls. *)
Definition executeQuery {Row : Type} (db : Database Row) (query : string)
    (params : list Param) : Result (list Row) :=
  if isEnabled db then poolQuery db query params else Ok [].

(** The value of [filters.keywords]: an array, or something else. *)
Inductive Keywords : Type :=
| KeywordArray (l : list string)
| KeywordText (s : string).

(** The argument of [search].  The last two keys are set by
    [performMetadataSearch]; [search] reads none of them. *)
Record SearchFilters : Type := mkSearchFilters {
  workspace_id : option Z;
  court : option string;
  year : option Z;
  year_from : option Z;
  year_to : option Z;
  case_type : option string;
  judge : option string;
  citation : option string;
  case_id : option string;
  cnr : option string;
  jurisdiction : option string;
  keywords : option Keywords;
  text_search : option string;
  limit : option Z;
  offset : option Z;
  bench_type : option string;
  fulltext : option string
}.

(** [query], [params] and [paramCount] of [search]. *)
Record Builder : Type := mkBuilder {
  query : string;
  params : list Param;
  paramCount : Z
}.

(** [$${paramCount}] *)
Definition placeholder (n : Z) : string := "$" ++ Js.stringOfZ n.

(** [query += `<sql>$${paramCount}<close>`; params.push(value);
    paramCount++] *)
Definition addClause (sql close : string) (value : Param) (b : Builder) : Builder :=
  mkBuilder (query b ++ sql ++ placeholder (paramCount b) ++ close)
            (params b ++ [value])%list
            (paramCount b + 1).

(** [if (x) { ... }] for a string and for a number. *)
Definition whenStr (x : option string) (f : string -> Builder -> Builder)
    (b : Builder) : Builder :=
  match Js.truthyStr x with Some s => f s b | None => b end.

Definition whenNum (x : option Z) (f : Z -> Builder -> Builder)
    (b : Builder) : Builder :=
  match HybridSearchManager.truthyZ x with Some z => f z b | None => b end.

(** [`%${x}%`] *)
Definition partial (x : string) : Param := PStr ("%" ++ x ++ "%").

(** [x || d] for a number. *)
Definition orZ (x : option Z) (d : Z) : Z :=
  match HybridSearchManager.truthyZ x with Some z => z | None => d end.

(** The conditions of [search], in the order of the source. *)
Definition conditions (filters : SearchFilters) (b : Builder) : Builder :=
  let b := whenNum (workspace_id filters)
             (fun v => addClause " AND workspace_id = " EmptyString (PNum v)) b in
  let b := whenStr (court filters)
             (fun v => addClause " AND court ILIKE " EmptyString (partial v)) b in
  let b :=
    match HybridSearchManager.truthyZ (year filters) with
    | Some v => addClause " AND year = " EmptyString (PNum v) b
    | None =>
        let b := whenNum (year_from filters)
                   (fun v => addClause " AND year >= " EmptyString (PNum v)) b in
        whenNum (year_to filters)
          (fun v => addClause " AND year <= " EmptyString (PNum v)) b
    end in
  let b := whenStr (case_type filters)
             (fun v => addClause " AND case_type = " EmptyString (PStr v)) b in
  let b := whenStr (judge filters)
             (fun v => addClause " AND judge ILIKE " EmptyString (partial v)) b in
  let b := whenStr (citation filters)
             (fun v => addClause " AND citation ILIKE " EmptyString (partial v)) b in
  let b := whenStr (case_id filters)
             (fun v => addClause " AND case_id = " EmptyString (PStr v)) b in
  let b := whenStr (cnr filters)
             (fun v => addClause " AND cnr = " EmptyString (PStr v)) b in
  let b := whenStr (jurisdiction filters)
             (fun v => addClause " AND jurisdiction ILIKE " EmptyString (partial v)) b in
  let b :=
    match keywords filters with
    | Some (KeywordArray (k :: ks)) =>
        addClause " AND keywords && " EmptyString (PArr (k :: ks)) b
    | _ => b
    end in
  whenStr (text_search filters)
    (fun v => addClause " AND searchable_text @@ plainto_tsquery('english', " ")"
                (PStr v)) b.

(** The text and the bound values [search] passes to [executeQuery]. *)
Definition searchStatement (filters : SearchFilters) : string * list Param :=
  let b := mkBuilder "SELECT * FROM legal_judgment_metadata WHERE 1=1" [] 1 in
  let b := conditions filters b in
  let query := query b ++ " ORDER BY year DESC NULLS LAST, created_at DESC" in
  let limit := orZ (limit filters) 100 in
  let offset := orZ (offset filters) 0 in
  let query :=
    query ++ " LIMIT " ++ placeholder (paramCount b)
          ++ " OFFSET " ++ placeholder (paramCount b + 1) in
  (query, (params b ++ [PNum limit; PNum offset])%list).

(** [search]: the rows, and no rows when the database is not enabled or
    the query throws. *)
Definition search {Row : Type} (db : Database Row) (filters : SearchFilters)
  : list Row :=
  if negb (isEnabled db) then []
  else
    match executeQuery db (fst (searchStatement filters))
                       (snd (searchStatement filters)) with
    | Ok rows => rows
    | Throw _ => []
    end.

(** A line break and the indentation of the template literals. *)
Definition line (indent : nat) : string :=
  String "010"%char (String.concat EmptyString (repeat " " indent)).

Definition getStatement : string :=
  line 8 ++ "SELECT * FROM legal_judgment_metadata"
  ++ line 8 ++ "WHERE doc_id = $1" ++ line 6.

(** [get]: [result.rows[0] || null], and [null] when the database is not
    enabled or the query throws. *)
Definition get {Row : Type} (db : Database Row) (docId : string) : option Row :=
  if negb (isEnabled db) then None
  else
    match executeQuery db getStatement [PStr docId] with
    | Ok rows => hd_error rows
    | Throw _ => None
    end.

(** [forWorkspace]: [search({ workspace_id, limit: limit || 1000 })] *)
Definition forWorkspace {Row : Type} (db : Database Row) (workspaceId : Z)
    (limit : option Z) : list Row :=
  search db
    (mkSearchFilters (Some workspaceId) None None None None None None None None None
       None None None (Some (orZ limit 1000)) None None None).

(** An argument of [getUniqueValues]: callers pass numbers and strings. *)
Inductive Value : Type :=
| VNum (z : Z)
| VStr (s : string).

Definition allowedFields : list string :=
  [ "court"; "case_type"; "judge"; "jurisdiction"; "bench_type" ].

(** [allowedFields.includes(field)]: a number is no element of a list of
    strings. *)
Definition allowed (field : Value) : option string :=
  match field with
  | VStr s => if Js.arrayIncludes allowedFields s then Some s else None
  | VNum _ => None
  end.

(** [if (workspaceId)] and the value pushed. *)
Definition truthyValue (v : option Value) : option Param :=
  match v with
  | Some (VNum z) => if (z =? 0)%Z then None else Some (PNum z)
  | Some (VStr s) => if String.eqb s EmptyString then None else Some (PStr s)
  | None => None
  end.

(** The text and the bound values of [getUniqueValues] for an allowed
    field. *)
Definition uniqueValuesStatement (field : string) (workspaceId : option Value)
  : string * list Param :=
  let query :=
    line 8 ++ "SELECT DISTINCT " ++ field
    ++ line 8 ++ "FROM legal_judgment_metadata"
    ++ line 8 ++ "WHERE " ++ field ++ " IS NOT NULL" ++ line 6 in
  let (query, params) :=
    match truthyValue workspaceId with
    | Some p => (query ++ " AND workspace_id = $1", [p])
    | None => (query, [])
    end in
  (query ++ " ORDER BY " ++ field, params).

(** [getUniqueValues(field, workspaceId = null)]; [column row field] is
    [row[field]]. *)
Definition getUniqueValues {Row V : Type} (column : Row -> string -> V)
    (db : Database Row) (field : Value) (workspaceId : option Value) : list V :=
  if negb (isEnabled db) then []
  else
    match allowed field with
    | None => []
    | Some name =>
        match executeQuery db (fst (uniqueValuesStatement name workspaceId))
                           (snd (uniqueValuesStatement name workspaceId)) with
        | Ok rows => map (fun row => column row name) rows
        | Throw _ => []
        end
    end.

End LegalJudgmentMetadata.

(** [HybridSearchManager.getFacets(workspaceId, field)]: the call
    [LegalJudgmentMetadata.getUniqueValues(workspaceId, field)], which
    never throws. *)
Definition getFacets {Row V : Type} (column : Row -> string -> V)
    (db : LegalJudgmentMetadata.Database Row) (workspaceId : Z) (field : string)
  : list V :=
  LegalJudgmentMetadata.getUniqueValues column db
    (LegalJudgmentMetadata.VNum workspaceId)
    (Some (LegalJudgmentMetadata.VStr field)).

(** The object [performMetadataSearch] builds from its arguments, as
    [LegalJudgmentMetadata.search] receives it. *)
Definition searchParamsObject (request : HybridSearchManager.SearchParams)
  : LegalJudgmentMetadata.SearchFilters :=
  let f := HybridSearchManager.params request in
  LegalJudgmentMetadata.mkSearchFilters
    (Some (HybridSearchManager.workspace_id request))
    (Filters.court f) (Filters.year f) None None (Filters.case_type f)
    (Filters.judge f) (Filters.citation f) None None (Filters.jurisdiction f)
    (option_map LegalJudgmentMetadata.KeywordText (Filters.keywords f)) None
    (Some (HybridSearchManager.limit request)) None
    (Filters.bench_type f) (Filters.fulltext f).

(** The stores of the search when the metadata store is this model. *)
Definition legalStores (db : LegalJudgmentMetadata.Database Meta.t)
    (vector : option (string -> option string -> Z
                      -> Result (option (list VectorResult.t))))
  : HybridSearchManager.Stores :=
  HybridSearchManager.mkStores vector
    (fun request => Ok (LegalJudgmentMetadata.search db (searchParamsObject request)))
    (fun docId => Ok (LegalJudgmentMetadata.get db docId)).

(** The placeholders of an SQL text, in order: the numbers after a [$]. *)
Fixpoint placeholders (s : string) : list Z :=
  match s with
  | EmptyString => []
  | String c s' =>
      if Ascii.eqb c "$"%char && match s' with
                            | String d _ => Js.isDigit d
                            | EmptyString => false
                            end
      then Js.digitsValue 0 s' :: placeholders s'
      else placeholders s'
  end.

(** The numbers 1 to [n]. *)
Definition upTo (n : nat) : list Z := map Z.of_nat (seq 1 n).

(** Which conditions a filter object asks for. *)
Definition present (filters : LegalJudgmentMetadata.SearchFilters) : list bool :=
  [ Filters.count (HybridSearchManager.truthyZ (LegalJudgmentMetadata.workspace_id filters)) =? 1;
    Filters.count (Js.truthyStr (LegalJudgmentMetadata.court filters)) =? 1;
    Filters.count (HybridSearchManager.truthyZ (LegalJudgmentMetadata.year filters)) =? 1;
    Filters.count (HybridSearchManager.truthyZ (LegalJudgmentMetadata.year_from filters)) =? 1;
    Filters.count (HybridSearchManager.truthyZ (LegalJudgmentMetadata.year_to filters)) =? 1;
    Filters.count (Js.truthyStr (LegalJudgmentMetadata.case_type filters)) =? 1;
    Filters.count (Js.truthyStr (LegalJudgmentMetadata.judge filters)) =? 1;
    Filters.count (Js.truthyStr (LegalJudgmentMetadata.citation filters)) =? 1;
    Filters.count (Js.truthyStr (LegalJudgmentMetadata.case_id filters)) =? 1;
    Filters.count (Js.truthyStr (LegalJudgmentMetadata.cnr filters)) =? 1;
    Filters.count (Js.truthyStr (LegalJudgmentMetadata.jurisdiction filters)) =? 1;
    match LegalJudgmentMetadata.keywords filters with
    | Some (LegalJudgmentMetadata.KeywordArray (_ :: _)) => true
    | _ => false
    end;
    Filters.count (Js.truthyStr (LegalJudgmentMetadata.text_search filters)) =? 1 ]%nat.

(** A text that can follow a placeholder: it is empty or does not begin
    with a digit. *)
Definition startsClean (s : string) : bool :=
  match s with
  | String c _ => negb (Js.isDigit c)
  | EmptyString => true
  end.

Definition notDollar (c : ascii) : bool := negb (Ascii.eqb c "$"%char).

(** The state of the builder of [search]: [paramCount] is one more than
    the number of values pushed, and the placeholders written so far are 1
    to that number. *)
Definition wellNumbered (k : Z) (b : LegalJudgmentMetadata.Builder) : Prop :=
  LegalJudgmentMetadata.paramCount b
  = (1 + Z.of_nat (List.length (LegalJudgmentMetadata.params b)))%Z
  /\ (LegalJudgmentMetadata.paramCount b <= k)%Z
  /\ placeholders (LegalJudgmentMetadata.query b)
     = upTo (List.length (LegalJudgmentMetadata.params b)).

(** Two builders with the same text and the same counter. *)
Definition sameText (b b' : LegalJudgmentMetadata.Builder) : Prop :=
  LegalJudgmentMetadata.query b = LegalJudgmentMetadata.query b'
  /\ LegalJudgmentMetadata.paramCount b = LegalJudgmentMetadata.paramCount b'.

(** A database that answers every statement with the same two rows. *)
Definition twoCourts : LegalJudgmentMetadata.Database string :=
  LegalJudgmentMetadata.mkDatabase true
    (fun _ _ => Ok ["High Court of Delhi"; "Supreme Court of India"]%string).

(** Two filter objects that ask for the same conditions with different
    values. *)
Definition filtersDelhi : LegalJudgmentMetadata.SearchFilters :=
  LegalJudgmentMetadata.mkSearchFilters (Some 1%Z) (Some "Delhi"%string) (Some 2019%Z)
    None None None None None None None None None None (Some 20%Z) None None None.

Definition filtersQuoted : LegalJudgmentMetadata.SearchFilters :=
  LegalJudgmentMetadata.mkSearchFilters (Some 7%Z) (Some "x' OR 1=1 --"%string)
    (Some 1950%Z) None None None None None None None None None None None
    (Some 40%Z) (Some "Division Bench"%string) (Some "$9"%string).

(** A metadata store that holds nothing. *)
Definition emptyMetadata
    (vector : option (string -> option string -> Z
                      -> Result (option (list VectorResult.t))))
  : HybridSearchManager.Stores :=
  HybridSearchManager.mkStores vector (fun _ => Ok []) (fun _ => Ok None).

(** The database cannot be used: it is not enabled, or every statement
    throws. *)
Definition databaseDown (Row : Type) (db : LegalJudgmentMetadata.Database Row) : Prop :=
  LegalJudgmentMetadata.isEnabled db = false
  \/ forall query params, exists e,
       LegalJudgmentMetadata.poolQuery db query params = Throw e.

(* ================================================================== *)
(** * Vocabulary of the statements, continued *)
(* ================================================================== *)

(** ** Text within ASCII *)

Definition asciiChar (c : ascii) : bool := (Js.code c <? 128)%nat.

(** Every character of the text is an ASCII character.  On such text the
    definitions of [Js] are the JavaScript operations. *)
Definition asciiText (s : string) : bool := allChars asciiChar s.

(** ** Default scores *)

(** The documents given, in the order given, each with the score 0.5. *)
Definition eachHalf {D : Type} (documents : list D) (out : list (Scored D)) : Prop :=
  map (@doc D) out = documents
  /\ Forall (fun s => rerankerScore s = 1#2) out.

(** What the claim says of [x || 0.5]: a score that is missing or exactly 0
    becomes 0.5, every other score stays. *)
Definition zeroToHalf (x : option Q) : Q :=
  match x with
  | Some s => if Qeq_bool s 0 then 1#2 else s
  | None => 1#2
  end.

(** ** Environment variables *)

(** A variable that is not set, or set to the empty string. *)
Definition unset (o : option string) : Prop := o = None \/ o = Some EmptyString.

(** A variable set to a value that is not the empty string. *)
Definition setTo (o : option string) (v : string) : Prop :=
  o = Some v /\ v <> EmptyString.

(** ** Scoring endpoints that answer *)

(** Every endpoint answers with the scores 0 and 0.75, Cohere with 0 for
    document 0 and 0.75 for document 1. *)
Definition netScores : Network :=
  mkNetwork
    (fun _ => Gemini.Text "[0, 0.75]")
    (fun _ => Cohere.Data
                (Some [Cohere.mkEntry (Some 0%nat) (Some 0);
                       Cohere.mkEntry (Some 1%nat) (Some (3#4))]))
    (fun _ => OpenAI.Body (OpenAI.Scores [Finite 0; Finite (3#4)])).

(** The decimal literal of [10^-401], which no double but 0 is nearest to,
    and a generated text that holds it. *)
Definition tinyLiteral : string :=
  ("0." ++ String.concat EmptyString (repeat "0"%string 400) ++ "1")%string.

Definition tinyScores : string := ("[" ++ tinyLiteral ++ ", 0.75]")%string.

(** ** Arguments of [search] *)

(** No query, a workspace, and the filter [{ year: 2019 }]. *)
Definition yearOnly : HybridSearchManager.Params :=
  HybridSearchManager.mkParams None (Some someWorkspace) None
    (Some (Filters.mk (Some 2019%Z) None None None None None None None None))
    None.

(** Reranking enabled, Gemini selected, no general key but a Gemini key,
    [RERANKER_MODEL] set to the empty string and a Gemini model
    preference. *)
Definition envGeminiOwn : Env :=
  mkEnv (Some "Gemini"%string) (Some "true"%string) None (Some EmptyString)
        (Some "gemini-key"%string) (Some "gemini-pro"%string) None.

(** A vector store that answers every search with two hits, the weaker one
    first, and an empty metadata store. *)
Definition storesTwoHits : HybridSearchManager.Stores :=
  HybridSearchManager.mkStores
    (Some (fun _ _ _ =>
             Ok (Some [VectorResult.mk (Some "d1"%string) None (Some (4#10)) None None None None None;
                       VectorResult.mk (Some "d2"%string) None (Some (9#10)) None None None None None])))
    (fun _ => Ok [])
    (fun _ => Ok None).

(** A call [HybridSearchManager.search(argument)].  The parameter is
    destructured in the function head, before the [try] is entered: a call
    without an argument object throws a [TypeError] that no handler of
    [search] sees. *)
Definition searchCall (env : Env) (net : Network) (stores : HybridSearchManager.Stores)
    (service : RerankerService.t) (argument : option HybridSearchManager.Params)
  : Result HybridSearchManager.Output * RerankerService.t :=
  match argument with
  | Some p => HybridSearchManager.search env net stores service p
  | None => (Throw "TypeError: Cannot destructure property 'query' of 'undefined'", service)
  end.
(* ================================================================== *)
(** * Properties *)
(* ================================================================== *)

(** ** Numbers *)

Lemma clamp01_bounds (x : Q) : 0 <= clamp01 x <= 1.
Proof.
  unfold clamp01. split.
  - apply Q.min_glb; [apply Q.le_max_r | lra].
  - apply Q.le_min_r.
Qed.

Lemma clampParsed_bounds (x : parsedFloat) : 0 <= clampParsed x <= 1.
Proof.
  destruct x as [ | [ | ] | q ]; simpl; try lra.
  apply clamp01_bounds.
Qed.

Lemma isZero_true (x : Q) : isZero x = true <-> x == 0.
Proof. unfold isZero. apply Qeq_bool_iff. Qed.

Lemma isZero_false (x : Q) : isZero x = false <-> ~ x == 0.
Proof.
  rewrite <- isZero_true. destruct (isZero x); split; intros; congruence.
Qed.

(** [x || d] is never zero when the default is not. *)
Lemma orQ_nonzero (x : option Q) (d : Q) : ~ d == 0 -> ~ orQ x d == 0.
Proof.
  intros Hd. unfold orQ. destruct x as [q | ]; [ | exact Hd ].
  destruct (isZero q) eqn:E; [ exact Hd | now apply isZero_false ].
Qed.

Lemma orQ_cases (x : option Q) (d : Q) :
  orQ x d = d \/ x = Some (orQ x d).
Proof.
  unfold orQ. destruct x as [q | ]; [ | now left ].
  destruct (isZero q); [ now left | now right ].
Qed.

Lemma orQ_bounds (x : option Q) (d lo hi : Q) :
  lo <= d <= hi ->
  (forall q, x = Some q -> lo <= q <= hi) ->
  lo <= orQ x d <= hi.
Proof.
  intros Hd Hx. destruct (orQ_cases x d) as [E | E].
  - rewrite E. exact Hd.
  - now apply Hx.
Qed.

Lemma half_nonzero : ~ (1#2) == 0.
Proof. intros H. discriminate H. Qed.

(** ** Sorting and slicing *)

Section SortingFacts.
Variable A : Type.
Variable key : A -> Q.

Lemma insertDesc_perm (x : A) (l : list A) :
  Permutation (insertDesc key x l) (x :: l).
Proof.
  induction l as [ | y t IH ]; simpl.
  - apply Permutation_refl.
  - destruct (Qle_bool (key y) (key x)).
    + apply Permutation_refl.
    + apply perm_trans with (y :: x :: t).
      * now apply perm_skip.
      * apply perm_swap.
Qed.

Lemma sortDesc_perm (l : list A) : Permutation (sortDesc key l) l.
Proof.
  induction l as [ | x t IH ]; simpl.
  - apply perm_nil.
  - apply perm_trans with (x :: sortDesc key t).
    + apply insertDesc_perm.
    + now apply perm_skip.
Qed.

Lemma Forall_sortDesc (P : A -> Prop) (l : list A) :
  Forall P l -> Forall P (sortDesc key l).
Proof.
  intros H. apply Forall_forall. intros x Hx.
  rewrite Forall_forall in H. apply H.
  eapply Permutation_in; [ apply sortDesc_perm | exact Hx ].
Qed.

Lemma insertDesc_sorted (x : A) (l : list A) :
  sortedDesc key l -> sortedDesc key (insertDesc key x l).
Proof.
  unfold sortedDesc. induction l as [ | y t IH ]; simpl; intros Hs.
  - constructor; [ constructor | constructor ].
  - destruct (Qle_bool (key y) (key x)) eqn:E.
    + apply Qle_bool_iff in E.
      constructor; [ exact Hs | ].
      constructor; [ exact E | ].
      apply StronglySorted_inv in Hs. destruct Hs as [_ Hall].
      eapply Forall_impl; [ | exact Hall ].
      intros b Hb. simpl in Hb. lra.
    + assert (Hlt : key x < key y).
      { apply Qnot_le_lt. intros Hle. apply Qle_bool_iff in Hle. congruence. }
      apply StronglySorted_inv in Hs. destruct Hs as [Hst Hall].
      constructor; [ now apply IH | ].
      apply Forall_forall. intros b Hb.
      apply (Permutation_in _ (insertDesc_perm x t)) in Hb.
      destruct Hb as [<- | Hb]; [ lra | ].
      rewrite Forall_forall in Hall. now apply Hall.
Qed.

Lemma sortDesc_sorted (l : list A) : sortedDesc key (sortDesc key l).
Proof.
  induction l as [ | x t IH ]; simpl.
  - constructor.
  - now apply insertDesc_sorted.
Qed.

(** Sorting a list that is already in order leaves it as it is. *)
Lemma insertDesc_head (x : A) (l : list A) :
  Forall (fun b => key b <= key x) l -> insertDesc key x l = x :: l.
Proof.
  destruct l as [ | y t ]; simpl; intros H; [ reflexivity | ].
  apply Forall_inv in H. apply Qle_bool_iff in H. now rewrite H.
Qed.

Lemma sortDesc_id (l : list A) : sortedDesc key l -> sortDesc key l = l.
Proof.
  unfold sortedDesc. induction l as [ | x t IH ]; simpl; intros Hs.
  - reflexivity.
  - apply StronglySorted_inv in Hs. destruct Hs as [Hst Hall].
    rewrite IH by exact Hst. now apply insertDesc_head.
Qed.

Lemma sortedDesc_firstn (n : nat) (l : list A) :
  sortedDesc key l -> sortedDesc key (firstn n l).
Proof.
  unfold sortedDesc. revert n. induction l as [ | x t IH ]; intros [ | n ] Hs; simpl;
    try constructor.
  - apply IH. now apply StronglySorted_inv in Hs.
  - apply StronglySorted_inv in Hs. destruct Hs as [_ Hall].
    rewrite Forall_forall in *. intros b Hb. apply Hall.
    revert Hb. clear. revert n. induction t as [ | y t IH ]; intros [ | n ]; simpl; try tauto.
    intros [-> | H]; [ now left | right; eauto ].
Qed.
End SortingFacts.

Lemma sliceTo_prefix (A : Type) (n : Z) (l : list A) :
  exists k, sliceTo n l = firstn k l.
Proof. unfold sliceTo. destruct (n <? 0)%Z; eauto. Qed.

Lemma Forall_firstn (A : Type) (P : A -> Prop) (n : nat) (l : list A) :
  Forall P l -> Forall P (firstn n l).
Proof.
  revert n. induction l as [ | x t IH ]; intros [ | n ] H; simpl; try constructor.
  - now apply Forall_inv in H.
  - apply IH. now apply Forall_inv_tail in H.
Qed.

Lemma Forall_sliceTo (A : Type) (P : A -> Prop) (n : Z) (l : list A) :
  Forall P l -> Forall P (sliceTo n l).
Proof.
  intros H. destruct (sliceTo_prefix n l) as [k ->]. now apply Forall_firstn.
Qed.

(** ** Scoring providers *)

Section ProviderFacts.
Variable D : Type.

Lemma neutral_docs (documents : list D) : map (@doc D) (neutral documents) = documents.
Proof.
  unfold neutral. rewrite map_map. simpl. apply map_id.
Qed.

Lemma neutral_scores (documents : list D) :
  Forall (fun s => rerankerScore s = 1#2) (neutral documents).
Proof.
  unfold neutral. apply Forall_forall. intros s Hs.
  apply in_map_iff in Hs. destruct Hs as [d [<- _]]. reflexivity.
Qed.

Lemma attach_docs (documents : list D) (scores : list Q) (idx : nat) :
  map (@doc D) (attach documents scores idx) = documents.
Proof.
  revert idx. induction documents as [ | d t IH ]; intros idx; simpl.
  - reflexivity.
  - now rewrite IH.
Qed.

Lemma attach_scores (P : Q -> Prop) (documents : list D) (scores : list Q) (idx : nat) :
  (forall x, (x = None \/ exists q, x = Some q /\ In q scores) -> P (orQ x (1#2))) ->
  Forall (fun s => P (rerankerScore s)) (attach documents scores idx).
Proof.
  intros H. revert idx. induction documents as [ | d t IH ]; intros idx; simpl.
  - constructor.
  - constructor; [ | apply IH ].
    simpl. apply H. destruct (nth_error scores idx) as [q | ] eqn:E.
    + right. exists q. split; [ reflexivity | ]. eapply nth_error_In; eassumption.
    + now left.
Qed.

Lemma attachFound_docs (documents : list D) (r : option (list Cohere.Entry)) (idx : nat) :
  map (@doc D) (Cohere.attachFound documents r idx) = documents.
Proof.
  revert idx. induction documents as [ | d t IH ]; intros idx; simpl.
  - reflexivity.
  - now rewrite IH.
Qed.

Lemma attachFound_scores (P : Q -> Prop) (documents : list D)
    (r : option (list Cohere.Entry)) (idx : nat) :
  (forall i, P (orQ (Cohere.scoreAt r i) (1#2))) ->
  Forall (fun s => P (rerankerScore s)) (Cohere.attachFound documents r idx).
Proof.
  intros H. revert idx. induction documents as [ | d t IH ]; intros idx; simpl.
  - constructor.
  - constructor; [ apply H | apply IH ].
Qed.

Lemma scoreAt_In (r : option (list Cohere.Entry)) (i : nat) (s : Q) :
  Cohere.scoreAt r i = Some s ->
  exists l e, r = Some l /\ In e l /\ Cohere.relevance_score e = Some s.
Proof.
  unfold Cohere.scoreAt. destruct r as [l | ]; [ | discriminate ].
  destruct (find _ l) as [e | ] eqn:E; [ | discriminate ].
  intros H. apply find_some in E. exists l, e. tauto.
Qed.

Lemma fillNeutral_In (n : nat) (q : Q) : In q (fillNeutral n) -> q = 1#2.
Proof. unfold fillNeutral. intros H. now apply repeat_spec in H. Qed.

(** The scores [parseScores] returns lie in the unit interval. *)
Lemma openai_parseScores_bounds (c : OpenAI.Content) (n : nat) :
  Forall (fun q => 0 <= q <= 1) (OpenAI.parseScores c n).
Proof.
  assert (Hfill : Forall (fun q => 0 <= q <= 1) (fillNeutral n)).
  { apply Forall_forall. intros q Hq. apply fillNeutral_In in Hq. subst. lra. }
  unfold OpenAI.parseScores. destruct c as [ | | l ]; try exact Hfill.
  destruct (_ =? n)%nat; [ | exact Hfill ].
  apply Forall_forall. intros q Hq. apply in_map_iff in Hq.
  destruct Hq as [x [<- _]]. apply clampParsed_bounds.
Qed.

Lemma gemini_parseScores_bounds (text : string) (n : nat) :
  Forall (fun q => 0 <= q <= 1) (Gemini.parseScores text n).
Proof.
  assert (Hfill : Forall (fun q => 0 <= q <= 1) (fillNeutral n)).
  { apply Forall_forall. intros q Hq. apply fillNeutral_In in Hq. subst. lra. }
  assert (Hmap : forall (X : Type) (f : X -> parsedFloat) (l : list X),
             Forall (fun q => 0 <= q <= 1) (map (fun x => clampParsed (f x)) l)).
  { intros X f l. apply Forall_forall. intros q Hq. apply in_map_iff in Hq.
    destruct Hq as [x [<- _]]. apply clampParsed_bounds. }
  unfold Gemini.parseScores.
  set (fallback := match Js.matchAll false Gemini.numberPattern text with
                   | [] => _ | _ => _ end).
  assert (Hfb : Forall (fun q => 0 <= q <= 1) fallback).
  { subst fallback. destruct (Js.matchAll _ _ _); [ exact Hfill | ].
    destruct (_ <=? _)%nat; [ apply Hmap | exact Hfill ]. }
  destruct (Js.exec _ _ _) as [[i m] | ]; [ | exact Hfb ].
  destruct (_ =? n)%nat; [ | exact Hfb ].
  apply (Hmap _ (fun x => x)).
Qed.

Lemma returnsAll_neutral (documents : list D) (P : Q -> Prop) :
  P (1#2) -> returnsAll (Ok (neutral documents)) documents P.
Proof.
  intros HP. exists (neutral documents). split; [ reflexivity | split ].
  - rewrite neutral_docs. apply Permutation_refl.
  - eapply Forall_impl; [ | apply neutral_scores ].
    intros s Hs. simpl in Hs. now rewrite Hs.
Qed.

Lemma returnsAll_sorted (ranked : list (Scored D)) (documents : list D) (P : Q -> Prop) :
  map (@doc D) ranked = documents ->
  Forall (fun s => P (rerankerScore s)) ranked ->
  returnsAll (Ok (sortDesc (@rerankerScore D) ranked)) documents P.
Proof.
  intros Hd HP. eexists. split; [ reflexivity | split ].
  - rewrite <- Hd. apply Permutation_map, sortDesc_perm.
  - now apply Forall_sortDesc.
Qed.

Lemma openai_rerank_returns (reply : OpenAI.Reply) (documents : list D) :
  returnsAll (OpenAI.rerank reply documents) documents
             (fun q => 0 <= q <= 1 /\ ~ q == 0).
Proof.
  assert (Hhalf : 0 <= 1#2 <= 1 /\ ~ (1#2) == 0) by (split; [ lra | apply half_nonzero ]).
  unfold OpenAI.rerank. destruct documents as [ | d t ].
  - simpl. exists []. repeat split; constructor.
  - destruct reply as [ | st | | c ]; cbn [tryCatch bind OpenAI.request];
      try (apply returnsAll_neutral; exact Hhalf).
    apply returnsAll_sorted; [ apply attach_docs | ].
    apply (attach_scores (fun q => 0 <= q <= 1 /\ ~ q == 0)). intros x Hx. split; [ | apply orQ_nonzero, half_nonzero ].
    apply orQ_bounds; [ lra | ].
    intros q ->. destruct Hx as [Hx | [q' [Hq' Hin]]]; [ discriminate | ].
    injection Hq' as <-.
    pose proof (openai_parseScores_bounds c (List.length (d :: t))) as Hb.
    rewrite Forall_forall in Hb. now apply Hb.
Qed.

Lemma gemini_rerank_returns (reply : Gemini.Reply) (documents : list D) :
  returnsAll (Gemini.rerank reply documents) documents
             (fun q => 0 <= q <= 1 /\ ~ q == 0).
Proof.
  assert (Hhalf : 0 <= 1#2 <= 1 /\ ~ (1#2) == 0) by (split; [ lra | apply half_nonzero ]).
  unfold Gemini.rerank. destruct documents as [ | d t ].
  - simpl. exists []. repeat split; constructor.
  - destruct reply as [ | text ]; cbn [tryCatch bind Gemini.request];
      try (apply returnsAll_neutral; exact Hhalf).
    apply returnsAll_sorted; [ apply attach_docs | ].
    apply (attach_scores (fun q => 0 <= q <= 1 /\ ~ q == 0)). intros x Hx. split; [ | apply orQ_nonzero, half_nonzero ].
    apply orQ_bounds; [ lra | ].
    intros q ->. destruct Hx as [Hx | [q' [Hq' Hin]]]; [ discriminate | ].
    injection Hq' as <-.
    pose proof (gemini_parseScores_bounds text (List.length (d :: t))) as Hb.
    rewrite Forall_forall in Hb. now apply Hb.
Qed.

Lemma cohere_rerank_returns (reply : Cohere.Reply) (documents : list D) :
  returnsAll (Cohere.rerank reply documents) documents (fun q => ~ q == 0).
Proof.
  unfold Cohere.rerank. destruct documents as [ | d t ].
  - simpl. exists []. repeat split; constructor.
  - destruct reply as [ | st | | r ]; cbn [tryCatch bind Cohere.request];
      try (apply returnsAll_neutral; apply half_nonzero).
    apply returnsAll_sorted; [ apply attachFound_docs | ].
    apply (attachFound_scores (fun q => ~ q == 0)). intros i. apply orQ_nonzero, half_nonzero.
Qed.
(** With scores that are not negative in the reply, the Cohere provider
    attaches none that is. *)
Lemma cohere_rerank_nonneg (reply : Cohere.Reply) (documents : list D) :
  (forall l e s, reply = Cohere.Data (Some l) -> In e l ->
                 Cohere.relevance_score e = Some s -> 0 <= s) ->
  returnsAll (Cohere.rerank reply documents) documents (fun q => 0 <= q).
Proof.
  intros Hr. assert (Hhalf : 0 <= 1#2) by lra.
  unfold Cohere.rerank. destruct documents as [ | d t ].
  - simpl. exists []. repeat split; constructor.
  - destruct reply as [ | st | | r ]; cbn [tryCatch bind Cohere.request];
      try (apply returnsAll_neutral; exact Hhalf).
    apply returnsAll_sorted; [ apply attachFound_docs | ].
    apply (attachFound_scores (fun q => 0 <= q)). intros i.
    destruct (orQ_cases (Cohere.scoreAt r i) (1#2)) as [E | E].
    + rewrite E. exact Hhalf.
    + apply scoreAt_In in E. destruct E as [l [e [-> [Hin Hs]]]].
      now apply (Hr l e).
Qed.

(** What a provider returns is in the order of the scores. *)
Lemma neutral_sorted (documents : list D) :
  sortedDesc (@rerankerScore D) (neutral documents).
Proof.
  unfold sortedDesc. induction documents as [ | d t IH ]; simpl; constructor.
  - exact IH.
  - apply Forall_forall. intros s Hs.
    pose proof (neutral_scores t) as Hn. rewrite Forall_forall in Hn.
    rewrite (Hn s Hs). simpl. lra.
Qed.

Lemma openai_rerank_sorted (reply : OpenAI.Reply) (documents : list D) :
  exists out, OpenAI.rerank reply documents = Ok out
              /\ sortedDesc (@rerankerScore D) out.
Proof.
  unfold OpenAI.rerank. destruct documents as [ | d t ].
  - exists []. split; [ reflexivity | constructor ].
  - destruct reply as [ | st | | c ]; cbn [tryCatch bind OpenAI.request];
      eexists; (split; [ reflexivity | ]);
      try apply neutral_sorted; apply sortDesc_sorted.
Qed.

Lemma gemini_rerank_sorted (reply : Gemini.Reply) (documents : list D) :
  exists out, Gemini.rerank reply documents = Ok out
              /\ sortedDesc (@rerankerScore D) out.
Proof.
  unfold Gemini.rerank. destruct documents as [ | d t ].
  - exists []. split; [ reflexivity | constructor ].
  - destruct reply as [ | text ]; cbn [tryCatch bind Gemini.request];
      eexists; (split; [ reflexivity | ]);
      try apply neutral_sorted; apply sortDesc_sorted.
Qed.

Lemma cohere_rerank_sorted (reply : Cohere.Reply) (documents : list D) :
  exists out, Cohere.rerank reply documents = Ok out
              /\ sortedDesc (@rerankerScore D) out.
Proof.
  unfold Cohere.rerank. destruct documents as [ | d t ].
  - exists []. split; [ reflexivity | constructor ].
  - destruct reply as [ | st | | r ]; cbn [tryCatch bind Cohere.request];
      eexists; (split; [ reflexivity | ]);
      try apply neutral_sorted; apply sortDesc_sorted.
Qed.

(** A request that fails, or an answer with no usable scores, gives every
    document the neutral score, in the order the documents came. *)
Lemma attach_fill (documents : list D) (idx n : nat) :
  (idx + List.length documents <= n)%nat ->
  attach documents (fillNeutral n) idx = neutral documents.
Proof.
  revert idx. induction documents as [ | d t IH ]; intros idx H; simpl.
  - reflexivity.
  - simpl in H. rewrite IH by lia. unfold fillNeutral.
    rewrite nth_error_repeat by lia. reflexivity.
Qed.

Lemma sorted_neutral (documents : list D) :
  sortDesc (@rerankerScore D) (neutral documents) = neutral documents.
Proof. apply sortDesc_id, neutral_sorted. Qed.

Lemma openai_failure_neutral (reply : OpenAI.Reply) (documents : list D) :
  match reply with
  | OpenAI.Body (OpenAI.Scores l) =>
      List.length (filter (fun s => negb (isNaN s)) l) <> List.length documents
  | _ => True
  end ->
  OpenAI.rerank reply documents = Ok (neutral documents).
Proof.
  intros H. unfold OpenAI.rerank. destruct documents as [ | d t ]; [ reflexivity | ].
  destruct reply as [ | st | | [ | | l ] ];
    cbn [tryCatch bind OpenAI.request OpenAI.parseScores]; try reflexivity.
  - rewrite attach_fill by (simpl; lia). now rewrite sorted_neutral.
  - rewrite attach_fill by (simpl; lia). now rewrite sorted_neutral.
  - apply Nat.eqb_neq in H. rewrite H.
    rewrite attach_fill by (simpl; lia). now rewrite sorted_neutral.
Qed.

Lemma cohere_failure_neutral (reply : Cohere.Reply) (documents : list D) :
  match reply with
  | Cohere.Data (Some _) => False
  | _ => True
  end ->
  Cohere.rerank reply documents = Ok (neutral documents).
Proof.
  intros H. unfold Cohere.rerank. destruct documents as [ | d t ]; [ reflexivity | ].
  destruct reply as [ | st | | [ l | ] ];
    cbn [tryCatch bind Cohere.request]; try reflexivity; [ contradiction | ].
  f_equal. rewrite <- sorted_neutral. f_equal.
  generalize 0%nat. generalize (d :: t) as docs. clear.
  induction docs as [ | x r IH ]; intros n; simpl; [ reflexivity | now rewrite IH ].
Qed.

Lemma gemini_failure_neutral (reply : Gemini.Reply) (documents : list D) :
  match reply with
  | Gemini.Text text =>
      Js.exec false Gemini.arrayPattern text = None
      /\ Js.matchAll false Gemini.numberPattern text = []
  | Gemini.Rejected => True
  end ->
  Gemini.rerank reply documents = Ok (neutral documents).
Proof.
  intros H. unfold Gemini.rerank. destruct documents as [ | d t ]; [ reflexivity | ].
  destruct reply as [ | text ]; cbn [tryCatch bind Gemini.request]; [ reflexivity | ].
  destruct H as [H1 H2]. unfold Gemini.parseScores. rewrite H1, H2.
  rewrite attach_fill by (simpl; lia). now rewrite sorted_neutral.
Qed.
End ProviderFacts.

(** ** Batching *)

Section BatchFacts.
Variables D Reply : Type.
Variable rerank : Reply -> list D -> Result (list (Scored D)).
Variable replies : nat -> Reply.

Hypothesis rerank_returns :
  forall r l, exists out, rerank r l = Ok out /\ Permutation (map (@doc D) out) l.

Lemma chunksOf_nil (fuel b : nat) : chunksOf fuel b (@nil D) = [].
Proof. destruct fuel; reflexivity. Qed.

Lemma chunksOf_concat (b : nat) (fuel : nat) (l : list D) :
  (0 < b)%nat -> (List.length l <= fuel)%nat -> List.concat (chunksOf fuel b l) = l.
Proof.
  intros Hb. revert l. induction fuel as [ | fuel IH ]; intros l Hl.
  - destruct l; [ reflexivity | simpl in Hl; lia ].
  - destruct l as [ | x t ]; [ reflexivity | ].
    cbn [chunksOf List.concat]. rewrite IH.
    + apply firstn_skipn.
    + rewrite length_skipn.
      change (List.length (x :: t)) with (S (List.length t)) in *. lia.
Qed.

Lemma chunksOf_sizes (b : nat) (fuel : nat) (l : list D) :
  Forall (fun c => (0 < List.length c <= b)%nat) (chunksOf fuel b l) \/ b = 0%nat.
Proof.
  destruct b as [ | b ]; [ now right | left ].
  revert l. induction fuel as [ | fuel IH ]; intros l; cbn [chunksOf].
  - constructor.
  - destruct l as [ | x t ]; constructor.
    + rewrite length_firstn. cbn [List.length]. lia.
    + apply IH.
Qed.

Lemma chunkResults_perm (k : nat) (cs : list (list D)) :
  Permutation (map (@doc D) (chunkResults rerank replies k cs)) (List.concat cs).
Proof.
  revert k. induction cs as [ | c rest IH ]; intros k; simpl.
  - apply perm_nil.
  - destruct (rerank_returns (replies k) c) as [out [-> Hp]].
    rewrite map_app. apply Permutation_app; [ exact Hp | apply IH ].
Qed.

Lemma slice_chunk (i b : nat) (l : list D) :
  slice i (i + b) l = firstn b (skipn i l).
Proof. unfold slice. now replace (i + b - i)%nat with b by lia. Qed.

Lemma skipn_skipn (i b : nat) (l : list D) :
  skipn b (skipn i l) = skipn (i + b) l.
Proof.
  revert l. induction i as [ | i IH ]; intros l; simpl.
  - reflexivity.
  - destruct l as [ | x t ]; [ now rewrite skipn_nil | apply IH ].
Qed.

Lemma chunksOf_empty_iff (fuel b : nat) (l : list D) :
  (List.length l <= fuel)%nat -> (chunksOf fuel b l = [] <-> l = []).
Proof.
  intros Hl. destruct fuel as [ | fuel ]; destruct l as [ | x t ]; simpl in *;
    split; intros; try reflexivity; try discriminate; lia.
Qed.

(** The loop from index [i]: it ends, and its state is the one at [i]
    extended by the chunks of what is left. *)
Lemma batchLoop_chunks (b : nat) (documents : list D) :
  (0 < b)%nat ->
  forall fuel i st,
    (List.length documents - i <= fuel)%nat ->
    batchLoop rerank replies b documents fuel i st =
    Some (Ok (mkBatch
                (results st ++ chunkResults rerank replies (calls st) (chunksOf fuel b (skipn i documents)))
                (calls st + List.length (chunksOf fuel b (skipn i documents)))
                (events st ++ chunkEvents (chunksOf fuel b (skipn i documents))))).
Proof.
  intros Hb. induction fuel as [ | fuel IH ]; intros i st Hf.
  - simpl. assert (E : (i <? List.length documents)%nat = false)
      by (apply Nat.ltb_ge; lia).
    rewrite E, !app_nil_r, Nat.add_0_r. now destruct st.
  - cbn [batchLoop].
    destruct (i <? List.length documents)%nat eqn:E.
    + apply Nat.ltb_lt in E.
      destruct (skipn i documents) as [ | x t ] eqn:Es.
      { apply (f_equal (@List.length D)) in Es. rewrite length_skipn in Es.
        simpl in Es. lia. }
      rewrite slice_chunk, Es.
      cbn [chunksOf chunkResults chunkEvents].
      destruct (rerank_returns (replies (calls st)) (firstn b (x :: t))) as [out [Eo _]].
      rewrite Eo.
      rewrite IH by lia. cbn [results calls events].
      rewrite <- Es, skipn_skipn.
      set (rest := chunksOf fuel b (skipn (i + b) documents)).
      assert (Hrest : rest = [] <-> skipn (i + b) documents = []).
      { apply chunksOf_empty_iff. rewrite length_skipn. lia. }
      f_equal. f_equal. f_equal.
      * now rewrite <- app_assoc.
      * simpl. lia.
      * destruct (i + b <? List.length documents)%nat eqn:E2.
        -- apply Nat.ltb_lt in E2.
           destruct rest as [ | c cs ] eqn:Er.
           { destruct Hrest as [Hrest _]. specialize (Hrest eq_refl).
             apply (f_equal (@List.length D)) in Hrest.
             rewrite length_skipn in Hrest. simpl in Hrest. lia. }
           rewrite <- !app_assoc. reflexivity.
        -- apply Nat.ltb_ge in E2.
           assert (Hn : rest = []).
           { apply Hrest. apply length_zero_iff_nil. rewrite length_skipn. lia. }
           rewrite Hn. simpl. rewrite app_nil_r. reflexivity.
    + apply Nat.ltb_ge in E.
      assert (Es : skipn i documents = []).
      { apply length_zero_iff_nil. rewrite length_skipn. lia. }
      rewrite Es, chunksOf_nil. simpl. rewrite !app_nil_r, Nat.add_0_r. now destruct st.
Qed.

(** A whole run with a positive batch size. *)
Lemma rerankBatchWith_chunks (b : nat) (documents : list D) :
  (0 < b)%nat ->
  rerankBatchWith rerank replies b documents (List.length documents) =
  Some (Ok (mkBatch (chunkResults rerank replies 0 (chunks b documents))
                    (List.length (chunks b documents))
                    (chunkEvents (chunks b documents)))).
Proof.
  intros Hb. unfold rerankBatchWith.
  rewrite batchLoop_chunks by (try exact Hb; lia). reflexivity.
Qed.
End BatchFacts.

(** The three providers return for every reply. *)
Lemma openai_total (D : Type) (r : OpenAI.Reply) (l : list D) :
  exists out, OpenAI.rerank r l = Ok out /\ Permutation (map (@doc D) out) l.
Proof.
  destruct (openai_rerank_returns r l) as [out [E [P _]]]. now exists out.
Qed.

Lemma gemini_total (D : Type) (r : Gemini.Reply) (l : list D) :
  exists out, Gemini.rerank r l = Ok out /\ Permutation (map (@doc D) out) l.
Proof.
  destruct (gemini_rerank_returns r l) as [out [E [P _]]]. now exists out.
Qed.

Lemma cohere_total (D : Type) (r : Cohere.Reply) (l : list D) :
  exists out, Cohere.rerank r l = Ok out /\ Permutation (map (@doc D) out) l.
Proof.
  destruct (cohere_rerank_returns r l) as [out [E [P _]]]. now exists out.
Qed.

(** C5, at the input where the code leaves the contract: the Cohere
    provider attaches the endpoint's [relevance_score] as it comes.  For a
    single document and the answer [{ results: [{ index: 0,
    relevance_score: 1.5 }] }] the attached score is 1.5, outside the unit
    interval, whereas the OpenAI and Gemini providers clamp every parsed
    score ([openai_rerank_returns], [gemini_rerank_returns]). *)
Theorem cohere_score_not_clamped :
  Cohere.rerank (Cohere.Data (Some [Cohere.mkEntry (Some 0%nat) (Some (3#2))]))
                ["d"%string]
  = Ok [mkScored "d"%string (3#2)]
  /\ ~ (3#2 <= 1).
Proof.
  split; [ reflexivity | ].
  intros H. apply Qle_bool_iff in H. discriminate H.
Qed.

(** C8, as stated, fails: with the default batch size the OpenAI provider
    returns the two documents of a single chunk in the order of their
    scores, not in the order they were given. *)
Lemma rerankBatch_reorders :
  exists st,
    OpenAI.rerankBatch
      (fun _ => OpenAI.Body (OpenAI.Scores [Finite (2#10); Finite (9#10)]))
      ["d1"%string; "d2"%string] None 2
    = Some (Ok st)
    /\ map (@doc string) (results st) = ["d2"%string; "d1"%string]
    /\ map (@doc string) (results st) <> ["d1"%string; "d2"%string].
Proof.
  eexists. split; [ reflexivity | ]. split; [ reflexivity | ].
  simpl. intros H. discriminate H.
Qed.

(** C8 (amended): for each provider and every document list, [rerankBatch]
    with its default batch size (10 for OpenAI and Gemini, 100 for Cohere)
    ends within one iteration per document, sends one request per chunk of
    consecutive documents with a pause of 100 ms between two requests, and
    returns the answers chunk by chunk in chunk order.  The chunks
    concatenate to the document list and hold between 1 and the batch size
    documents; the result is a permutation of the documents; inside a chunk
    they come in the order [rerank] gives them, which is non-increasing by
    [rerankerScore]. *)
Theorem rerankBatch_by_chunks :
  forall (D : Type) (net : Network) (documents : list D),
    let n := List.length documents in
    (OpenAI.rerankBatch (openaiReplies net) documents None n =
       Some (Ok (mkBatch
                   (chunkResults OpenAI.rerank (openaiReplies net) 0 (chunks 10 documents))
                   (List.length (chunks 10 documents))
                   (chunkEvents (chunks 10 documents))))
     /\ Permutation
          (map (@doc D)
               (chunkResults OpenAI.rerank (openaiReplies net) 0 (chunks 10 documents)))
          documents)
    /\ (Gemini.rerankBatch (geminiReplies net) documents None n =
          Some (Ok (mkBatch
                      (chunkResults Gemini.rerank (geminiReplies net) 0 (chunks 10 documents))
                      (List.length (chunks 10 documents))
                      (chunkEvents (chunks 10 documents))))
        /\ Permutation
             (map (@doc D)
                  (chunkResults Gemini.rerank (geminiReplies net) 0 (chunks 10 documents)))
             documents)
    /\ (Cohere.rerankBatch (cohereReplies net) documents None n =
          Some (Ok (mkBatch
                      (chunkResults Cohere.rerank (cohereReplies net) 0 (chunks 100 documents))
                      (List.length (chunks 100 documents))
                      (chunkEvents (chunks 100 documents))))
        /\ Permutation
             (map (@doc D)
                  (chunkResults Cohere.rerank (cohereReplies net) 0 (chunks 100 documents)))
             documents)
    /\ (List.concat (chunks 10 documents) = documents
        /\ Forall (fun c => (0 < List.length c <= 10)%nat) (chunks 10 documents))
    /\ (List.concat (chunks 100 documents) = documents
        /\ Forall (fun c => (0 < List.length c <= 100)%nat) (chunks 100 documents))
    /\ (forall (chunk : list D) oReply gReply cReply,
          (exists out, OpenAI.rerank oReply chunk = Ok out
                       /\ sortedDesc (@rerankerScore D) out)
          /\ (exists out, Gemini.rerank gReply chunk = Ok out
                          /\ sortedDesc (@rerankerScore D) out)
          /\ (exists out, Cohere.rerank cReply chunk = Ok out
                          /\ sortedDesc (@rerankerScore D) out)).
Proof.
  intros D net documents n.
  assert (Hc : forall b, (0 < b)%nat ->
             List.concat (chunks b documents) = documents
             /\ Forall (fun c => (0 < List.length c <= b)%nat) (chunks b documents)).
  { intros b Hb. split.
    - apply chunksOf_concat; [ exact Hb | apply Nat.le_refl ].
    - destruct (chunksOf_sizes b (List.length documents) documents) as [H | H];
        [ exact H | lia ]. }
  assert (Hp : forall (Reply : Type) (rr : Reply -> list D -> Result (list (Scored D)))
                 (replies : nat -> Reply) (b : nat),
             (forall r l, exists out, rr r l = Ok out /\ Permutation (map (@doc D) out) l) ->
             (0 < b)%nat ->
             Permutation (map (@doc D) (chunkResults rr replies 0 (chunks b documents)))
                         documents).
  { intros Reply rr replies b Hrr Hb.
    eapply perm_trans; [ apply chunkResults_perm; exact Hrr | ].
    destruct (Hc b Hb) as [-> _]. apply Permutation_refl. }
  split; [ split | split; [ split | split; [ split | split; [ | split ] ] ] ].
  - apply rerankBatchWith_chunks; [ apply openai_total | unfold OpenAI.defaultBatchSize; lia ].
  - apply Hp; [ apply openai_total | lia ].
  - apply rerankBatchWith_chunks; [ apply gemini_total | unfold Gemini.defaultBatchSize; lia ].
  - apply Hp; [ apply gemini_total | lia ].
  - apply rerankBatchWith_chunks; [ apply cohere_total | unfold Cohere.defaultBatchSize; lia ].
  - apply Hp; [ apply cohere_total | lia ].
  - apply Hc; lia.
  - apply Hc; lia.
  - intros chunk oReply gReply cReply. split; [ | split ].
    + apply openai_rerank_sorted.
    + apply gemini_rerank_sorted.
    + apply cohere_rerank_sorted.
Qed.

(** ** RerankerService *)

Lemma enabled_true (env : Env) :
  RerankerService.enabled env = true <-> RERANKER_ENABLED env = Some "true"%string.
Proof.
  unfold RerankerService.enabled. destruct (RERANKER_ENABLED env) as [s | ].
  - rewrite String.eqb_eq. split; congruence.
  - split; discriminate.
Qed.

Lemma orStr_none (a b : option string) :
  Js.truthyStr a = None -> Js.truthyStr b = None -> Js.truthyStr (orStr a b) = None.
Proof. unfold orStr. intros -> Hb. exact Hb. Qed.

(** The selector decides the [case]: one of the three names, or [default]. *)
Lemma selectProvider_default (env : Env) (current : option Provider) (selector : option string) :
  (forall s, selector = Some s ->
     s <> "gemini"%string /\ s <> "cohere"%string /\ s <> "openai"%string) ->
  RerankerService.selectProvider env current selector = Ok current.
Proof.
  intros H. destruct selector as [s | ]; [ | reflexivity ].
  destruct (H s eq_refl) as [Hg [Hc Ho]].
  unfold RerankerService.selectProvider.
  repeat match goal with
         | |- context [match ?x with _ => _ end] =>
             is_var x; destruct x; try reflexivity; try congruence
         end.
Qed.

Lemma initialize_unusable (env : Env) :
  Unusable env ->
  RerankerService.initialize env RerankerService.fresh = RerankerService.mk None true.
Proof.
  intros H. unfold RerankerService.initialize. cbn [RerankerService.initialized RerankerService.fresh
    RerankerService.provider].
  destruct (RerankerService.enabled env) eqn:En; [ | reflexivity ].
  cbn [negb]. destruct H as [Hd | Hu | name Hn Hk].
  - apply enabled_true in En. contradiction.
  - rewrite selectProvider_default; [ reflexivity | ].
    intros s Hs. destruct (RERANKER_PROVIDER env) as [name | ]; [ | discriminate ].
    injection Hs as <-. now apply Hu.
  - rewrite Hn. cbn [option_map].
    destruct Hk as [[-> [K1 K2]] | [[-> K1] | [-> [K1 K2]]]];
      cbn [RerankerService.selectProvider].
    + now rewrite (orStr_none _ _ K1 K2).
    + now rewrite K1.
    + now rewrite (orStr_none _ _ K1 K2).
Qed.

(** ** The fusion pipeline *)

Section PipelineFacts.
Variable P : Doc.t -> Prop.
Hypothesis P_setCombinedScore : forall d c, P d -> P (Doc.setCombinedScore c d).

Lemma diversify_Forall (dF : Q) (seenTitles seenCourts : list string) (l : list Doc.t) :
  Forall P l -> Forall P (HybridReranker.diversify dF seenTitles seenCourts l).
Proof.
  revert seenTitles seenCourts. induction l as [ | d t IH ]; intros st sc H; simpl.
  - constructor.
  - constructor.
    + apply P_setCombinedScore. now apply Forall_inv in H.
    + apply IH. now apply Forall_inv_tail in H.
Qed.

Lemma applyDiversity_Forall (dF : Q) (l : list Doc.t) :
  Forall P l -> Forall P (HybridReranker.applyDiversity l dF).
Proof.
  intros H. unfold HybridReranker.applyDiversity.
  destruct (_ || _); [ exact H | ].
  apply Forall_sortDesc. now apply diversify_Forall.
Qed.

Lemma rerank_Forall env net service vr mr q opts :
  Forall P (fst (HybridReranker.scoredResults env net service vr mr q opts)) ->
  Forall P (fst (HybridReranker.rerank env net service vr mr q opts)).
Proof.
  unfold HybridReranker.rerank.
  destruct (HybridReranker.scoredResults env net service vr mr q opts) as [scored svc].
  cbn [fst]. intros H. apply Forall_sliceTo. now apply applyDiversity_Forall.
Qed.
End PipelineFacts.

(** Every scored document is [scoreDoc] of an entry of the merged map, with
    the scores the hosted step stored. *)
Lemma scoredResults_Forall (P : Doc.t -> Prop) env net service vr mr q opts :
  (forall k d,
     In (k, d) (HybridReranker.merge vr mr (HybridReranker.orElse q EmptyString)) ->
     P (HybridReranker.scoreDoc
          (HybridReranker.orElse (HybridReranker.semanticWeight opts) (7#10))
          (HybridReranker.orElse (HybridReranker.rerankerWeight opts) (2#10))
          (HybridReranker.orElse (HybridReranker.metadataWeight opts) (1#10))
          (HybridReranker.orElse (HybridReranker.diversityFactor opts) (1#10))
          (fst (HybridReranker.hostedScores env net service
                  (HybridReranker.orElse (HybridReranker.useHostedReranker opts) true)
                  (HybridReranker.merge vr mr (HybridReranker.orElse q EmptyString))))
          (List.length mr) (List.length vr) k d)) ->
  Forall P (fst (HybridReranker.scoredResults env net service vr mr q opts)).
Proof.
  intros H. unfold HybridReranker.scoredResults.
  destruct (HybridReranker.hostedScores _ _ _ _ _) as [scores svc] eqn:E.
  cbn [fst] in *. apply Forall_sortDesc. apply Forall_forall.
  intros x Hx. apply in_map_iff in Hx. destruct Hx as [[k d] [<- Hin]].
  cbn [fst snd]. now apply H.
Qed.

Lemma scoreDoc_hosted (sW rW mW dF : Q) (scores : Map.t Q) (mc vc : nat)
    (k : string) (d : Doc.t) :
  Doc.hostedRerankerScore (HybridReranker.scoreDoc sW rW mW dF scores mc vc k d)
  = Some (orQ (Map.get scores k) (1#2)).
Proof. reflexivity. Qed.

(** C6: when reranking is disabled, the provider name is unknown, or the
    key of the selected provider is missing, initialization leaves the
    provider unset and [isAvailable()] is false; from then on, whatever the
    environment later holds, [rerank] and [rerankBatch] return the
    documents given, in the order given, each with [rerankerScore] exactly
    0.5, and leave the service as it is (so the same holds for every later
    call); a first call on the fresh service does the same; and fusion gives
    every candidate the hosted reranker score 0.5. *)
Theorem unusable_service_is_neutral :
  forall env : Env,
    Unusable env ->
    let svc := RerankerService.initialize env RerankerService.fresh in
    RerankerService.provider svc = None
    /\ fst (RerankerService.isAvailable env RerankerService.fresh) = false
    /\ (forall (D : Type) env' net (documents : list D) batchSize fuel,
          (exists out,
              RerankerService.rerank env' net svc documents = (Ok out, svc)
              /\ eachHalf documents out)
          /\ (exists out,
                 RerankerService.rerankBatch env' net svc documents batchSize fuel
                 = (Some (Ok out), svc)
                 /\ eachHalf documents out)
          /\ (exists out,
                 fst (RerankerService.rerank env net RerankerService.fresh documents)
                 = Ok out
                 /\ eachHalf documents out)
          /\ (exists out,
                 fst (RerankerService.rerankBatch env net RerankerService.fresh
                        documents batchSize fuel)
                 = Some (Ok out)
                 /\ eachHalf documents out))
    /\ (forall net vr mr q opts,
          Forall (fun d => Doc.hostedRerankerScore d = Some (1#2))
                 (fst (HybridReranker.rerank env net RerankerService.fresh vr mr q opts))).
Proof.
  intros env H svc. subst svc. pose proof (initialize_unusable H) as Hi.
  rewrite Hi.
  assert (He : RerankerService.ensure env RerankerService.fresh = RerankerService.mk None true).
  { unfold RerankerService.ensure. cbn [RerankerService.initialized RerankerService.fresh].
    exact Hi. }
  assert (Hn : forall (D : Type) (documents : list D),
             eachHalf documents (neutral documents)).
  { intros D documents. split; [ apply neutral_docs | apply neutral_scores ]. }
  split; [ reflexivity | ]. split.
  { unfold RerankerService.isAvailable. now rewrite He. }
  split.
  - intros D env' net documents batchSize fuel.
    split; [ | split; [ | split ] ]; exists (neutral documents);
      (split; [ | apply Hn ]).
    + reflexivity.
    + reflexivity.
    + unfold RerankerService.rerank. now rewrite He.
    + unfold RerankerService.rerankBatch. now rewrite He.
  - intros net vr mr q opts.
    apply rerank_Forall; [ intros d c Hd; exact Hd | ].
    apply scoredResults_Forall. intros k d _.
    rewrite scoreDoc_hosted.
    replace (fst (HybridReranker.hostedScores _ _ _ _ _)) with (@nil (string * Q));
      [ reflexivity | ].
    unfold HybridReranker.hostedScores.
    destruct (HybridReranker.orElse _ true); [ | reflexivity ].
    unfold RerankerService.isAvailable. rewrite He. reflexivity.
Qed.

(** The claim at a configuration that is enabled and selects Cohere
    without a key: no provider, two documents come back as they were given
    with the score 0.5, although the scoring endpoint would have answered,
    and the one candidate of a fusion carries the hosted score 0.5. *)
Lemma unusable_service_is_neutral_witness :
  Unusable envCohereNoKey
  /\ RerankerService.provider
       (RerankerService.initialize envCohereNoKey RerankerService.fresh) = None
  /\ fst (RerankerService.isAvailable envCohereNoKey RerankerService.fresh) = false
  /\ (exists out,
        fst (RerankerService.rerank envCohereNoKey netScores RerankerService.fresh
               ["a"; "b"]%string)
        = Ok out
        /\ map (@doc string) out = ["a"; "b"]%string
        /\ Forall (fun s => rerankerScore s = 1#2) out)
  /\ (exists d,
        fst (HybridReranker.rerank envCohereNoKey netScores RerankerService.fresh
               [hybridHit] [hybridRow] (Some "X"%string) HybridReranker.noOptions)
        = [d]
        /\ Doc.hostedRerankerScore d = Some (1#2)).
Proof.
  assert (H : Unusable envCohereNoKey).
  { apply MissingKey with (name := "Cohere"%string); [ reflexivity | ].
    right. left. split; reflexivity. }
  split; [ exact H | ].
  pose proof (unusable_service_is_neutral H) as T.
  split; [ exact (proj1 T) | ]. split; [ exact (proj1 (proj2 T)) | ].
  split.
  - destruct (proj1 (proj2 (proj2 T)) string envCohereNoKey netScores
                ["a"; "b"]%string None 0%nat) as (_ & _ & Hf & _).
    exact Hf.
  - eexists. split; [ reflexivity | ].
    exact (@Forall_inv _ _ _ []
             (proj2 (proj2 (proj2 T)) netScores [hybridHit] [hybridRow]
                (Some "X"%string) HybridReranker.noOptions)).
Defined.

(** ** The map of documents *)

Section MapFacts.
Variable V : Type.

Lemma get_set_same (m : Map.t V) (k : string) (v : V) :
  Map.get (Map.set m k v) k = Some v.
Proof.
  induction m as [ | [k' v'] r IH ]; simpl.
  - now rewrite String.eqb_refl.
  - destruct (String.eqb k' k) eqn:E; simpl.
    + now rewrite String.eqb_refl.
    + now rewrite E.
Qed.

Lemma get_set_other (m : Map.t V) (k k' : string) (v : V) :
  k' <> k -> Map.get (Map.set m k v) k' = Map.get m k'.
Proof.
  intros Hne. induction m as [ | [k0 v0] r IH ]; simpl.
  - destruct (String.eqb k k') eqn:E; [ | reflexivity ].
    apply String.eqb_eq in E. congruence.
  - destruct (String.eqb k0 k) eqn:E; simpl.
    + apply String.eqb_eq in E. subst k0.
      destruct (String.eqb k k') eqn:E'; [ | reflexivity ].
      apply String.eqb_eq in E'. congruence.
    + now rewrite IH.
Qed.

Lemma In_keys_get (m : Map.t V) (k : string) :
  In k (Map.keys m) <-> exists v, Map.get m k = Some v.
Proof.
  unfold Map.keys. induction m as [ | [k' v'] r IH ]; simpl.
  - split; [ tauto | intros [v H]; discriminate ].
  - destruct (String.eqb k' k) eqn:E.
    + apply String.eqb_eq in E. split; [ eauto | now left ].
    + apply String.eqb_neq in E. rewrite <- IH. tauto.
Qed.

Lemma In_keys_set (m : Map.t V) (k k' : string) (v : V) :
  In k' (Map.keys (Map.set m k v)) <-> k' = k \/ In k' (Map.keys m).
Proof.
  rewrite !In_keys_get. destruct (string_dec k' k) as [-> | Hne].
  - rewrite get_set_same. split; eauto.
  - rewrite get_set_other by exact Hne. tauto.
Qed.

Lemma NoDup_keys_set (m : Map.t V) (k : string) (v : V) :
  NoDup (Map.keys m) -> NoDup (Map.keys (Map.set m k v)).
Proof.
  unfold Map.keys. induction m as [ | [k' v'] r IH ]; simpl; intros H.
  - constructor; [ tauto | constructor ].
  - destruct (String.eqb k' k) eqn:E; simpl.
    + apply String.eqb_eq in E. now subst k'.
    + apply String.eqb_neq in E. inversion H as [ | ? ? Hn Hr ]; subst.
      constructor; [ | now apply IH ].
      intros Hin. apply (In_keys_set r k k' v) in Hin. tauto.
Qed.

End MapFacts.

(** ** Merging the two candidate lists *)

Lemma idIs_true (k : string) (o : option string) : idIs k o = true <-> o = Some k.
Proof.
  destruct o as [s | ]; simpl.
  - rewrite String.eqb_eq. split; congruence.
  - split; discriminate.
Qed.

Lemma idIs_false (k : string) (o : option string) : idIs k o = false <-> o <> Some k.
Proof.
  rewrite <- idIs_true. destruct (idIs k o); split; congruence.
Qed.

Lemma lastVector_In (k : string) (vr : list VectorResult.t) (r : VectorResult.t) :
  lastVector k vr = Some r -> In r vr /\ HybridReranker.vectorDocId r = Some k.
Proof.
  induction vr as [ | x t IH ]; simpl; [ discriminate | ].
  destruct (lastVector k t) as [y | ].
  - intros H. injection H as ->. destruct (IH eq_refl). tauto.
  - destruct (idIs k (HybridReranker.vectorDocId x)) eqn:E; [ | discriminate ].
    intros H. injection H as ->. apply idIs_true in E. tauto.
Qed.

Lemma lastVector_None (k : string) (vr : list VectorResult.t) :
  lastVector k vr = None <->
  (forall r, In r vr -> HybridReranker.vectorDocId r <> Some k).
Proof.
  induction vr as [ | x t IH ]; simpl.
  - split; [ intros _ r [] | reflexivity ].
  - destruct (lastVector k t) as [y | ].
    + split; [ discriminate | ]. intros H. exfalso.
      assert (Hn : Some y = None); [ | discriminate ].
      apply IH. intros r Hr. apply H. now right.
    + destruct (idIs k (HybridReranker.vectorDocId x)) eqn:E.
      * apply idIs_true in E. split; [ discriminate | ].
        intros H. exfalso. now apply (H x); [ left | ].
      * apply idIs_false in E. split; [ | reflexivity ].
        intros _ r [<- | Hr]; [ exact E | ]. now apply IH.
Qed.

Lemma countMeta_zero (k : string) (mr : list Meta.t) :
  countMeta k mr = 0%nat <->
  (forall r, In r mr -> HybridReranker.metadataDocId r <> Some k).
Proof.
  unfold countMeta. induction mr as [ | x t IH ]; simpl.
  - split; [ intros _ r [] | reflexivity ].
  - destruct (idIs k (HybridReranker.metadataDocId x)) eqn:E; simpl.
    + apply idIs_true in E. split; [ discriminate | ].
      intros H. exfalso. now apply (H x); [ left | ].
    + apply idIs_false in E. rewrite IH. split.
      * intros H r [<- | Hr]; [ exact E | now apply H ].
      * intros H r Hr. apply H. now right.
Qed.

(** The map after the loop over the vector hits. *)
Lemma vector_fold_get (vr : list VectorResult.t) (m0 : Map.t Doc.t) (k : string) :
  Map.get (fold_left HybridReranker.addVector vr m0) k =
  match lastVector k vr with
  | Some r => Some (HybridReranker.vectorDoc k r)
  | None => Map.get m0 k
  end.
Proof.
  revert m0. induction vr as [ | x t IH ]; intros m0; simpl; [ reflexivity | ].
  rewrite IH. destruct (lastVector k t) as [y | ]; [ reflexivity | ].
  unfold HybridReranker.addVector.
  destruct (HybridReranker.vectorDocId x) as [kx | ] eqn:Ex; simpl; [ | reflexivity ].
  destruct (String.eqb kx k) eqn:E.
  - apply String.eqb_eq in E. subst kx. apply get_set_same.
  - apply String.eqb_neq in E. apply get_set_other. congruence.
Qed.

Lemma vector_fold_NoDup (vr : list VectorResult.t) (m0 : Map.t Doc.t) :
  NoDup (Map.keys m0) -> NoDup (Map.keys (fold_left HybridReranker.addVector vr m0)).
Proof.
  revert m0. induction vr as [ | x t IH ]; intros m0 H; simpl; [ exact H | ].
  apply IH. unfold HybridReranker.addVector.
  destruct (HybridReranker.vectorDocId x); [ now apply NoDup_keys_set | exact H ].
Qed.

Lemma metadata_fold_NoDup (terms : list string) (mr : list Meta.t) (m0 : Map.t Doc.t) :
  NoDup (Map.keys m0) ->
  NoDup (Map.keys (fold_left (HybridReranker.addMetadata terms) mr m0)).
Proof.
  revert m0. induction mr as [ | x t IH ]; intros m0 H; simpl; [ exact H | ].
  apply IH. unfold HybridReranker.addMetadata.
  destruct (HybridReranker.metadataDocId x); [ | exact H ].
  destruct (Map.get m0 s); now apply NoDup_keys_set.
Qed.

(** One step of the loop over the metadata rows, seen from key [k]. *)
Lemma addMetadata_get_other (terms : list string) (m0 : Map.t Doc.t) (x : Meta.t) (k : string) :
  HybridReranker.metadataDocId x <> Some k ->
  Map.get (HybridReranker.addMetadata terms m0 x) k = Map.get m0 k.
Proof.
  intros H. unfold HybridReranker.addMetadata.
  destruct (HybridReranker.metadataDocId x) as [kx | ]; [ | reflexivity ].
  assert (k <> kx) by congruence.
  destruct (Map.get m0 kx); now apply get_set_other.
Qed.

Lemma addMetadata_get_same (terms : list string) (m0 : Map.t Doc.t) (x : Meta.t) (k : string) :
  HybridReranker.metadataDocId x = Some k ->
  Map.get (HybridReranker.addMetadata terms m0 x) k =
  Some (match Map.get m0 k with
        | Some existing =>
            Doc.mergeMetadata (HybridReranker.calculateMetadataRelevance x terms) x existing
        | None =>
            HybridReranker.metadataDoc k (HybridReranker.calculateMetadataRelevance x terms) x
        end).
Proof.
  intros H. unfold HybridReranker.addMetadata. rewrite H.
  destruct (Map.get m0 k); apply get_set_same.
Qed.

(** The map after the loop over the metadata rows, seen from key [k]. *)
Lemma metadata_fold_get (terms : list string) (mr : list Meta.t) (m0 : Map.t Doc.t) (k : string) :
  (countMeta k mr = 0%nat ->
   Map.get (fold_left (HybridReranker.addMetadata terms) mr m0) k = Map.get m0 k)
  /\ ((0 < countMeta k mr)%nat ->
      exists d, Map.get (fold_left (HybridReranker.addMetadata terms) mr m0) k = Some d
        /\ (forall d0, Map.get m0 k = Some d0 ->
              Doc.source d = hybrid /\ Doc.vectorScore d = Doc.vectorScore d0
              /\ Doc.docId d = Doc.docId d0)
        /\ (Map.get m0 k = None ->
              Doc.vectorScore d = 0 /\ Doc.docId d = k
              /\ (countMeta k mr = 1%nat -> Doc.source d = metadata))).
Proof.
  revert m0. induction mr as [ | x t IH ]; intros m0.
  - split; [ reflexivity | ]. unfold countMeta. simpl. lia.
  - cbn [fold_left].
    destruct (IH (HybridReranker.addMetadata terms m0 x)) as [IH0 IH1].
    unfold countMeta in *. cbn [filter].
    destruct (idIs k (HybridReranker.metadataDocId x)) eqn:E.
    + apply idIs_true in E. cbn [List.length].
      split; [ discriminate | intros _ ].
      pose proof (addMetadata_get_same terms m0 x E) as Hs.
      destruct (List.length (filter _ t)) as [ | n ] eqn:En.
      * rewrite IH0 by reflexivity. rewrite Hs. eexists. split; [ reflexivity | ].
        split.
        -- intros d0 ->. repeat split.
        -- intros ->. repeat split.
      * destruct IH1 as [d [Hd [Hsome _]]]; [ lia | ].
        exists d. split; [ exact Hd | ].
        specialize (Hsome _ Hs). destruct Hsome as [S1 [S2 S3]].
        split.
        -- intros d0 E0. rewrite E0 in S2, S3. simpl in S2, S3. tauto.
        -- intros E0. rewrite E0 in S2, S3. simpl in S2, S3.
           repeat split; try assumption. intros Hc. lia.
    + apply idIs_false in E.
      rewrite (addMetadata_get_other terms m0 x E) in IH0, IH1.
      split; [ exact IH0 | exact IH1 ].
Qed.

(** C3, as stated, fails: an identifier that only the metadata list holds,
    but twice, ends as [hybrid]; the second row finds the entry the first
    one made. *)
Lemma duplicate_row_becomes_hybrid :
  exists d,
    Map.get (HybridReranker.merge [] [hybridRow; hybridRow] "q") "d1" = Some d
    /\ Doc.source d = hybrid
    /\ lastVector "d1" [] = None
    /\ Doc.source d <> metadata.
Proof.
  eexists. split; [ reflexivity | ].
  split; [ reflexivity | ]. split; [ reflexivity | ]. simpl. discriminate.
Qed.

(** C3 (amended): after the merge the map holds exactly one candidate per
    identifier, and its identifiers are those of the two lists.  A candidate
    whose identifier is in both lists is [hybrid] and keeps the score of the
    (last) vector hit with that identifier; one that only the vector list
    holds is [vector]; one that only the metadata list holds, once, is
    [metadata] with vector score 0.  In particular the vector hit
    [{ id: "d1", score: 0.9 }] and the row [{ doc_id: "d1", court: "X" }]
    merge into the single candidate "d1", [hybrid], with vector score 0.9. *)
Theorem merge_one_candidate_per_id :
  forall (vr : list VectorResult.t) (mr : list Meta.t) (q : string),
    let m := HybridReranker.merge vr mr q in
    NoDup (Map.keys m)
    /\ (forall k, In k (Map.keys m) <->
          (exists r, In r vr /\ HybridReranker.vectorDocId r = Some k)
          \/ (exists r, In r mr /\ HybridReranker.metadataDocId r = Some k))
    /\ (forall k r,
          lastVector k vr = Some r -> (0 < countMeta k mr)%nat ->
          exists d, Map.get m k = Some d /\ Doc.docId d = k
                    /\ Doc.source d = hybrid
                    /\ Doc.vectorScore d = HybridReranker.baseScore r)
    /\ (forall k r,
          lastVector k vr = Some r -> countMeta k mr = 0%nat ->
          exists d, Map.get m k = Some d /\ Doc.docId d = k
                    /\ Doc.source d = vector
                    /\ Doc.vectorScore d = HybridReranker.baseScore r)
    /\ (forall k,
          lastVector k vr = None -> countMeta k mr = 1%nat ->
          exists d, Map.get m k = Some d /\ Doc.docId d = k
                    /\ Doc.source d = metadata
                    /\ Doc.vectorScore d = 0)
    /\ (exists d, HybridReranker.merge [hybridHit] [hybridRow] q = [("d1"%string, d)]
                  /\ Doc.source d = hybrid /\ Doc.vectorScore d = 9#10).
Proof.
  intros vr mr q m. unfold HybridReranker.merge in m.
  set (terms := HybridReranker.tokenize (Js.toLowerCase q)) in *.
  set (mv := fold_left HybridReranker.addVector vr []) in *.
  assert (Hv : forall k, Map.get mv k =
                 match lastVector k vr with
                 | Some r => Some (HybridReranker.vectorDoc k r)
                 | None => None
                 end).
  { intros k. subst mv. now rewrite vector_fold_get. }
  split.
  { subst m mv. apply metadata_fold_NoDup, vector_fold_NoDup. constructor. }
  split.
  { intros k. rewrite In_keys_get.
    destruct (metadata_fold_get terms mr mv k) as [H0 H1]. fold m in H0, H1.
    split.
    - intros [d Hd].
      destruct (countMeta k mr) as [ | n ] eqn:Ec.
      + left. rewrite H0, Hv in Hd by reflexivity.
        destruct (lastVector k vr) as [r | ] eqn:El; [ | discriminate ].
        exists r. now apply lastVector_In.
      + right. destruct (filter (fun r => idIs k (HybridReranker.metadataDocId r)) mr)
          as [ | r t ] eqn:Ef.
        * unfold countMeta in Ec. rewrite Ef in Ec. discriminate.
        * assert (Hin : In r (filter (fun r => idIs k (HybridReranker.metadataDocId r)) mr))
            by (rewrite Ef; now left).
          apply filter_In in Hin. destruct Hin as [Hin Hid].
          exists r. split; [ exact Hin | now apply idIs_true ].
    - intros [[r [Hin Hid]] | [r [Hin Hid]]].
      + destruct (countMeta k mr) as [ | n ] eqn:Ec.
        * rewrite H0, Hv by reflexivity.
          destruct (lastVector k vr) as [r' | ] eqn:El; [ eauto | ].
          exfalso. rewrite lastVector_None in El. now apply (El r).
        * destruct H1 as [d [Hd _]]; [ lia | eauto ].
      + destruct (countMeta k mr) as [ | n ] eqn:Ec.
        * exfalso. rewrite countMeta_zero in Ec. now apply (Ec r).
        * destruct H1 as [d [Hd _]]; [ lia | eauto ]. }
  split.
  { intros k r Hl Hc.
    destruct (metadata_fold_get terms mr mv k) as [_ H1]. fold m in H1.
    destruct (H1 Hc) as [d [Hd [Hsome _]]].
    exists d. split; [ exact Hd | ].
    specialize (Hv k). rewrite Hl in Hv.
    destruct (Hsome _ Hv) as [S1 [S2 S3]]. simpl in S2, S3. tauto. }
  split.
  { intros k r Hl Hc.
    destruct (metadata_fold_get terms mr mv k) as [H0 _]. fold m in H0.
    specialize (Hv k). rewrite Hl in Hv.
    eexists. split; [ rewrite (H0 Hc); exact Hv | ]. repeat split. }
  split.
  { intros k Hl Hc.
    destruct (metadata_fold_get terms mr mv k) as [_ H1]. fold m in H1.
    destruct H1 as [d [Hd [_ Hnone]]]; [ lia | ].
    specialize (Hv k). rewrite Hl in Hv.
    destruct (Hnone Hv) as [S1 [S2 S3]].
    exists d. repeat split; try assumption. now apply S3. }
  eexists. split; [ reflexivity | ]. split; reflexivity.
Qed.

(** The claim at the two one-element lists of the hybrid scenario. *)
Lemma merge_one_candidate_per_id_witness :
  lastVector "d1" [hybridHit] = Some hybridHit
  /\ (0 < countMeta "d1" [hybridRow])%nat
  /\ exists d,
       Map.get (HybridReranker.merge [hybridHit] [hybridRow] "q") "d1" = Some d
       /\ Doc.docId d = "d1"%string
       /\ Doc.source d = hybrid
       /\ Doc.vectorScore d = HybridReranker.baseScore hybridHit.
Proof.
  assert (H1 : lastVector "d1" [hybridHit] = Some hybridHit) by reflexivity.
  assert (H2 : (0 < countMeta "d1" [hybridRow])%nat) by (vm_compute; lia).
  split; [ exact H1 | ]. split; [ exact H2 | ].
  exact (proj1 (proj2 (proj2 (merge_one_candidate_per_id [hybridHit] [hybridRow] "q")))
           "d1"%string hybridHit H1 H2).
Defined.

(** C1, as stated, fails: the single metadata-only candidate outnumbers the
    empty vector list, so its score is multiplied by [1 - diversityFactor];
    with the weights 0.6, 0.3, 0.1 the combined score is 0.225 and not
    [0.6*0 + 0.3*0.5 + 0.1*metadataScore = 0.25], and with the defaults of
    [rerank] (0.7, 0.2, 0.1) it is 0.18. *)
Lemma metadata_only_not_plain_sum :
  (exists d,
     fst (HybridReranker.rerank envNone netDown RerankerService.fresh
            [] [scenarioRow] (Some scenarioQuery) searchWeights) = [d]
     /\ Doc.combinedScore d == 225 # 1000
     /\ ~ Doc.combinedScore d ==
          (6#10) * 0 + (3#10) * (1#2) + (1#10) * Doc.metadataScore d)
  /\ (exists d,
        fst (HybridReranker.rerank envNone netDown RerankerService.fresh
               [] [scenarioRow] (Some scenarioQuery) HybridReranker.noOptions) = [d]
        /\ Doc.combinedScore d == 18 # 100
        /\ ~ Doc.combinedScore d ==
             (6#10) * 0 + (3#10) * (1#2) + (1#10) * Doc.metadataScore d).
Proof.
  split; eexists; (split; [ vm_compute; reflexivity | ]);
    (split; [ vm_compute; reflexivity | vm_compute; discriminate ]).
Qed.

(** C1 (amended): with no provider configured, an empty vector list, the
    row [scenarioRow], the query "Supreme Court 2024 A v B" and the weights
    0.6, 0.3, 0.1 that [search] passes, fusion returns exactly one
    candidate: [source] is [metadata], [vectorScore] is 0, the hosted
    reranker score is 0.5, [metadataScore] is at least
    [min(0.5 + 0.15 + 0.15, 1)] and at most 1 (it is 1), and
    [combinedScore = (0.6*0 + 0.3*0.5 + 0.1*metadataScore) * (1 - 0.1)]: the
    imbalance penalty applies, the metadata list being longer than the
    vector list.  With the defaults of [rerank] itself the weights are 0.7,
    0.2 and 0.1. *)
Theorem metadata_only_scenario :
  forall (env : Env) (net : Network),
    let service := RerankerService.mk None true in
    (exists d,
       fst (HybridReranker.rerank env net service [] [scenarioRow]
              (Some scenarioQuery) searchWeights) = [d]
       /\ Doc.source d = metadata
       /\ Doc.vectorScore d == 0
       /\ Doc.hostedRerankerScore d = Some (1#2)
       /\ Qmin ((1#2) + (15#100) + (15#100)) 1 <= Doc.metadataScore d
       /\ Doc.metadataScore d == 1
       /\ Doc.combinedScore d ==
            ((6#10) * 0 + (3#10) * (1#2) + (1#10) * Doc.metadataScore d) * (1 - (1#10)))
    /\ (exists d,
          fst (HybridReranker.rerank env net service [] [scenarioRow]
                 (Some scenarioQuery) HybridReranker.noOptions) = [d]
          /\ Doc.source d = metadata
          /\ Doc.combinedScore d ==
               ((7#10) * 0 + (2#10) * (1#2) + (1#10) * Doc.metadataScore d) * (1 - (1#10))).
Proof.
  intros env net service. subst service.
  split; eexists; (split; [ vm_compute; reflexivity | ]);
    repeat split; try (vm_compute; reflexivity); try (vm_compute; discriminate).
Qed.

(** ** Bounds of the combined score *)

Lemma get_set_cases (V : Type) (m : Map.t V) (k k' : string) (v x : V) :
  Map.get (Map.set m k v) k' = Some x -> x = v \/ Map.get m k' = Some x.
Proof.
  destruct (string_dec k' k) as [-> | Hne].
  - rewrite get_set_same. intros H. injection H as <-. now left.
  - rewrite get_set_other by exact Hne. now right.
Qed.

Lemma storeScores_values (P : Q -> Prop) (docs : list (Scored Doc.t)) :
  Forall (fun s => P (orQ (Some (rerankerScore s)) (1#2))) docs ->
  forall k v, Map.get (HybridReranker.storeScores docs) k = Some v -> P v.
Proof.
  unfold HybridReranker.storeScores.
  set (step := fun (rerankerScores : Map.t Q) (scored : Scored Doc.t) => _).
  assert (G : forall (m0 : Map.t Q),
             (forall k v, Map.get m0 k = Some v -> P v) ->
             Forall (fun s => P (orQ (Some (rerankerScore s)) (1#2))) docs ->
             forall k v, Map.get (fold_left step docs m0) k = Some v -> P v).
  { induction docs as [ | d t IH ]; intros m0 Hm Hf k v; simpl.
    - apply Hm.
    - apply IH; [ | now apply Forall_inv_tail in Hf ].
      intros k' v'. subst step. cbn beta.
      destruct (HybridReranker.nonEmpty _); [ | apply Hm ].
      intros Hg. apply get_set_cases in Hg. destruct Hg as [-> | Hg].
      + now apply Forall_inv in Hf.
      + now apply (Hm k'). }
  intros Hf. apply G; [ | exact Hf ]. intros k v H. discriminate H.
Qed.

(** The scores a provider hands to fusion are not negative, as long as the
    Cohere endpoint sends none that is. *)
Lemma providerRerank_nonneg (D : Type) (net : Network) (p : Provider) (documents : list D) :
  cohereNonneg net ->
  returnsAll (RerankerService.providerRerank net p documents) documents (fun q => 0 <= q).
Proof.
  intros Hc.
  assert (W : forall r, returnsAll r documents (fun q => 0 <= q <= 1 /\ ~ q == 0) ->
                        returnsAll r documents (fun q => 0 <= q)).
  { intros r [out [E [Hp Hf]]]. exists out. split; [ exact E | split; [ exact Hp | ] ].
    eapply Forall_impl; [ | exact Hf ]. intros s Hs. apply Hs. }
  destruct p as [key model | key model | key model ]; cbn [RerankerService.providerRerank].
  - apply W, gemini_rerank_returns.
  - apply cohere_rerank_nonneg. intros l e s. apply Hc.
  - apply W, openai_rerank_returns.
Qed.

Lemma hostedScores_nonneg env net service useHosted (documentMap : Map.t Doc.t) :
  cohereNonneg net ->
  forall k v,
    Map.get (fst (HybridReranker.hostedScores env net service useHosted documentMap)) k
    = Some v ->
    0 <= v.
Proof.
  intros Hc k v. unfold HybridReranker.hostedScores.
  destruct useHosted; [ | discriminate ].
  destruct (RerankerService.isAvailable env service) as [[ | ] service1]; [ | discriminate ].
  unfold RerankerService.rerank.
  assert (Hstore : forall out : list (Scored Doc.t),
             Forall (fun s => 0 <= rerankerScore s) out ->
             Map.get (HybridReranker.storeScores out) k = Some v -> 0 <= v).
  { intros out Hf. apply (storeScores_values (fun q => 0 <= q)).
    eapply Forall_impl; [ | exact Hf ]. intros s Hs.
    apply orQ_bounds with (lo := 0) (hi := Qmax 1 (rerankerScore s)).
    - split; [ lra | ]. eapply Qle_trans; [ | apply Q.le_max_l ]. lra.
    - intros q E. injection E as <-. split; [ exact Hs | apply Q.le_max_r ]. }
  destruct (RerankerService.provider _) as [p | ]; cbn [fst].
  - destruct (providerRerank_nonneg p (Map.values documentMap) Hc) as [out [E [_ Hf]]].
    rewrite E. cbn [tryCatch fst]. now apply Hstore.
  - apply Hstore. eapply Forall_impl; [ | apply neutral_scores ].
    intros s Hs. simpl in Hs. rewrite Hs. lra.
Qed.

Lemma scoreDoc_upper (sW rW mW dF : Q) scores mc vc k d :
  Doc.combinedScore (HybridReranker.scoreDoc sW rW mW dF scores mc vc k d) <= 1.
Proof. cbn. apply Q.le_min_r. Qed.

Lemma scoreDoc_lower (sW rW mW dF : Q) scores mc vc k d :
  0 <= sW -> 0 <= rW -> 0 <= mW -> dF <= 1 ->
  (forall v, Map.get scores k = Some v -> 0 <= v) ->
  0 <= Doc.combinedScore (HybridReranker.scoreDoc sW rW mW dF scores mc vc k d).
Proof.
  intros HsW HrW HmW HdF Hs. cbn.
  pose proof (clamp01_bounds (Doc.vectorScore d)) as [Hv _].
  pose proof (clamp01_bounds (Doc.metadataScore d)) as [Hm _].
  assert (Hh : 0 <= orQ (Map.get scores k) (1#2)).
  { destruct (orQ_cases (Map.get scores k) (1#2)) as [E | E].
    - rewrite E. lra.
    - now apply Hs. }
  set (h := orQ (Map.get scores k) (1#2)) in *.
  set (a := clamp01 (Doc.vectorScore d)) in *.
  set (b := clamp01 (Doc.metadataScore d)) in *.
  assert (Hsum : 0 <= a * sW + h * rW + b * mW).
  { pose proof (Qmult_le_0_compat _ _ Hv HsW).
    pose proof (Qmult_le_0_compat _ _ Hh HrW).
    pose proof (Qmult_le_0_compat _ _ Hm HmW). lra. }
  apply Q.min_glb; [ | lra ].
  destruct (_ && _); [ | exact Hsum ].
  apply Qmult_le_0_compat; [ exact Hsum | lra ].
Qed.

Lemma diversityPenalty_nonneg (dF : Q) st sc d :
  0 <= dF -> 0 <= HybridReranker.diversityPenalty dF st sc d.
Proof.
  intros H. unfold HybridReranker.diversityPenalty.
  destruct (_ && _); destruct (_ && _); lra.
Qed.

Lemma diversify_unit (dF : Q) st sc (l : list Doc.t) :
  0 <= dF ->
  Forall (fun d => Doc.combinedScore d <= 1) l ->
  Forall (fun d => 0 <= Doc.combinedScore d <= 1) (HybridReranker.diversify dF st sc l).
Proof.
  intros HdF. revert st sc. induction l as [ | d t IH ]; intros st sc H; simpl.
  - constructor.
  - constructor; [ | apply IH; now apply Forall_inv_tail in H ].
    apply Forall_inv in H. cbn.
    pose proof (diversityPenalty_nonneg st sc d HdF) as Hp.
    split; [ apply Q.le_max_l | ].
    apply Q.max_lub; lra.
Qed.

Lemma applyDiversity_upper (dF : Q) (l : list Doc.t) :
  Forall (fun d => Doc.combinedScore d <= 1) l ->
  Forall (fun d => Doc.combinedScore d <= 1) (HybridReranker.applyDiversity l dF).
Proof.
  intros H. unfold HybridReranker.applyDiversity.
  destruct (Qle_bool dF 0) eqn:E; cbn [orb]; [ exact H | ].
  destruct (_ <=? 1)%nat; [ exact H | ].
  apply Forall_sortDesc.
  assert (HdF : 0 <= dF).
  { apply Qlt_le_weak, Qnot_le_lt. intros Hle. apply Qle_bool_iff in Hle. congruence. }
  eapply Forall_impl; [ | apply (diversify_unit [] [] HdF H) ].
  intros d Hd. apply Hd.
Qed.

Lemma applyDiversity_lower (dF : Q) (l : list Doc.t) :
  Forall (fun d => 0 <= Doc.combinedScore d) l ->
  Forall (fun d => 0 <= Doc.combinedScore d) (HybridReranker.applyDiversity l dF).
Proof.
  intros H. unfold HybridReranker.applyDiversity.
  destruct (_ || _); [ exact H | ].
  apply Forall_sortDesc. clear H.
  generalize (@nil string) at 1. generalize (@nil string).
  induction l as [ | d t IH ]; intros sc st; simpl; constructor.
  - cbn. apply Q.le_max_l.
  - apply IH.
Qed.




(** ** The diversity pass *)

Section DiversityFacts.
Variable dF : Q.

Lemma seenInv_nil : seenInv [] [] [].
Proof. split; reflexivity. Qed.

Lemma seenInv_step (prefix : list Doc.t) (st sc : list string) (d : Doc.t) :
  seenInv prefix st sc ->
  seenInv (prefix ++ [d])
    (if HybridReranker.nonEmpty (HybridReranker.displayTitle d)
     then HybridReranker.normalizeTitle (HybridReranker.displayTitle d) :: st else st)
    (if HybridReranker.nonEmpty (HybridReranker.displayCourt d)
     then HybridReranker.displayCourt d :: sc else sc).
Proof.
  intros [Ht Hc]. split.
  - intros x. rewrite existsb_app. cbn [existsb]. rewrite orb_false_r, <- Ht.
    destruct (HybridReranker.nonEmpty (HybridReranker.displayTitle d)); cbn.
    + apply orb_comm.
    + now rewrite orb_false_r.
  - intros c. rewrite existsb_app. cbn [existsb]. rewrite orb_false_r, <- Hc.
    destruct (HybridReranker.nonEmpty (HybridReranker.displayCourt d)); cbn.
    + apply orb_comm.
    + now rewrite orb_false_r.
Qed.

Lemma firstn_prefix (A : Type) (p l : list A) :
  firstn (List.length p + 0) (p ++ l) = p.
Proof.
  rewrite Nat.add_0_r, firstn_app, Nat.sub_diag, firstn_all. cbn. apply app_nil_r.
Qed.

Lemma diversityPenalty_penaltyAt (prefix rest : list Doc.t) (st sc : list string)
    (d : Doc.t) :
  seenInv prefix st sc ->
  HybridReranker.diversityPenalty dF st sc d ==
  penaltyAt dF (prefix ++ d :: rest) (List.length prefix + 0) d.
Proof.
  intros [Ht Hc]. unfold HybridReranker.diversityPenalty, penaltyAt,
    seenTitleBefore, seenCourtBefore.
  rewrite firstn_prefix, Ht, Hc.
  destruct (_ && _); destruct (_ && _); ring.
Qed.

Lemma floor_compat (c p1 p2 : Q) : p1 == p2 -> Qmax 0 (c - p1) == Qmax 0 (c - p2).
Proof.
  intros H.
  destruct (Q.max_spec 0 (c - p1)) as [[L1 E1] | [L1 E1]];
    destruct (Q.max_spec 0 (c - p2)) as [[L2 E2] | [L2 E2]];
    rewrite E1, E2; lra.
Qed.

(** Each document leaves the loop with its score lowered by the penalty
    of its position, floored at 0, and nothing else changed. *)
Lemma diversify_nth (l prefix : list Doc.t) (st sc : list string) :
  seenInv prefix st sc ->
  forall i pre,
    nth_error l i = Some pre ->
    exists post,
      nth_error (HybridReranker.diversify dF st sc l) i = Some post
      /\ post = Doc.setCombinedScore (Doc.combinedScore post) pre
      /\ Doc.combinedScore post ==
           Qmax 0 (Doc.combinedScore pre
                   - penaltyAt dF (prefix ++ l) (List.length prefix + i) pre).
Proof.
  revert prefix st sc. induction l as [ | d t IH ]; intros prefix st sc Hinv i pre Hn.
  - destruct i; discriminate.
  - destruct i as [ | i ].
    + injection Hn as <-. cbn [HybridReranker.diversify nth_error].
      eexists. split; [ reflexivity | ]. split; [ reflexivity | ].
      cbn [Doc.combinedScore Doc.setCombinedScore].
      apply floor_compat. now apply diversityPenalty_penaltyAt.
    + cbn [HybridReranker.diversify nth_error]. cbn [nth_error] in Hn.
      destruct (IH _ _ _ (seenInv_step d Hinv) i pre Hn) as [post [H1 [H2 H3]]].
      exists post. split; [ exact H1 | ]. split; [ exact H2 | ].
      rewrite <- app_assoc, length_app in H3. cbn [List.length app] in H3.
      now replace (List.length prefix + S i)%nat
        with (List.length prefix + 1 + i)%nat by lia.
Qed.

Lemma penaltyAt_nonneg (results : list Doc.t) (i : nat) (d : Doc.t) :
  0 <= dF -> 0 <= penaltyAt dF results i d.
Proof.
  intros H. unfold penaltyAt.
  destruct (seenTitleBefore results i d); destruct (seenCourtBefore results i d); lra.
Qed.

Lemma applyDiversity_sorted (l : list Doc.t) :
  sortedDesc Doc.combinedScore l ->
  sortedDesc Doc.combinedScore (HybridReranker.applyDiversity l dF).
Proof.
  intros H. unfold HybridReranker.applyDiversity.
  destruct (_ || _); [ exact H | apply sortDesc_sorted ].
Qed.
End DiversityFacts.

Lemma sliceTo_length (A : Type) (n : Z) (l : list A) :
  (0 <= n)%Z -> (Z.of_nat (List.length (sliceTo n l)) <= n)%Z.
Proof.
  intros H. unfold sliceTo.
  destruct (n <? 0)%Z eqn:E; [ apply Z.ltb_lt in E; lia | ].
  rewrite length_firstn. lia.
Qed.




(** ** The orchestrator *)

Lemma performVectorSearch_returns stores q w n :
  exists r, HybridSearchManager.performVectorSearch stores q w n = Ok r.
Proof.
  unfold HybridSearchManager.performVectorSearch.
  destruct (HybridSearchManager.performSimilaritySearch stores) as [call | ];
    [ | now exists [] ].
  destruct w as [ws | ]; cbn [HybridSearchManager.ofWorkspace bind tryCatch];
    [ | now exists [] ].
  destruct (call _ q n) as [[sources | ] | e]; cbn [bind tryCatch]; eauto.
Qed.

Lemma performMetadataSearch_returns stores f w n :
  exists r, HybridSearchManager.performMetadataSearch stores f w n = Ok r.
Proof.
  unfold HybridSearchManager.performMetadataSearch.
  destruct (HybridSearchManager.metadataSearch stores _) as [r | e];
    cbn [tryCatch]; eauto.
Qed.

(** A vector client that throws counts as one that finds nothing. *)
Lemma performVectorSearch_throwing stores e q w n :
  HybridSearchManager.performVectorSearch
    (withVector stores (fun _ _ _ => Throw e)) q w n
  = HybridSearchManager.performVectorSearch
      (withVector stores (fun _ _ _ => Ok (Some []))) q w n.
Proof.
  unfold HybridSearchManager.performVectorSearch, withVector.
  cbn [HybridSearchManager.performSimilaritySearch].
  destruct w as [ws | ]; reflexivity.
Qed.

(** A metadata search that throws counts as one that finds nothing. *)
Lemma performMetadataSearch_throwing stores e f w n :
  HybridSearchManager.performMetadataSearch
    (withMetadataSearch stores (fun _ => Throw e)) f w n
  = HybridSearchManager.performMetadataSearch
      (withMetadataSearch stores (fun _ => Ok [])) f w n.
Proof. reflexivity. Qed.

(** C7, as stated, fails: [search] does not reject a missing query or a
    missing workspace.  Without a query the extraction of filters throws
    inside the [try] and the fallback returns what the vector store finds;
    without a workspace the fallback returns the empty list. *)
Lemma missing_query_not_rejected :
  fst (HybridSearchManager.search envNone netDown storesOneHit RerankerService.fresh
         (HybridSearchManager.mkParams None (Some someWorkspace) None None None))
  = Ok (HybridSearchManager.VectorOnly [hybridHit])
  /\ fst (HybridSearchManager.search envNone netDown storesOneHit RerankerService.fresh
            (HybridSearchManager.mkParams (Some "bail"%string) None None None None))
     = Ok (HybridSearchManager.VectorOnly []).
Proof. split; vm_compute; reflexivity. Qed.

(** ** Extraction of filters *)

(** The first rule that matches decides the court. *)
Lemma firstCourt_first_match
    (before after : list (Js.regex * option string))
    (pattern : Js.regex) (value : option string) (query : string)
    (i : nat) (match0 : string) :
  (forall r, In r before -> Js.exec true (fst r) query = None) ->
  Js.exec true pattern query = Some (i, match0) ->
  HybridSearchManager.firstCourt (before ++ (pattern, value) :: after) query
  = Some (match Js.truthyStr value with Some v => v | None => match0 end).
Proof.
  intros Hb Hm. induction before as [ | [p v] t IH ]; simpl.
  - now rewrite Hm.
  - pose proof (Hb (p, v) (or_introl eq_refl)) as E. cbn [fst] in E. rewrite E.
    apply IH. intros r Hr. apply Hb. now right.
Qed.

Lemma firstCourt_none (patterns : list (Js.regex * option string)) (query : string) :
  (forall r, In r patterns -> Js.exec true (fst r) query = None) ->
  HybridSearchManager.firstCourt patterns query = None.
Proof.
  intros H. induction patterns as [ | [p v] t IH ]; simpl; [ reflexivity | ].
  pose proof (H (p, v) (or_introl eq_refl)) as E. cbn [fst] in E. rewrite E.
  apply IH. intros r Hr. apply H. now right.
Qed.

(** The first rule that matches decides the case type. *)
Lemma firstCaseType_first_match
    (before after : list (Js.regex * string))
    (pattern : Js.regex) (value : string) (query : string) :
  (forall r, In r before -> Js.test true (fst r) query = false) ->
  Js.test true pattern query = true ->
  HybridSearchManager.firstCaseType (before ++ (pattern, value) :: after) query
  = Some value.
Proof.
  intros Hb Hm. induction before as [ | [p v] t IH ]; simpl.
  - now rewrite Hm.
  - pose proof (Hb (p, v) (or_introl eq_refl)) as E. cbn [fst] in E. rewrite E.
    apply IH. intros r Hr. apply Hb. now right.
Qed.

Lemma firstCaseType_none (patterns : list (Js.regex * string)) (query : string) :
  (forall r, In r patterns -> Js.test true (fst r) query = false) ->
  HybridSearchManager.firstCaseType patterns query = None.
Proof.
  intros H. induction patterns as [ | [p v] t IH ]; simpl; [ reflexivity | ].
  pose proof (H (p, v) (or_introl eq_refl)) as E. cbn [fst] in E. rewrite E.
  apply IH. intros r Hr. apply H. now right.
Qed.

(** The ten digits. *)
Lemma isDigit_cases (c : ascii) :
  Js.isDigit c = true ->
  In c ["0"; "1"; "2"; "3"; "4"; "5"; "6"; "7"; "8"; "9"]%char.
Proof.
  destruct c as [[ | ] [ | ] [ | ] [ | ] [ | ] [ | ] [ | ] [ | ]];
    vm_compute; intros H; try discriminate H; tauto.
Qed.

(** A year written with four digits is printed back as it was read. *)
Lemma year_digits_roundtrip (a b c d : ascii) :
  (a = "1"%char /\ b = "9"%char) \/ (a = "2"%char /\ b = "0"%char) ->
  Js.isDigit c = true -> Js.isDigit d = true ->
  let m := String a (String b (String c (String d EmptyString))) in
  Js.stringOfZ (Js.digitsValue 0 m) = m
  /\ HybridSearchManager.truthyZ (Some (Js.digitsValue 0 m)) = Some (Js.digitsValue 0 m).
Proof.
  intros Hab Hc Hd.
  apply isDigit_cases in Hc. apply isDigit_cases in Hd.
  cbn [In] in Hc, Hd.
  destruct Hab as [[-> ->] | [-> ->]];
    repeat (destruct Hc as [<- | Hc]; [ | try contradiction ]);
    repeat (destruct Hd as [<- | Hd]; [ | try contradiction ]);
    split; vm_compute; reflexivity.
Qed.

Lemma eqb_char (a c : ascii) : Ascii.eqb a c = true -> c = a.
Proof. intros H. apply Ascii.eqb_eq in H. congruence. Qed.

Lemma take_suffix (c1 c2 c3 c4 : ascii) (rest : string) :
  Js.take (String.length (String c1 (String c2 (String c3 (String c4 rest))))
           - String.length rest)
          (String c1 (String c2 (String c3 (String c4 rest))))
  = String c1 (String c2 (String c3 (String c4 EmptyString))).
Proof.
  cbn [String.length].
  replace (S (S (S (S (String.length rest)))) - String.length rest)%nat with 4%nat by lia.
  reflexivity.
Qed.

(** A match of the year pattern is "19" or "20" and two digits, at the
    front of the input. *)
Lemma matchHere_year (prev : option ascii) (s m : string) :
  Js.matchHere false HybridSearchManager.yearPattern prev s = Some m ->
  exists a b c d,
    m = String a (String b (String c (String d EmptyString)))
    /\ Js.startsWith m s = true
    /\ ((a = "1"%char /\ b = "9"%char) \/ (a = "2"%char /\ b = "0"%char))
    /\ Js.isDigit c = true /\ Js.isDigit d = true.
Proof.
  unfold Js.matchHere, HybridSearchManager.yearPattern, HybridSearchManager.digit2.
  cbn [Js.rmatch].
  destruct (xorb (Js.wordBefore prev) (Js.wordAfter s)); [ | discriminate ].
  destruct s as [ | c1 [ | c2 [ | c3 [ | c4 rest ] ] ] ];
    cbn [Js.litMatch Js.charTest]; 
    repeat match goal with
    | |- context [if ?b then _ else _] => destruct b eqn:?; try discriminate
    | |- (match None with _ => _ end = _) -> _ => discriminate
    | |- (None = Some _) -> _ => discriminate
    end.
  all: rewrite take_suffix; intros Hm; injection Hm as <-;
    exists c1, c2, c3, c4; split; [ reflexivity | ];
    (split; [ cbn [Js.startsWith]; rewrite !Ascii.eqb_refl; reflexivity | ]);
    repeat match goal with
           | H : Ascii.eqb _ _ = true |- _ => apply eqb_char in H
           | H : Js.classTest false _ _ = true |- _ =>
               unfold Js.classTest in H; cbn [andb] in H; rewrite orb_false_r in H
           end;
    try congruence;
    (split; [ | split; assumption ]);
    ((left; split; assumption) || (right; split; assumption)).
Qed.

Lemma searchFrom_year (s : string) :
  forall prev i j m,
    Js.searchFrom false HybridSearchManager.yearPattern prev s i = Some (j, m) ->
    exists a b c d,
      m = String a (String b (String c (String d EmptyString)))
      /\ Js.includes s m = true
      /\ ((a = "1"%char /\ b = "9"%char) \/ (a = "2"%char /\ b = "0"%char))
      /\ Js.isDigit c = true /\ Js.isDigit d = true.
Proof.
  induction s as [ | c0 s IH ]; intros prev i j m; cbn [Js.searchFrom].
  - destruct (Js.matchHere _ _ _ _) as [m' | ] eqn:E; [ | discriminate ].
    intros H. injection H as <- <-.
    destruct (matchHere_year _ _ E) as [a [b [c [d [Hm [Hs _]]]]]].
    subst m'. discriminate Hs.
  - destruct (Js.matchHere _ _ _ _) as [m' | ] eqn:E.
    + intros H. injection H as <- <-.
      destruct (matchHere_year _ _ E) as [a [b [c [d [Hm [Hs Hr]]]]]].
      exists a, b, c, d. split; [ exact Hm | ]. split; [ | exact Hr ].
      cbn [Js.includes]. now rewrite Hs.
    + intros H. destruct (IH _ _ _ _ H) as [a [b [c [d [Hm [Hs Hr]]]]]].
      exists a, b, c, d. split; [ exact Hm | ]. split; [ | exact Hr ].
      cbn [Js.includes]. rewrite Hs. apply orb_true_r.
Qed.


(** [trim] returns a string that [trim] leaves as it is. *)
Lemma trimEnd_idem (s : string) : Js.trimEnd (Js.trimEnd s) = Js.trimEnd s.
Proof.
  induction s as [ | c s IH ]; [ reflexivity | ].
  cbn [Js.trimEnd]. destruct (Js.trimEnd s) as [ | c' r ] eqn:E.
  - destruct (Js.isSpace c) eqn:Ec; [ reflexivity | ].
    cbn [Js.trimEnd]. now rewrite Ec.
  - cbn [Js.trimEnd]. cbn [Js.trimEnd] in IH. now rewrite IH.
Qed.

Lemma trimStart_head (s : string) :
  match Js.trimStart s with
  | EmptyString => True
  | String c _ => Js.isSpace c = false
  end.
Proof.
  induction s as [ | c s IH ]; [ exact I | ].
  cbn [Js.trimStart]. destruct (Js.isSpace c) eqn:E; [ exact IH | exact E ].
Qed.

Lemma trimEnd_head (c : ascii) (r : string) :
  Js.isSpace c = false -> exists r', Js.trimEnd (String c r) = String c r'.
Proof.
  intros H. cbn [Js.trimEnd]. destruct (Js.trimEnd r); rewrite ?H; eauto.
Qed.

Lemma trim_idem (s : string) : Js.trim (Js.trim s) = Js.trim s.
Proof.
  unfold Js.trim. pose proof (trimStart_head s) as H.
  destruct (Js.trimStart s) as [ | c r ]; [ reflexivity | ].
  destruct (@trimEnd_head c r H) as [r' E].
  rewrite E. cbn [Js.trimStart]. rewrite H, <- E. apply trimEnd_idem.
Qed.

(** The year that is extracted: four digits found in the query, a value
    that is not zero and is printed back as those digits. *)
Lemma extractYear_digits (query : string) (y : Z) :
  HybridSearchManager.extractYear query = Some y ->
  exists m, String.length m = 4%nat /\ Js.includes query m = true
            /\ y = Js.digitsValue 0 m /\ Js.stringOfZ y = m
            /\ HybridSearchManager.truthyZ (Some y) = Some y.
Proof.
  unfold HybridSearchManager.extractYear, Js.exec.
  destruct (Js.searchFrom _ _ _ _ _) as [[j m] | ] eqn:E; [ | discriminate ].
  intros H. injection H as <-.
  destruct (searchFrom_year _ _ _ E) as [a [b [c [d [Hm [Hi [Hab [Hc Hd]]]]]]]].
  destruct (@year_digits_roundtrip a b c d Hab Hc Hd) as [R1 R2].
  exists m. subst m. repeat split; assumption.
Qed.


(* ================================================================== *)
(** * Further properties *)
(* ================================================================== *)

(** ** Parsing of scores *)

Lemma fillNeutral_length (n : nat) : List.length (fillNeutral n) = n.
Proof. apply repeat_length. Qed.

(** X1: [OpenAIReranker.parseScores] always returns exactly
    [expectedCount] scores, each in the unit interval.  When the [scores]
    array of the answer has exactly [expectedCount] entries that are
    numbers, the result is those numbers clamped, in order; in every other
    case it is [expectedCount] times 0.5. *)
Theorem openai_parseScores_shape :
  forall (content : OpenAI.Content) (expectedCount : nat),
    List.length (OpenAI.parseScores content expectedCount) = expectedCount
    /\ Forall (fun q => 0 <= q <= 1) (OpenAI.parseScores content expectedCount)
    /\ (forall l,
          content = OpenAI.Scores l ->
          List.length (filter (fun s => negb (isNaN s)) l) = expectedCount ->
          OpenAI.parseScores content expectedCount
          = map clampParsed (filter (fun s => negb (isNaN s)) l))
    /\ ((forall l,
           content = OpenAI.Scores l ->
           List.length (filter (fun s => negb (isNaN s)) l) <> expectedCount) ->
        OpenAI.parseScores content expectedCount = fillNeutral expectedCount).
Proof.
  intros content n. split; [ | split; [ | split ] ].
  - unfold OpenAI.parseScores. destruct content as [ | | l ];
      try apply fillNeutral_length.
    destruct (_ =? n)%nat eqn:E; [ | apply fillNeutral_length ].
    apply Nat.eqb_eq in E. now rewrite length_map.
  - apply openai_parseScores_bounds.
  - intros l -> H. unfold OpenAI.parseScores.
    apply Nat.eqb_eq in H. now rewrite H.
  - intros H. unfold OpenAI.parseScores. destruct content as [ | | l ];
      try reflexivity.
    specialize (H l eq_refl). apply Nat.eqb_neq in H. now rewrite H.
Qed.

(** The claim at an answer with one entry too many. *)
Lemma openai_parseScores_shape_witness :
  (forall l, OpenAI.Scores [Finite (1#2); Finite 1; NaN; Finite (3#4)] = OpenAI.Scores l ->
             List.length (filter (fun s => negb (isNaN s)) l) <> 2%nat)
  /\ OpenAI.parseScores (OpenAI.Scores [Finite (1#2); Finite 1; NaN; Finite (3#4)]) 2
     = fillNeutral 2.
Proof.
  assert (H : forall l,
             OpenAI.Scores [Finite (1#2); Finite 1; NaN; Finite (3#4)] = OpenAI.Scores l ->
             List.length (filter (fun s => negb (isNaN s)) l) <> 2%nat).
  { intros l E. injection E as <-. simpl. lia. }
  split; [ exact H | ].
  exact (proj2 (proj2 (proj2
           (openai_parseScores_shape
              (OpenAI.Scores [Finite (1#2); Finite 1; NaN; Finite (3#4)]) 2))) H).
Defined.

(** X2: [GeminiReranker.parseScores] always returns exactly
    [expectedCount] scores, each in the unit interval, whatever the text;
    a text with no bracketed array and no decimal number gives
    [expectedCount] times 0.5. *)
Theorem gemini_parseScores_shape :
  forall (text : string) (expectedCount : nat),
    List.length (Gemini.parseScores text expectedCount) = expectedCount
    /\ Forall (fun q => 0 <= q <= 1) (Gemini.parseScores text expectedCount)
    /\ (Js.exec false Gemini.arrayPattern text = None ->
        Js.matchAll false Gemini.numberPattern text = [] ->
        Gemini.parseScores text expectedCount = fillNeutral expectedCount).
Proof.
  intros text n. split; [ | split ].
  - unfold Gemini.parseScores.
    set (fallback := match Js.matchAll false Gemini.numberPattern text with
                     | [] => _ | _ => _ end).
    assert (Hfb : List.length fallback = n).
    { subst fallback. destruct (Js.matchAll _ _ _) as [ | x t ];
        [ apply fillNeutral_length | ].
      destruct (n <=? List.length (x :: t))%nat eqn:E; [ | apply fillNeutral_length ].
      apply Nat.leb_le in E. rewrite length_map, length_firstn. lia. }
    destruct (Js.exec _ _ _) as [[i m] | ]; [ | exact Hfb ].
    destruct (_ =? n)%nat eqn:E; [ | exact Hfb ].
    apply Nat.eqb_eq in E. now rewrite length_map.
  - apply gemini_parseScores_bounds.
  - intros H1 H2. unfold Gemini.parseScores. now rewrite H1, H2.
Qed.

(** The claim at a text without any number. *)
Lemma gemini_parseScores_shape_witness :
  Js.exec false Gemini.arrayPattern "I cannot score these." = None
  /\ Js.matchAll false Gemini.numberPattern "I cannot score these." = []
  /\ Gemini.parseScores "I cannot score these." 3 = fillNeutral 3.
Proof.
  assert (H1 : Js.exec false Gemini.arrayPattern "I cannot score these." = None)
    by reflexivity.
  assert (H2 : Js.matchAll false Gemini.numberPattern "I cannot score these." = [])
    by reflexivity.
  split; [ exact H1 | ]. split; [ exact H2 | ].
  exact (proj2 (proj2 (gemini_parseScores_shape "I cannot score these." 3)) H1 H2).
Defined.

(** ** Requests that fail, and batches of any size *)

(** X3: whenever the request of a provider fails (the call is rejected, the
    status is not 2xx, the body cannot be read) or the answer carries no
    score at all (no [scores] array or no JSON for OpenAI, no [results] for
    Cohere, an ASCII text with no bracketed list of numbers and no decimal
    number for Gemini), [rerank] returns the documents in the order they were
    given, each with the score 0.5. *)
Theorem provider_failure_is_neutral :
  forall (D : Type) (documents : list D) (status : nat),
    (forall reply,
        reply = OpenAI.FetchRejected \/ reply = OpenAI.NotOk status
        \/ reply = OpenAI.BodyUnreadable \/ reply = OpenAI.Body OpenAI.NotJson
        \/ reply = OpenAI.Body OpenAI.NoScores ->
        exists out, OpenAI.rerank reply documents = Ok out /\ eachHalf documents out)
    /\ (forall reply,
          reply = Cohere.FetchRejected \/ reply = Cohere.NotOk status
          \/ reply = Cohere.BodyUnreadable \/ reply = Cohere.Data None ->
          exists out, Cohere.rerank reply documents = Ok out /\ eachHalf documents out)
    /\ (exists out,
          Gemini.rerank Gemini.Rejected documents = Ok out /\ eachHalf documents out)
    /\ (forall text,
          asciiText text = true ->
          Js.exec false Gemini.arrayPattern text = None ->
          Js.matchAll false Gemini.numberPattern text = [] ->
          exists out,
            Gemini.rerank (Gemini.Text text) documents = Ok out
            /\ eachHalf documents out).
Proof.
  intros D documents status.
  assert (Hn : eachHalf documents (neutral documents)).
  { split; [ apply neutral_docs | apply neutral_scores ]. }
  split; [ | split; [ | split ] ].
  - intros reply H. exists (neutral documents). split; [ | exact Hn ].
    destruct H as [-> | [-> | [-> | [-> | ->]]]]; now apply openai_failure_neutral.
  - intros reply H. exists (neutral documents). split; [ | exact Hn ].
    destruct H as [-> | [-> | [-> | ->]]]; now apply cohere_failure_neutral.
  - exists (neutral documents). split; [ | exact Hn ].
    now apply gemini_failure_neutral.
  - intros text _ H1 H2. exists (neutral documents). split; [ | exact Hn ].
    apply gemini_failure_neutral. now split.
Qed.

(** The claim at a Gemini answer in words, for two documents. *)
Lemma provider_failure_is_neutral_witness :
  asciiText "I cannot score these documents." = true
  /\ Js.exec false Gemini.arrayPattern "I cannot score these documents." = None
  /\ Js.matchAll false Gemini.numberPattern "I cannot score these documents." = []
  /\ exists out,
       Gemini.rerank (Gemini.Text "I cannot score these documents.")
         ["a"; "b"]%string = Ok out
       /\ map (@doc string) out = ["a"; "b"]%string
       /\ Forall (fun s => rerankerScore s = 1#2) out.
Proof.
  assert (H1 : Js.exec false Gemini.arrayPattern "I cannot score these documents."
               = None) by reflexivity.
  assert (H2 : Js.matchAll false Gemini.numberPattern
                 "I cannot score these documents." = []) by reflexivity.
  split; [ reflexivity | ]. split; [ exact H1 | ]. split; [ exact H2 | ].
  exact (proj2 (proj2 (proj2 (provider_failure_is_neutral ["a"; "b"]%string 0%nat)))
           "I cannot score these documents."%string eq_refl H1 H2).
Defined.

Section BatchSizes.
Variables D Reply : Type.
Variable rerank : Reply -> list D -> Result (list (Scored D)).
Variable replies : nat -> Reply.
Hypothesis rerank_returns :
  forall r l, exists out, rerank r l = Ok out /\ Permutation (map (@doc D) out) l.

Lemma ceilDiv_step (n b : nat) :
  (0 < b)%nat -> (0 < n)%nat -> ceilDiv n b = S (ceilDiv (n - b) b).
Proof.
  intros Hb Hn. unfold ceilDiv. destruct (Nat.le_gt_cases n b) as [Hle | Hgt].
  - replace (n - b)%nat with 0%nat by lia.
    replace (0 + b - 1)%nat with (b - 1)%nat by lia.
    rewrite (Nat.div_small (b - 1) b) by lia.
    symmetry. apply Nat.div_unique with (r := (n - 1)%nat); lia.
  - replace (n + b - 1)%nat with ((n - b + b - 1) + 1 * b)%nat by lia.
    rewrite Nat.div_add by lia. lia.
Qed.

Lemma chunksOf_length (b fuel : nat) (l : list D) :
  (0 < b)%nat -> (List.length l <= fuel)%nat ->
  List.length (chunksOf fuel b l) = ceilDiv (List.length l) b.
Proof.
  intros Hb. revert l. induction fuel as [ | fuel IH ]; intros l Hl.
  - destruct l; [ | simpl in Hl; lia ]. cbn. unfold ceilDiv.
    symmetry. apply Nat.div_small. lia.
  - destruct l as [ | x t ].
    + cbn. unfold ceilDiv. symmetry. apply Nat.div_small. lia.
    + cbn [chunksOf List.length]. rewrite IH.
      * rewrite length_skipn. symmetry.
        change (S (List.length t)) with (List.length (x :: t)).
        apply ceilDiv_step; [ exact Hb | simpl; lia ].
      * rewrite length_skipn.
        change (List.length (x :: t)) with (S (List.length t)) in *. lia.
Qed.

Lemma chunkEvents_counts (cs : list (list D)) :
  countRequests (chunkEvents cs) = List.length cs
  /\ countSleeps (chunkEvents cs) = (List.length cs - 1)%nat.
Proof.
  unfold countRequests, countSleeps.
  induction cs as [ | c rest IH ]; [ split; reflexivity | ].
  destruct IH as [IH1 IH2]. destruct rest as [ | c' rest' ].
  - split; reflexivity.
  - cbn [chunkEvents filter List.length] in *. split; lia.
Qed.

(** A run with a positive batch size. *)
Lemma rerankBatchWith_counts (b : nat) (documents : list D) :
  (0 < b)%nat ->
  exists st,
    rerankBatchWith rerank replies b documents (List.length documents) = Some (Ok st)
    /\ calls st = ceilDiv (List.length documents) b
    /\ countRequests (events st) = ceilDiv (List.length documents) b
    /\ countSleeps (events st) = (ceilDiv (List.length documents) b - 1)%nat
    /\ Permutation (map (@doc D) (results st)) documents.
Proof.
  intros Hb. eexists. split; [ now apply rerankBatchWith_chunks | ].
  cbn [calls events results].
  pose proof (chunkEvents_counts (chunks b documents)) as [E1 E2].
  assert (El : List.length (chunks b documents) = ceilDiv (List.length documents) b).
  { apply chunksOf_length; [ exact Hb | apply Nat.le_refl ]. }
  rewrite E1, E2, El. repeat split.
  eapply perm_trans; [ apply chunkResults_perm; exact rerank_returns | ].
  unfold chunks. rewrite chunksOf_concat; [ apply Permutation_refl | exact Hb | lia ].
Qed.

(** With batch size 0 the index never moves. *)
Lemma batchLoop_zero (documents : list D) (fuel : nat) (st : BatchState D) :
  documents <> [] ->
  batchLoop rerank replies 0 documents fuel 0 st = None.
Proof.
  intros Hne. revert st. induction fuel as [ | fuel IH ]; intros st.
  - destruct documents; [ congruence | reflexivity ].
  - destruct documents as [ | x t ] eqn:Ed; [ congruence | ].
    cbn [batchLoop]. change (0 <? List.length (x :: t))%nat with true.
    cbn iota.
    destruct (rerank_returns (replies (calls st)) (slice 0 (0 + 0) (x :: t)))
      as [out [E _]].
    rewrite E. apply IH.
Qed.
End BatchSizes.

(** X4: for each provider, every document list and every positive batch
    size [b], [rerankBatch] ends within one iteration per document; it sends
    [ceil(n / b)] requests for [n] documents, pauses once between two
    requests and not after the last one, and returns a permutation of the
    documents. *)
Theorem rerankBatch_request_count :
  forall (D : Type) (net : Network) (documents : list D) (b : nat),
    (0 < b)%nat ->
    let n := List.length documents in
    (exists st, OpenAI.rerankBatch (openaiReplies net) documents (Some b) n = Some (Ok st)
                /\ calls st = ceilDiv n b
                /\ countRequests (events st) = ceilDiv n b
                /\ countSleeps (events st) = (ceilDiv n b - 1)%nat
                /\ Permutation (map (@doc D) (results st)) documents)
    /\ (exists st, Gemini.rerankBatch (geminiReplies net) documents (Some b) n = Some (Ok st)
                   /\ calls st = ceilDiv n b
                   /\ countRequests (events st) = ceilDiv n b
                   /\ countSleeps (events st) = (ceilDiv n b - 1)%nat
                   /\ Permutation (map (@doc D) (results st)) documents)
    /\ (exists st, Cohere.rerankBatch (cohereReplies net) documents (Some b) n = Some (Ok st)
                   /\ calls st = ceilDiv n b
                   /\ countRequests (events st) = ceilDiv n b
                   /\ countSleeps (events st) = (ceilDiv n b - 1)%nat
                   /\ Permutation (map (@doc D) (results st)) documents).
Proof.
  intros D net documents b Hb n. subst n. split; [ | split ].
  - apply rerankBatchWith_counts; [ apply openai_total | exact Hb ].
  - apply rerankBatchWith_counts; [ apply gemini_total | exact Hb ].
  - apply rerankBatchWith_counts; [ apply cohere_total | exact Hb ].
Qed.

(** The claim at seven documents in batches of three: three requests, two
    pauses. *)
Lemma rerankBatch_request_count_witness :
  (0 < 3)%nat
  /\ exists st,
       OpenAI.rerankBatch (openaiReplies netDown)
         ["a"; "b"; "c"; "d"; "e"; "f"; "g"]%string (Some 3%nat) 7 = Some (Ok st)
       /\ calls st = ceilDiv 7 3
       /\ countRequests (events st) = ceilDiv 7 3
       /\ countSleeps (events st) = (ceilDiv 7 3 - 1)%nat
       /\ Permutation (map (@doc string) (results st))
                      ["a"; "b"; "c"; "d"; "e"; "f"; "g"]%string.
Proof.
  assert (H : (0 < 3)%nat) by lia.
  split; [ exact H | ].
  exact (proj1 (rerankBatch_request_count netDown
                  ["a"; "b"; "c"; "d"; "e"; "f"; "g"]%string H)).
Defined.

(** X5: with batch size 0 and at least one document, [rerankBatch] of each
    provider never ends: the loop index stays at 0, so no number of
    iterations is enough. *)
Theorem rerankBatch_zero_never_ends :
  forall (D : Type) (net : Network) (documents : list D) (fuel : nat),
    documents <> [] ->
    OpenAI.rerankBatch (openaiReplies net) documents (Some 0%nat) fuel = None
    /\ Gemini.rerankBatch (geminiReplies net) documents (Some 0%nat) fuel = None
    /\ Cohere.rerankBatch (cohereReplies net) documents (Some 0%nat) fuel = None.
Proof.
  intros D net documents fuel Hne. split; [ | split ].
  - apply batchLoop_zero; [ apply openai_total | exact Hne ].
  - apply batchLoop_zero; [ apply gemini_total | exact Hne ].
  - apply batchLoop_zero; [ apply cohere_total | exact Hne ].
Qed.

(** The claim at one document and a thousand iterations. *)
Lemma rerankBatch_zero_never_ends_witness :
  ["a"%string] <> []
  /\ OpenAI.rerankBatch (openaiReplies netDown) ["a"%string] (Some 0%nat) 1000 = None.
Proof.
  assert (H : ["a"%string] <> []) by discriminate.
  split; [ exact H | ].
  exact (proj1 (rerankBatch_zero_never_ends netDown 1000 H)).
Defined.

(** ** The service *)

Lemma initialize_initialized (env : Env) (this : RerankerService.t) :
  RerankerService.initialized (RerankerService.initialize env this) = true.
Proof.
  unfold RerankerService.initialize.
  destruct (RerankerService.initialized this) eqn:E; [ exact E | ].
  destruct (negb _); [ reflexivity | ].
  destruct (RerankerService.selectProvider _ _ _); reflexivity.
Qed.

Lemma ensure_initialized (env : Env) (this : RerankerService.t) :
  RerankerService.initialized (RerankerService.ensure env this) = true.
Proof.
  unfold RerankerService.ensure.
  destruct (RerankerService.initialized this) eqn:E;
    [ exact E | apply initialize_initialized ].
Qed.

Lemma ensure_fixed (env : Env) (this : RerankerService.t) :
  RerankerService.initialized this = true -> RerankerService.ensure env this = this.
Proof. unfold RerankerService.ensure. now intros ->. Qed.

(** X6: the service is initialized once.  After [initialize] the flag is
    set; a second [initialize], under whatever environment, changes
    nothing; and [isAvailable], [rerank] and [rerankBatch] leave an
    initialized service as it is, so that a provider chosen at the first
    use is the provider of every later call. *)
Theorem service_initialized_once :
  forall (env env' : Env) (net : Network) (this : RerankerService.t)
         (D : Type) (documents : list D) (batchSize : option nat) (fuel : nat),
    let this1 := RerankerService.initialize env this in
    RerankerService.initialized this1 = true
    /\ RerankerService.initialize env' this1 = this1
    /\ snd (RerankerService.isAvailable env' this1) = this1
    /\ snd (RerankerService.rerank env' net this1 documents) = this1
    /\ snd (RerankerService.rerankBatch env' net this1 documents batchSize fuel) = this1.
Proof.
  intros env env' net this D documents batchSize fuel this1.
  pose proof (initialize_initialized env this) as Hi. fold this1 in Hi.
  pose proof (ensure_fixed env' this1 Hi) as He.
  split; [ exact Hi | ]. split.
  { unfold RerankerService.initialize at 1. now rewrite Hi. }
  split; [ unfold RerankerService.isAvailable; now rewrite He | ].
  split.
  - unfold RerankerService.rerank. rewrite He.
    destruct (RerankerService.provider this1); reflexivity.
  - unfold RerankerService.rerankBatch. rewrite He.
    destruct (RerankerService.provider this1); reflexivity.
Qed.

(** The provider the fresh service gets in an enabled environment. *)
Lemma initialize_enabled (env : Env) :
  RERANKER_ENABLED env = Some "true"%string ->
  RerankerService.initialize env RerankerService.fresh =
  RerankerService.mk
    (match RerankerService.selectProvider env None
             (option_map Js.toLowerCase (RERANKER_PROVIDER env)) with
     | Ok p => p
     | Throw _ => None
     end) true.
Proof.
  intros H. unfold RerankerService.initialize.
  cbn [RerankerService.initialized RerankerService.fresh RerankerService.provider].
  apply enabled_true in H. rewrite H. cbn [negb].
  destruct (RerankerService.selectProvider _ _ _); reflexivity.
Qed.

Lemma construct_with_key (make : string -> string -> Provider) (what : string)
    (key : option string) (k model : string) :
  Js.truthyStr key = Some k ->
  RerankerService.construct make what key model = Ok (make k model).
Proof. intros H. unfold RerankerService.construct. now rewrite H. Qed.

(** The provider built in an enabled environment, by provider name. *)
Lemma provider_selected :
  forall (env : Env) (name k : string),
    RERANKER_ENABLED env = Some "true"%string ->
    RERANKER_PROVIDER env = Some name ->
    let this := RerankerService.initialize env RerankerService.fresh in
    (Js.toLowerCase name = "gemini"%string ->
     Js.truthyStr (orStr (RERANKER_API_KEY env) (GEMINI_API_KEY env)) = Some k ->
     RerankerService.provider this =
     Some (GeminiReranker k
             (orDefault (orStr (RERANKER_MODEL env) (GEMINI_LLM_MODEL_PREF env))
                        "gemini-2.0-flash-lite")))
    /\ (Js.toLowerCase name = "cohere"%string ->
        Js.truthyStr (RERANKER_API_KEY env) = Some k ->
        RerankerService.provider this =
        Some (CohereReranker k (orDefault (RERANKER_MODEL env) "rerank-english-v3.0")))
    /\ (Js.toLowerCase name = "openai"%string ->
        Js.truthyStr (orStr (RERANKER_API_KEY env) (OPEN_AI_KEY env)) = Some k ->
        RerankerService.provider this =
        Some (OpenAIReranker k (orDefault (RERANKER_MODEL env) "gpt-4o-mini")))
    /\ (forall general own,
          Js.truthyStr (RERANKER_API_KEY env) = Some general ->
          orStr (RERANKER_API_KEY env) own = Some general).
Proof.
  intros env name k Hen Hname this. subst this.
  rewrite (initialize_enabled env Hen), Hname. cbn [option_map RerankerService.provider].
  split; [ | split; [ | split ] ].
  - intros -> Hk. cbn [RerankerService.selectProvider].
    rewrite Hk. now rewrite (construct_with_key _ _ _ _ Hk).
  - intros -> Hk. cbn [RerankerService.selectProvider].
    rewrite Hk. now rewrite (construct_with_key _ _ _ _ Hk).
  - intros -> Hk. cbn [RerankerService.selectProvider].
    rewrite Hk. now rewrite (construct_with_key _ _ _ _ Hk).
  - intros general own Hg. unfold orStr. rewrite Hg. reflexivity.
Qed.

Lemma truthy_setTo (o : option string) (v : string) :
  setTo o v -> Js.truthyStr o = Some v.
Proof.
  intros [-> Hv]. simpl. destruct (String.eqb v EmptyString) eqn:E; [ | reflexivity ].
  apply String.eqb_eq in E. contradiction.
Qed.

Lemma truthy_unset (o : option string) : unset o -> Js.truthyStr o = None.
Proof. intros [-> | ->]; reflexivity. Qed.

(** [a || b], by whether [a] is set. *)
Lemma orStr_first (a b : option string) (v : string) :
  setTo a v -> orStr a b = Some v.
Proof. intros H. unfold orStr. now rewrite (truthy_setTo H). Qed.

Lemma orStr_second (a b : option string) : unset a -> orStr a b = b.
Proof. intros H. unfold orStr. now rewrite (truthy_unset H). Qed.

(** The key [a || b] of a provider. *)
Lemma key_chosen (a b : option string) (key : string) :
  setTo a key \/ (unset a /\ setTo b key) ->
  Js.truthyStr (orStr a b) = Some key.
Proof.
  intros [H | [Ha Hb]].
  - rewrite (orStr_first b H). apply truthy_setTo. split; [ reflexivity | apply H ].
  - rewrite (orStr_second b Ha). now apply truthy_setTo.
Qed.

(** The model [a || b || d] of a provider. *)
Lemma model_chosen (a b : option string) (d : string) :
  (forall m, setTo a m -> orDefault (orStr a b) d = m)
  /\ (forall m, unset a -> setTo b m -> orDefault (orStr a b) d = m)
  /\ (unset a -> unset b -> orDefault (orStr a b) d = d).
Proof.
  split; [ | split ].
  - intros m H. unfold orDefault. rewrite (orStr_first b H).
    destruct H as [_ Hm]. simpl.
    destruct (String.eqb m EmptyString) eqn:E; [ | reflexivity ].
    apply String.eqb_eq in E. contradiction.
  - intros m Ha Hb. unfold orDefault. rewrite (orStr_second b Ha).
    now rewrite (truthy_setTo Hb).
  - intros Ha Hb. unfold orDefault. rewrite (orStr_second b Ha).
    now rewrite (truthy_unset Hb).
Qed.

Lemma model_or_default (a : option string) (d : string) :
  (forall m, setTo a m -> orDefault a d = m) /\ (unset a -> orDefault a d = d).
Proof.
  split.
  - intros m H. unfold orDefault. now rewrite (truthy_setTo H).
  - intros H. unfold orDefault. now rewrite (truthy_unset H).
Qed.

(** X8: which key and which model the provider is built with, in an
    enabled environment; the provider name is matched without regard to
    letter case.  Gemini and OpenAI are built with [RERANKER_API_KEY] when
    it is set and not empty, and with their own key ([GEMINI_API_KEY],
    [OPEN_AI_KEY]) when it is not; Cohere is built with [RERANKER_API_KEY].
    The model is [RERANKER_MODEL] when that is set and not empty;
    otherwise, for Gemini, [GEMINI_LLM_MODEL_PREF] when that is set and not
    empty; otherwise the provider's default. *)
Theorem service_provider_selection :
  forall (env : Env) (name key : string),
    RERANKER_ENABLED env = Some "true"%string ->
    RERANKER_PROVIDER env = Some name ->
    let this := RerankerService.initialize env RerankerService.fresh in
    (Js.toLowerCase name = "gemini"%string ->
     setTo (RERANKER_API_KEY env) key
     \/ (unset (RERANKER_API_KEY env) /\ setTo (GEMINI_API_KEY env) key) ->
     exists model,
       RerankerService.provider this = Some (GeminiReranker key model)
       /\ (forall m, setTo (RERANKER_MODEL env) m -> model = m)
       /\ (forall m, unset (RERANKER_MODEL env) ->
                     setTo (GEMINI_LLM_MODEL_PREF env) m -> model = m)
       /\ (unset (RERANKER_MODEL env) -> unset (GEMINI_LLM_MODEL_PREF env) ->
           model = "gemini-2.0-flash-lite"%string))
    /\ (Js.toLowerCase name = "cohere"%string ->
        setTo (RERANKER_API_KEY env) key ->
        exists model,
          RerankerService.provider this = Some (CohereReranker key model)
          /\ (forall m, setTo (RERANKER_MODEL env) m -> model = m)
          /\ (unset (RERANKER_MODEL env) -> model = "rerank-english-v3.0"%string))
    /\ (Js.toLowerCase name = "openai"%string ->
        setTo (RERANKER_API_KEY env) key
        \/ (unset (RERANKER_API_KEY env) /\ setTo (OPEN_AI_KEY env) key) ->
        exists model,
          RerankerService.provider this = Some (OpenAIReranker key model)
          /\ (forall m, setTo (RERANKER_MODEL env) m -> model = m)
          /\ (unset (RERANKER_MODEL env) -> model = "gpt-4o-mini"%string)).
Proof.
  intros env name key Hen Hname this.
  destruct (@provider_selected env name key Hen Hname) as (Hg & Hc & Ho & _).
  fold this in Hg, Hc, Ho.
  split; [ | split ].
  - intros Hn Hk. eexists. split; [ apply (Hg Hn), key_chosen, Hk | ].
    apply model_chosen.
  - intros Hn Hk. eexists. split; [ apply (Hc Hn), truthy_setTo, Hk | ].
    apply model_or_default.
  - intros Hn Hk. eexists. split; [ apply (Ho Hn), key_chosen, Hk | ].
    apply model_or_default.
Qed.

(** The claim at an environment without general key and with an empty
    [RERANKER_MODEL]: Gemini is built with its own key and with the model
    of [GEMINI_LLM_MODEL_PREF]. *)
Lemma service_provider_selection_witness :
  RERANKER_ENABLED envGeminiOwn = Some "true"%string
  /\ RERANKER_PROVIDER envGeminiOwn = Some "Gemini"%string
  /\ (unset (RERANKER_API_KEY envGeminiOwn)
      /\ setTo (GEMINI_API_KEY envGeminiOwn) "gemini-key")
  /\ unset (RERANKER_MODEL envGeminiOwn)
  /\ setTo (GEMINI_LLM_MODEL_PREF envGeminiOwn) "gemini-pro"
  /\ RerankerService.provider
       (RerankerService.initialize envGeminiOwn RerankerService.fresh)
     = Some (GeminiReranker "gemini-key" "gemini-pro").
Proof.
  assert (H1 : RERANKER_ENABLED envGeminiOwn = Some "true"%string) by reflexivity.
  assert (H2 : RERANKER_PROVIDER envGeminiOwn = Some "Gemini"%string) by reflexivity.
  assert (H3 : unset (RERANKER_API_KEY envGeminiOwn)
               /\ setTo (GEMINI_API_KEY envGeminiOwn) "gemini-key").
  { split; [ now left | split; [ reflexivity | discriminate ] ]. }
  assert (H4 : unset (RERANKER_MODEL envGeminiOwn)) by (now right).
  assert (H5 : setTo (GEMINI_LLM_MODEL_PREF envGeminiOwn) "gemini-pro")
    by (split; [ reflexivity | discriminate ]).
  split; [ exact H1 | ]. split; [ exact H2 | ]. split; [ exact H3 | ].
  split; [ exact H4 | ]. split; [ exact H5 | ].
  destruct (proj1 (@service_provider_selection envGeminiOwn "Gemini" "gemini-key"
                     H1 H2)
              eq_refl (or_intror H3)) as (model & Hp & _ & Hm & _).
  rewrite <- (Hm _ H4 H5). exact Hp.
Defined.

Lemma truthy_cases (o : option string) :
  Js.truthyStr o = None \/ exists k, Js.truthyStr o = Some k.
Proof. destruct (Js.truthyStr o) as [k | ]; eauto. Qed.

Lemma truthyStr_Some (a : option string) (s : string) :
  Js.truthyStr a = Some s -> Js.truthyStr (Some s) = Some s.
Proof.
  unfold Js.truthyStr. destruct a as [x | ]; [ | discriminate ].
  destruct (String.eqb x EmptyString) eqn:E; [ discriminate | ].
  intros H. injection H as <-. now rewrite E.
Qed.

Lemma orStr_none_inv (a b : option string) :
  Js.truthyStr (orStr a b) = None ->
  Js.truthyStr a = None /\ Js.truthyStr b = None.
Proof.
  unfold orStr. destruct (Js.truthyStr a) as [s | ] eqn:Ea.
  - intros H. rewrite (truthyStr_Some _ Ea) in H. discriminate.
  - tauto.
Qed.

Lemma option_string_dec (a b : option string) : {a = b} + {a <> b}.
Proof. decide equality. apply string_dec. Qed.

(** Every environment is configured or unusable. *)
Lemma configured_or_unusable (env : Env) : Configured env \/ Unusable env.
Proof.
  destruct (option_string_dec (RERANKER_ENABLED env) (Some "true"%string))
    as [Hen | Hen]; [ | right; now apply Disabled ].
  destruct (RERANKER_PROVIDER env) as [name | ] eqn:Hp;
    [ | right; apply UnknownProvider; intros n Hn; congruence ].
  destruct (string_dec (Js.toLowerCase name) "gemini") as [Hg | Hg].
  { destruct (truthy_cases (orStr (RERANKER_API_KEY env) (GEMINI_API_KEY env)))
      as [Hk | [k Hk]].
    - right. apply MissingKey with (name := name); [ exact Hp | ]. left.
      split; [ exact Hg | ]. now apply orStr_none_inv.
    - left. split; [ exact Hen | ]. exists name. split; [ exact Hp | ].
      left. split; [ exact Hg | congruence ]. }
  destruct (string_dec (Js.toLowerCase name) "cohere") as [Hc | Hc].
  { destruct (truthy_cases (RERANKER_API_KEY env)) as [Hk | [k Hk]].
    - right. apply MissingKey with (name := name); [ exact Hp | ]. right. left. tauto.
    - left. split; [ exact Hen | ]. exists name. split; [ exact Hp | ].
      right. left. split; [ exact Hc | congruence ]. }
  destruct (string_dec (Js.toLowerCase name) "openai") as [Ho | Ho].
  { destruct (truthy_cases (orStr (RERANKER_API_KEY env) (OPEN_AI_KEY env)))
      as [Hk | [k Hk]].
    - right. apply MissingKey with (name := name); [ exact Hp | ]. right. right.
      split; [ exact Ho | ]. now apply orStr_none_inv.
    - left. split; [ exact Hen | ]. exists name. split; [ exact Hp | ].
      right. right. split; [ exact Ho | congruence ]. }
  right. apply UnknownProvider. intros n Hn. rewrite Hp in Hn. injection Hn as <-. tauto.
Qed.

Lemma configured_available (env : Env) :
  Configured env ->
  exists p, RerankerService.provider
              (RerankerService.initialize env RerankerService.fresh) = Some p.
Proof.
  intros [Hen [name [Hp Hcases]]].
  destruct Hcases as [[Hn Hk] | [[Hn Hk] | [Hn Hk]]].
  - destruct (Js.truthyStr (orStr (RERANKER_API_KEY env) (GEMINI_API_KEY env)))
      as [k | ] eqn:E; [ | congruence ].
    eexists. exact (proj1 (provider_selected env k Hen Hp) Hn E).
  - destruct (Js.truthyStr (RERANKER_API_KEY env)) as [k | ] eqn:E; [ | congruence ].
    eexists. exact (proj1 (proj2 (provider_selected env k Hen Hp)) Hn E).
  - destruct (Js.truthyStr (orStr (RERANKER_API_KEY env) (OPEN_AI_KEY env)))
      as [k | ] eqn:E; [ | congruence ].
    eexists. exact (proj1 (proj2 (proj2 (provider_selected env k Hen Hp))) Hn E).
Qed.

Lemma isAvailable_fresh (env : Env) :
  RerankerService.isAvailable env RerankerService.fresh =
  (match RerankerService.provider
           (RerankerService.initialize env RerankerService.fresh) with
   | Some _ => true
   | None => false
   end,
   RerankerService.initialize env RerankerService.fresh).
Proof. reflexivity. Qed.

(** X7: a fresh service is available exactly in the configured
    environments: reranking enabled, one of the three provider names in any
    letter case, and a key for that provider.  [getConfig] reports the same
    availability, and never reports a service as available when reranking
    is not enabled; a provider or model that is not set is reported as
    "none" and "default". *)
Theorem service_available_iff :
  forall env : Env,
    (fst (RerankerService.isAvailable env RerankerService.fresh) = true
     <-> Configured env)
    /\ configAvailable (fst (getConfig env RerankerService.fresh))
       = fst (RerankerService.isAvailable env RerankerService.fresh)
    /\ (configAvailable (fst (getConfig env RerankerService.fresh)) = true ->
        configEnabled (fst (getConfig env RerankerService.fresh)) = true)
    /\ (RERANKER_PROVIDER env = None ->
        configProvider (fst (getConfig env RerankerService.fresh)) = "none"%string)
    /\ (RERANKER_MODEL env = None ->
        configModel (fst (getConfig env RerankerService.fresh)) = "default"%string).
Proof.
  intros env.
  assert (Hiff : fst (RerankerService.isAvailable env RerankerService.fresh) = true
                 <-> Configured env).
  { rewrite isAvailable_fresh. cbn [fst]. split.
    - intros H. destruct (configured_or_unusable env) as [Hc | Hu]; [ exact Hc | ].
      rewrite (initialize_unusable Hu) in H. discriminate H.
    - intros Hc. destruct (configured_available Hc) as [p ->]. reflexivity. }
  assert (Hcfg : configAvailable (fst (getConfig env RerankerService.fresh))
                 = fst (RerankerService.isAvailable env RerankerService.fresh)).
  { unfold getConfig.
    assert (E : RerankerService.ensure env RerankerService.fresh
                = RerankerService.initialize env RerankerService.fresh) by reflexivity.
    rewrite E. unfold RerankerService.isAvailable at 1.
    rewrite (ensure_fixed env _ (initialize_initialized env RerankerService.fresh)).
    rewrite isAvailable_fresh. reflexivity. }
  split; [ exact Hiff | ]. split; [ exact Hcfg | ]. split; [ | split ].
  - rewrite Hcfg. intros H. apply Hiff in H. destruct H as [Hen _].
    unfold getConfig.
    destruct (RerankerService.isAvailable env _) as [a t]. cbn [fst configEnabled].
    now apply enabled_true.
  - intros H. unfold getConfig.
    destruct (RerankerService.isAvailable env _) as [a t]. cbn [fst configProvider].
    now rewrite H.
  - intros H. unfold getConfig.
    destruct (RerankerService.isAvailable env _) as [a t]. cbn [fst configModel].
    now rewrite H.
Qed.

(** The claim at the environment with two keys. *)
Lemma service_available_iff_witness :
  Configured envGeminiTwoKeys
  /\ fst (RerankerService.isAvailable envGeminiTwoKeys RerankerService.fresh) = true.
Proof.
  assert (H : Configured envGeminiTwoKeys).
  { split; [ reflexivity | ]. exists "GEMINI"%string. split; [ reflexivity | ].
    left. split; [ reflexivity | ]. vm_compute. discriminate. }
  split; [ exact H | ].
  exact (proj2 (proj1 (service_available_iff envGeminiTwoKeys)) H).
Defined.

Lemma providerRerank_returns (D : Type) (net : Network) (p : Provider) (documents : list D) :
  exists out, RerankerService.providerRerank net p documents = Ok out
              /\ Permutation (map (@doc D) out) documents.
Proof.
  destruct p as [k m | k m | k m]; cbn [RerankerService.providerRerank].
  - apply gemini_total.
  - apply cohere_total.
  - apply openai_total.
Qed.

Lemma providerRerankBatch_returns (D : Type) (net : Network) (p : Provider)
    (documents : list D) :
  exists out,
    RerankerService.providerRerankBatch net p documents None (List.length documents)
    = Some (Ok out)
    /\ Permutation (map (@doc D) out) documents.
Proof.
  assert (G : forall (Reply : Type) (rr : Reply -> list D -> Result (list (Scored D)))
                (replies : nat -> Reply) (b : nat),
             (forall r l, exists out, rr r l = Ok out /\ Permutation (map (@doc D) out) l) ->
             (0 < b)%nat ->
             exists st,
               rerankBatchWith rr replies b documents (List.length documents) = Some (Ok st)
               /\ Permutation (map (@doc D) (results st)) documents).
  { intros Reply rr replies b Hrr Hb.
    destruct (@rerankBatchWith_counts D Reply rr replies Hrr b documents Hb) as [st [E [_ [_ [_ P]]]]].
    now exists st. }
  unfold RerankerService.providerRerankBatch.
  destruct p as [k m | k m | k m].
  - destruct (G _ (@Gemini.rerank D) (geminiReplies net) 10%nat (@gemini_total D))
      as [st [E P]]; [ lia | ].
    unfold Gemini.rerankBatch, Gemini.defaultBatchSize. rewrite E. eauto.
  - destruct (G _ (@Cohere.rerank D) (cohereReplies net) 100%nat (@cohere_total D))
      as [st [E P]]; [ lia | ].
    unfold Cohere.rerankBatch, Cohere.defaultBatchSize. rewrite E. eauto.
  - destruct (G _ (@OpenAI.rerank D) (openaiReplies net) 10%nat (@openai_total D))
      as [st [E P]]; [ lia | ].
    unfold OpenAI.rerankBatch, OpenAI.defaultBatchSize. rewrite E. eauto.
Qed.

(** X9: [RerankerService.rerank] never throws: in every state of the
    service, every environment and whatever the endpoints answer, it
    returns one entry per document, the documents being those given, and
    leaves the service initialized.  [rerankBatch] without a batch size does
    the same and ends within one iteration per document. *)
Theorem service_rerank_returns :
  forall (D : Type) (env : Env) (net : Network) (this : RerankerService.t)
         (documents : list D),
    (exists out,
       fst (RerankerService.rerank env net this documents) = Ok out
       /\ Permutation (map (@doc D) out) documents)
    /\ RerankerService.initialized (snd (RerankerService.rerank env net this documents))
       = true
    /\ (exists out,
          fst (RerankerService.rerankBatch env net this documents None
                 (List.length documents)) = Some (Ok out)
          /\ Permutation (map (@doc D) out) documents).
Proof.
  intros D env net this documents.
  assert (Hn : Permutation (map (@doc D) (neutral documents)) documents).
  { rewrite neutral_docs. apply Permutation_refl. }
  split; [ | split ].
  - unfold RerankerService.rerank.
    destruct (RerankerService.provider _) as [p | ]; cbn [fst].
    + destruct (providerRerank_returns net p documents) as [out [E P]].
      rewrite E. cbn [tryCatch]. eauto.
    + eauto.
  - unfold RerankerService.rerank.
    destruct (RerankerService.provider _) as [p | ] eqn:E; cbn [snd];
      apply ensure_initialized.
  - unfold RerankerService.rerankBatch.
    destruct (RerankerService.provider _) as [p | ]; cbn [fst].
    + destruct (providerRerankBatch_returns net p documents) as [out [E P]].
      rewrite E. cbn [tryCatch]. eauto.
    + eauto.
Qed.

(** ** Tokens and titles *)

Ltac by_all_chars c :=
  destruct c as [[ | ] [ | ] [ | ] [ | ] [ | ] [ | ] [ | ] [ | ]]; reflexivity.

Lemma lowerChar_not_upper (c : ascii) : Js.isUpper (Js.lowerChar c) = false.
Proof. by_all_chars c. Qed.

Lemma lowerChar_idem (c : ascii) : Js.lowerChar (Js.lowerChar c) = Js.lowerChar c.
Proof. by_all_chars c. Qed.

Lemma isWord_lowerChar (c : ascii) : Js.isWord (Js.lowerChar c) = Js.isWord c.
Proof. by_all_chars c. Qed.

Lemma isSpace_lowerChar (c : ascii) : Js.isSpace (Js.lowerChar c) = Js.isSpace c.
Proof. by_all_chars c. Qed.

Lemma toLowerCase_idem (s : string) : Js.toLowerCase (Js.toLowerCase s) = Js.toLowerCase s.
Proof.
  unfold Js.toLowerCase. induction s as [ | c s IH ]; simpl; [ reflexivity | ].
  now rewrite lowerChar_idem, IH.
Qed.

Lemma allChars_app (p : ascii -> bool) (s t : string) :
  allChars p (s ++ t) = allChars p s && allChars p t.
Proof.
  induction s as [ | c s IH ]; simpl; [ reflexivity | ].
  now rewrite IH, andb_assoc.
Qed.

Lemma allChars_mapChars (p : ascii -> bool) (f : ascii -> ascii) (s : string) :
  allChars p (Js.mapChars f s) = allChars (fun c => p (f c)) s.
Proof. induction s as [ | c s IH ]; simpl; [ reflexivity | now rewrite IH ]. Qed.

Lemma allChars_always (p : ascii -> bool) (s : string) :
  (forall c, p c = true) -> allChars p s = true.
Proof.
  intros H. induction s as [ | c s IH ]; simpl; [ reflexivity | now rewrite H, IH ].
Qed.

(** The pieces between runs of white space hold what is not white space. *)
Lemma splitSpaces_chars (p : ascii -> bool) (s cur : string) (inRun : bool) :
  allChars p cur = true ->
  allChars (fun c => Js.isSpace c || p c) s = true ->
  Forall (fun t => allChars p t = true) (Js.splitSpaces s cur inRun).
Proof.
  revert cur inRun. induction s as [ | c s IH ]; intros cur inRun Hc Hs; simpl.
  - constructor; [ exact Hc | constructor ].
  - simpl in Hs. apply andb_true_iff in Hs. destruct Hs as [Hc0 Hs].
    destruct (Js.isSpace c) eqn:E.
    + destruct inRun.
      * now apply IH.
      * constructor; [ exact Hc | ]. now apply IH.
    + apply IH; [ | exact Hs ]. rewrite allChars_app, Hc. simpl.
      simpl in Hc0. now rewrite Hc0.
Qed.

(** X10: every term [tokenize] returns has at least three characters, all
    of them lower-case letters, digits or underscores; and the terms do not
    depend on the letter case of the text. *)
Theorem tokenize_terms :
  forall text : string,
    Forall (fun term => (3 <= String.length term)%nat /\ allChars tokenChar term = true)
           (HybridReranker.tokenize text)
    /\ HybridReranker.tokenize (Js.toLowerCase text) = HybridReranker.tokenize text.
Proof.
  intros text. split.
  - unfold HybridReranker.tokenize. apply Forall_forall. intros term Hin.
    apply filter_In in Hin. destruct Hin as [Hin Hlen].
    apply Nat.ltb_lt in Hlen. split; [ lia | ].
    assert (Hall : Forall (fun t => allChars tokenChar t = true)
                     (Js.split_ws
                        (Js.mapChars
                           (fun c => if Js.isWord c || Js.isSpace c then c else " "%char)
                           (Js.toLowerCase text)))).
    { apply splitSpaces_chars; [ reflexivity | ].
      unfold Js.toLowerCase. rewrite !allChars_mapChars.
      apply allChars_always. intros c.
      pose proof (lowerChar_not_upper c) as Hu.
      unfold tokenChar.
      destruct (Js.isWord (Js.lowerChar c)) eqn:Ew; cbn [orb].
      - rewrite Ew, Hu. cbn. apply orb_true_r.
      - destruct (Js.isSpace (Js.lowerChar c)) eqn:Es; [ now rewrite Es | reflexivity ]. }
    rewrite Forall_forall in Hall. now apply Hall.
  - unfold HybridReranker.tokenize. now rewrite toLowerCase_idem.
Qed.

Lemma take_length (n : nat) (s : string) : (String.length (Js.take n s) <= n)%nat.
Proof.
  revert s. induction n as [ | n IH ]; intros s; [ destruct s; simpl; lia | ].
  destruct s as [ | c s ]; simpl; [ lia | ]. specialize (IH s). lia.
Qed.

Lemma filterChars_mapChars (p : ascii -> bool) (f : ascii -> ascii) (s : string) :
  (forall c, p (f c) = p c) ->
  Js.filterChars p (Js.mapChars f s) = Js.mapChars f (Js.filterChars p s).
Proof.
  intros H. induction s as [ | c s IH ]; simpl; [ reflexivity | ].
  rewrite H. destruct (p c); simpl; now rewrite IH.
Qed.

Lemma filterChars_idem (p : ascii -> bool) (s : string) :
  Js.filterChars p (Js.filterChars p s) = Js.filterChars p s.
Proof.
  induction s as [ | c s IH ]; simpl; [ reflexivity | ].
  destruct (p c) eqn:E; simpl; [ now rewrite E, IH | exact IH ].
Qed.

(** X11: for a title of ASCII characters, the key [normalizeTitle] gives
    it has at most 50 characters, and the title in lower case, and the
    title without its characters that are neither word characters nor
    white space, get the same key as the title itself. *)
Theorem normalizeTitle_key :
  forall title : string,
    asciiText title = true ->
    (String.length (HybridReranker.normalizeTitle title) <= 50)%nat
    /\ HybridReranker.normalizeTitle (Js.toLowerCase title)
       = HybridReranker.normalizeTitle title
    /\ HybridReranker.normalizeTitle (Js.filterChars wordOrSpace title)
       = HybridReranker.normalizeTitle title.
Proof.
  intros title _. split; [ apply take_length | ]. split.
  - unfold HybridReranker.normalizeTitle. now rewrite toLowerCase_idem.
  - unfold HybridReranker.normalizeTitle.
    assert (E : Js.toLowerCase (Js.filterChars wordOrSpace title)
                = Js.filterChars wordOrSpace (Js.toLowerCase title)).
    { unfold Js.toLowerCase. symmetry. apply filterChars_mapChars.
      intros c. unfold wordOrSpace. now rewrite isWord_lowerChar, isSpace_lowerChar. }
    rewrite E.
    change (fun c : ascii => Js.isWord c || Js.isSpace c) with wordOrSpace.
    now rewrite filterChars_idem.
Qed.

Lemma normalizeTitle_key_witness :
  asciiText "State  v. Rao (2019)" = true
  /\ HybridReranker.normalizeTitle "State  v. Rao (2019)" = "state v rao 2019"%string
  /\ HybridReranker.normalizeTitle (Js.toLowerCase "State  v. Rao (2019)")
     = HybridReranker.normalizeTitle "State  v. Rao (2019)"
  /\ HybridReranker.normalizeTitle (Js.filterChars wordOrSpace "State  v. Rao (2019)")
     = HybridReranker.normalizeTitle "State  v. Rao (2019)".
Proof.
  split; [ reflexivity | ]. split; [ reflexivity | ].
  apply (@normalizeTitle_key "State  v. Rao (2019)" eq_refl).
Defined.

(** ** Relevance of a metadata row *)

Lemma overlap_nonneg (a b : nat) : 0 <= inject_Z (Z.of_nat a) / inject_Z (Z.of_nat b).
Proof.
  destruct b as [ | b ].
  - unfold Qdiv, Qinv. simpl. rewrite Qmult_0_r. apply Qle_refl.
  - apply Qle_shift_div_l.
    + unfold Qlt. simpl. lia.
    + rewrite Qmult_0_l. unfold Qle. simpl. lia.
Qed.

(** X12: [calculateMetadataRelevance] is at least 0.5 and at most 1 for
    every row and every list of query terms, and it is exactly 0.5 when
    there are no query terms. *)
Theorem metadataRelevance_range :
  forall (metadata : Meta.t) (queryTerms : list string),
    (1#2 <= HybridReranker.calculateMetadataRelevance metadata queryTerms
     /\ HybridReranker.calculateMetadataRelevance metadata queryTerms <= 1)
    /\ HybridReranker.calculateMetadataRelevance metadata [] == 1#2.
Proof.
  intros metadata queryTerms. split.
  - unfold HybridReranker.calculateMetadataRelevance.
    set (n := List.length (filter _ queryTerms)).
    pose proof (overlap_nonneg n (List.length queryTerms)) as Ho.
    set (o := inject_Z (Z.of_nat n) / inject_Z (Z.of_nat (List.length queryTerms))) in *.
    split; [ | apply Q.le_min_r ].
    apply Q.min_glb; [ | lra ].
    destruct (0 <? List.length queryTerms)%nat;
      destruct (HybridReranker.fieldMentions (Meta.court metadata) queryTerms);
      destruct (Meta.num (Meta.year metadata)) as [y | ];
      try destruct (Js.arrayIncludes queryTerms (Js.stringOfZ y));
      destruct (HybridReranker.fieldMentions (Meta.case_type metadata) queryTerms);
      destruct (HybridReranker.fieldMentions (Meta.citation metadata) queryTerms);
      lra.
  - unfold HybridReranker.calculateMetadataRelevance, HybridReranker.fieldMentions.
    cbn [List.length Nat.ltb Nat.leb existsb Js.arrayIncludes].
    destruct (Meta.str (Meta.court metadata));
      destruct (Meta.num (Meta.year metadata));
      destruct (Meta.str (Meta.case_type metadata));
      destruct (Meta.str (Meta.citation metadata)); reflexivity.
Qed.

(** ** The documents [HybridReranker.rerank] returns *)

Lemma fold_left_invariant (A B : Type) (f : A -> B -> A) (P : A -> Prop)
    (l : list B) (a0 : A) :
  P a0 -> (forall a x, In x l -> P a -> P (f a x)) -> P (fold_left f l a0).
Proof.
  revert a0. induction l as [ | x t IH ]; intros a0 H0 Hstep; simpl; [ exact H0 | ].
  apply IH.
  - apply Hstep; [ now left | exact H0 ].
  - intros a y Hy. apply Hstep. now right.
Qed.

Lemma fold_left_length (A B V : Type) (f : list V -> B -> list V) (l : list B)
    (m0 : list V) :
  (forall m x, (List.length (f m x) <= S (List.length m))%nat) ->
  (List.length (fold_left f l m0) <= List.length m0 + List.length l)%nat.
Proof.
  intros Hf. revert m0. induction l as [ | x t IH ]; intros m0; simpl; [ lia | ].
  specialize (IH (f m0 x)). specialize (Hf m0 x). lia.
Qed.

Lemma set_length (V : Type) (m : Map.t V) (k : string) (v : V) :
  (List.length (Map.set m k v) <= S (List.length m))%nat.
Proof.
  induction m as [ | [k' v'] r IH ]; simpl; [ lia | ].
  destruct (String.eqb k' k); simpl; lia.
Qed.

Lemma set_Forall (V : Type) (P : string * V -> Prop) (m : Map.t V) (k : string) (v : V) :
  Forall P m -> P (k, v) -> Forall P (Map.set m k v).
Proof.
  intros Hm Hk. induction m as [ | [k' v'] r IH ]; simpl.
  - constructor; [ exact Hk | constructor ].
  - inversion Hm as [ | ? ? Hh Hr ]; subst.
    destruct (String.eqb k' k); constructor; auto.
Qed.

Lemma get_In (V : Type) (m : Map.t V) (k : string) (v : V) :
  Map.get m k = Some v -> In (k, v) m.
Proof.
  induction m as [ | [k' v'] r IH ]; simpl; [ discriminate | ].
  destruct (String.eqb k' k) eqn:E.
  - apply String.eqb_eq in E. subst k'. intros H. injection H as ->. now left.
  - intros H. right. now apply IH.
Qed.

Lemma truthyStr_nonempty (o : option string) (s : string) :
  Js.truthyStr o = Some s -> s <> EmptyString.
Proof.
  destruct o as [x | ]; simpl; [ | discriminate ].
  destruct (String.eqb x EmptyString) eqn:E; [ discriminate | ].
  intros H. injection H as <-. now apply String.eqb_neq.
Qed.

Lemma vectorDocId_nonempty (r : VectorResult.t) (k : string) :
  HybridReranker.vectorDocId r = Some k -> k <> EmptyString.
Proof.
  unfold HybridReranker.vectorDocId, orStr.
  destruct (Js.truthyStr (VectorResult.id r)) as [s | ] eqn:E.
  - intros H. injection H as <-. now apply truthyStr_nonempty in E.
  - apply truthyStr_nonempty.
Qed.

Lemma metadataDocId_nonempty (r : Meta.t) (k : string) :
  HybridReranker.metadataDocId r = Some k -> k <> EmptyString.
Proof. unfold HybridReranker.metadataDocId, Meta.str. apply truthyStr_nonempty. Qed.

(** What every entry of the merged map satisfies. *)
Lemma merge_entries (vr : list VectorResult.t) (mr : list Meta.t) (q : string) :
  NoDup (Map.keys (HybridReranker.merge vr mr q))
  /\ Forall (fun e => Doc.docId (snd e) = fst e /\ fst e <> EmptyString
                      /\ fromInputs vr mr (fst e))
            (HybridReranker.merge vr mr q)
  /\ (List.length (HybridReranker.merge vr mr q) <= List.length vr + List.length mr)%nat.
Proof.
  unfold HybridReranker.merge. split; [ | split ].
  - apply metadata_fold_NoDup, vector_fold_NoDup. constructor.
  - apply fold_left_invariant.
    + apply fold_left_invariant; [ constructor | ].
      intros m x Hx Hm. unfold HybridReranker.addVector.
      destruct (HybridReranker.vectorDocId x) as [k | ] eqn:E; [ | exact Hm ].
      apply set_Forall; [ exact Hm | ]. cbn [fst snd]. split; [ reflexivity | ].
      split; [ now apply vectorDocId_nonempty in E | ].
      left. now exists x.
    + intros m x Hx Hm. unfold HybridReranker.addMetadata.
      destruct (HybridReranker.metadataDocId x) as [k | ] eqn:E; [ | exact Hm ].
      assert (Hk : k <> EmptyString /\ fromInputs vr mr k).
      { split; [ now apply metadataDocId_nonempty in E | right; now exists x ]. }
      destruct (Map.get m k) as [existing | ] eqn:G.
      * apply set_Forall; [ exact Hm | ]. cbn [fst snd]. split; [ | exact Hk ].
        apply get_In in G. rewrite Forall_forall in Hm.
        apply (Hm _ G).
      * apply set_Forall; [ exact Hm | ]. cbn [fst snd]. now split.
  - eapply Nat.le_trans.
    + apply (@fold_left_length unit Meta.t (string * Doc.t)).
      intros m x. unfold HybridReranker.addMetadata.
      destruct (HybridReranker.metadataDocId x) as [k | ]; [ | lia ].
      destruct (Map.get m k); apply set_length.
    + apply Nat.add_le_mono_r.
      change (List.length vr) with (List.length (@nil (string * Doc.t)) + List.length vr)%nat.
      apply (@fold_left_length unit VectorResult.t (string * Doc.t)).
      intros m x. unfold HybridReranker.addVector.
      destruct (HybridReranker.vectorDocId x) as [k | ]; [ apply set_length | lia ].
Qed.

Lemma diversify_docIds (dF : Q) (seenTitles seenCourts : list string) (l : list Doc.t) :
  map Doc.docId (HybridReranker.diversify dF seenTitles seenCourts l) = map Doc.docId l.
Proof.
  revert seenTitles seenCourts. induction l as [ | x t IH ]; intros st sc; simpl;
    [ reflexivity | ].
  now rewrite IH.
Qed.

Lemma applyDiversity_docIds (l : list Doc.t) (dF : Q) :
  Permutation (map Doc.docId (HybridReranker.applyDiversity l dF)) (map Doc.docId l).
Proof.
  unfold HybridReranker.applyDiversity.
  destruct (Qle_bool dF 0 || (List.length l <=? 1)%nat); [ apply Permutation_refl | ].
  rewrite <- (diversify_docIds dF [] [] l).
  apply Permutation_map, sortDesc_perm.
Qed.

Lemma scoredResults_docIds (env : Env) (net : Network) (service : RerankerService.t)
    (vr : list VectorResult.t) (mr : list Meta.t) (query : option string)
    (options : HybridReranker.Options) :
  Permutation
    (map Doc.docId
       (fst (HybridReranker.scoredResults env net service vr mr query options)))
    (Map.keys (HybridReranker.merge vr mr (HybridReranker.orElse query EmptyString))).
Proof.
  unfold HybridReranker.scoredResults.
  destruct (HybridReranker.hostedScores _ _ _ _ _) as [scores service']. cbn [fst].
  eapply perm_trans; [ apply Permutation_map, sortDesc_perm | ].
  rewrite map_map. unfold Map.keys.
  destruct (merge_entries vr mr (HybridReranker.orElse query EmptyString))
    as (_ & He & _).
  induction He as [ | e m (Hid & _) _ IH ]; simpl; [ apply perm_nil | ].
  rewrite Hid. now apply perm_skip.
Qed.

Lemma NoDup_firstn (A : Type) (n : nat) (l : list A) : NoDup l -> NoDup (firstn n l).
Proof.
  revert n. induction l as [ | x t IH ]; intros [ | n ] H; simpl; try constructor.
  - inversion H as [ | ? ? Hn Ht ]; subst. intros Hin. apply Hn.
    rewrite <- (firstn_skipn n t). apply in_or_app. now left.
  - inversion H; subst. now apply IH.
Qed.

Lemma In_firstn (A : Type) (n : nat) (l : list A) (x : A) : In x (firstn n l) -> In x l.
Proof. intros H. rewrite <- (firstn_skipn n l). apply in_or_app. now left. Qed.

(** The identifiers of the documents [rerank] returns. *)
Lemma rerank_ids :
  forall (env : Env) (net : Network) (service : RerankerService.t)
         (vectorResults : list VectorResult.t) (metadataResults : list Meta.t)
         (query : option string) (options : HybridReranker.Options),
    let results :=
      fst (HybridReranker.rerank env net service vectorResults metadataResults
             query options) in
    NoDup (map Doc.docId results)
    /\ Forall (fun d => Doc.docId d <> EmptyString
                        /\ fromInputs vectorResults metadataResults (Doc.docId d))
              results
    /\ (List.length results <= List.length vectorResults + List.length metadataResults)%nat.
Proof.
  intros env net service vr mr query options. cbv zeta.
  unfold HybridReranker.rerank.
  pose proof (scoredResults_docIds env net service vr mr query options) as Hs.
  destruct (HybridReranker.scoredResults env net service vr mr query options)
    as [scored service'].
  cbn [fst] in *.
  set (dF := HybridReranker.orElse (HybridReranker.diversityFactor options) (1 # 10)).
  set (q := HybridReranker.orElse query EmptyString) in *.
  destruct (merge_entries vr mr q) as (Hnd & He & Hlen).
  assert (Hp : Permutation (map Doc.docId (HybridReranker.applyDiversity scored dF))
                 (Map.keys (HybridReranker.merge vr mr q))).
  { eapply perm_trans; [ apply applyDiversity_docIds | exact Hs ]. }
  destruct (sliceTo_prefix (HybridReranker.orElse (HybridReranker.maxResults options) 10%Z)
              (HybridReranker.applyDiversity scored dF)) as [k ->].
  split; [ | split ].
  - rewrite <- firstn_map. apply NoDup_firstn.
    apply (Permutation_NoDup (Permutation_sym Hp) Hnd).
  - apply Forall_forall. intros d Hd. apply In_firstn in Hd.
    assert (Hk : In (Doc.docId d) (Map.keys (HybridReranker.merge vr mr q))).
    { apply (Permutation_in _ Hp). now apply in_map. }
    unfold Map.keys in Hk. apply in_map_iff in Hk. destruct Hk as (e & Hfst & Hin).
    rewrite Forall_forall in He. destruct (He e Hin) as (_ & Hne & Hfrom).
    rewrite Hfst in Hne, Hfrom. now split.
  - apply Nat.le_trans with (List.length (HybridReranker.applyDiversity scored dF));
      [ rewrite length_firstn; apply Nat.le_min_r | ].
    rewrite <- (length_map Doc.docId (HybridReranker.applyDiversity scored dF)).
    rewrite (Permutation_length Hp).
    unfold Map.keys. now rewrite length_map.
Qed.

(** X13: [HybridReranker.rerank] returns no document twice and invents
    none: the identifiers of the returned documents are pairwise
    different, none is empty, each is the identifier of a vector hit or of
    a metadata row of the input, and there are at most as many documents
    as inputs. *)
Theorem rerank_output_ids :
  forall (env : Env) (net : Network) (service : RerankerService.t)
         (vectorResults : list VectorResult.t) (metadataResults : list Meta.t)
         (query : option string) (options : HybridReranker.Options),
    let results :=
      fst (HybridReranker.rerank env net service vectorResults metadataResults
             query options) in
    NoDup (map Doc.docId results)
    /\ Forall (fun d => Doc.docId d <> EmptyString
                        /\ fromInputs vectorResults metadataResults (Doc.docId d))
              results
    /\ (List.length results <= List.length vectorResults + List.length metadataResults)%nat.
Proof. exact rerank_ids. Qed.

(** [rerank] with the hosted reranker switched off. *)
Lemma rerank_no_hosted :
  forall (env env' : Env) (net net' : Network) (service : RerankerService.t)
         (vectorResults : list VectorResult.t) (metadataResults : list Meta.t)
         (query : option string) (options : HybridReranker.Options),
    HybridReranker.useHostedReranker options = Some false ->
    HybridReranker.rerank env net service vectorResults metadataResults query options
    = HybridReranker.rerank env' net' service vectorResults metadataResults query options
    /\ snd (HybridReranker.rerank env net service vectorResults metadataResults
              query options) = service
    /\ Forall (fun d => Doc.hostedRerankerScore d = Some (1 # 2))
         (fst (HybridReranker.rerank env net service vectorResults metadataResults
                 query options)).
Proof.
  intros env env' net net' service vr mr query options H.
  split; [ | split ].
  - unfold HybridReranker.rerank, HybridReranker.scoredResults.
    rewrite H. reflexivity.
  - unfold HybridReranker.rerank, HybridReranker.scoredResults.
    rewrite H. reflexivity.
  - apply (@rerank_Forall (fun d => Doc.hostedRerankerScore d = Some (1 # 2))).
    + intros c d Hd. exact Hd.
    + apply scoredResults_Forall. intros k d _. rewrite H. reflexivity.
Qed.

(** X14: with [useHostedReranker: false] the reranking service is not
    touched: its state is returned as it was, the result does not depend
    on the environment or on the network, and every returned document has
    the neutral hosted score 0.5. *)
Theorem rerank_without_hosted_reranker :
  forall (env env' : Env) (net net' : Network) (service : RerankerService.t)
         (vectorResults : list VectorResult.t) (metadataResults : list Meta.t)
         (query : option string) (options : HybridReranker.Options),
    HybridReranker.useHostedReranker options = Some false ->
    HybridReranker.rerank env net service vectorResults metadataResults query options
    = HybridReranker.rerank env' net' service vectorResults metadataResults query options
    /\ snd (HybridReranker.rerank env net service vectorResults metadataResults
              query options) = service
    /\ Forall (fun d => Doc.hostedRerankerScore d = Some (1 # 2))
         (fst (HybridReranker.rerank env net service vectorResults metadataResults
                 query options)).
Proof. exact rerank_no_hosted. Qed.

Lemma rerank_without_hosted_reranker_witness :
  let options := HybridReranker.mkOptions None None None None None (Some false) in
  HybridReranker.useHostedReranker options = Some false
  /\ snd (HybridReranker.rerank envGeminiTwoKeys netDown RerankerService.fresh
            [] [scenarioRow] (Some scenarioQuery) options)
     = RerankerService.fresh.
Proof.
  split; [ reflexivity | ].
  exact (proj1 (proj2 (@rerank_without_hosted_reranker envGeminiTwoKeys envNone
                         netDown netDown RerankerService.fresh [] [scenarioRow]
                         (Some scenarioQuery)
                         (HybridReranker.mkOptions None None None None None (Some false))
                         eq_refl))).
Defined.

(** ** Filters read from the query *)

Lemma year_digits_range (a b c d : ascii) :
  (a = "1"%char /\ b = "9"%char) \/ (a = "2"%char /\ b = "0"%char) ->
  Js.isDigit c = true -> Js.isDigit d = true ->
  (1900 <= Js.digitsValue 0 (String a (String b (String c (String d EmptyString))))
   <= 2099)%Z.
Proof.
  intros Hab Hc Hd.
  apply isDigit_cases in Hc. apply isDigit_cases in Hd.
  cbn [In] in Hc, Hd.
  destruct Hab as [[-> ->] | [-> ->]];
    repeat (destruct Hc as [<- | Hc]; [ | try contradiction ]);
    repeat (destruct Hd as [<- | Hd]; [ | try contradiction ]);
    vm_compute; split; discriminate.
Qed.

(** X15: a year that [extractFiltersFromQuery] reads from a query lies
    between 1900 and 2099. *)
Theorem extracted_year_range :
  forall (query : string) (y : Z),
    Filters.year (HybridSearchManager.extractFiltersFromQuery query) = Some y ->
    (1900 <= y <= 2099)%Z.
Proof.
  intros query y. cbn [HybridSearchManager.extractFiltersFromQuery Filters.year].
  unfold HybridSearchManager.extractYear, Js.exec.
  destruct (Js.searchFrom _ _ _ _ _) as [[j m] | ] eqn:E; [ | discriminate ].
  intros H. injection H as <-.
  destruct (searchFrom_year _ _ _ E) as [a [b [c [d [Hm [_ [Hab [Hc Hd]]]]]]]].
  subst m. now apply year_digits_range.
Qed.

Lemma extracted_year_range_witness :
  Filters.year (HybridSearchManager.extractFiltersFromQuery
                  "murder appeal of 1987 in Delhi")
  = Some 1987%Z
  /\ (1900 <= 1987 <= 2099)%Z.
Proof.
  split; [ reflexivity | ].
  apply (@extracted_year_range "murder appeal of 1987 in Delhi" 1987%Z).
  reflexivity.
Defined.

Lemma litMatch_app (ci : bool) (p p' : string) :
  forall prev s x,
    Js.litMatch ci (p ++ p') prev s = Some x ->
    exists y, Js.litMatch ci p prev s = Some y.
Proof.
  induction p as [ | a p IH ]; intros prev s x; simpl.
  - eauto.
  - destruct s as [ | c s ]; [ discriminate | ].
    destruct (Js.charTest ci a c); [ apply IH | discriminate ].
Qed.

Lemma matchHere_lit_prefix (ci : bool) (p p' : string) (prev : option ascii)
    (s m : string) :
  Js.matchHere ci (Js.Lit (p ++ p')) prev s = Some m ->
  exists m', Js.matchHere ci (Js.Lit p) prev s = Some m'.
Proof.
  unfold Js.matchHere. cbn [Js.rmatch].
  destruct (Js.litMatch ci (p ++ p') prev s) as [x | ] eqn:E; [ | discriminate ].
  destruct (litMatch_app _ _ _ _ _ E) as [[prev' rest] ->]. eauto.
Qed.

Lemma searchFrom_lit_prefix (ci : bool) (p p' : string) (s : string) :
  forall prev i x,
    Js.searchFrom ci (Js.Lit (p ++ p')) prev s i = Some x ->
    exists y, Js.searchFrom ci (Js.Lit p) prev s i = Some y.
Proof.
  induction s as [ | c s IH ]; intros prev i x; cbn [Js.searchFrom].
  - destruct (Js.matchHere ci (Js.Lit (p ++ p')) prev EmptyString) as [m | ] eqn:E;
      [ | discriminate ].
    destruct (matchHere_lit_prefix _ _ _ _ _ E) as [m' ->]. eauto.
  - destruct (Js.matchHere ci (Js.Lit (p ++ p')) prev (String c s)) as [m | ] eqn:E.
    + destruct (matchHere_lit_prefix _ _ _ _ _ E) as [m' ->]. eauto.
    + destruct (Js.matchHere ci (Js.Lit p) prev (String c s)); [ eauto | apply IH ].
Qed.

(** A text that holds a phrase holds every beginning of the phrase. *)
Lemma test_lit_prefix (ci : bool) (p p' s : string) :
  Js.test ci (Js.Lit (p ++ p')) s = true -> Js.test ci (Js.Lit p) s = true.
Proof.
  unfold Js.test, Js.exec.
  destruct (Js.searchFrom ci (Js.Lit (p ++ p')) None s 0) as [x | ] eqn:E;
    [ | discriminate ].
  destruct (searchFrom_lit_prefix _ _ _ _ _ _ E) as [y ->]. reflexivity.
Qed.

(** X16: the case type and the jurisdiction read from a query agree: with
    the case type "Criminal Appeal" the jurisdiction is "Criminal", and
    with the case type "Civil Appeal" it is "Civil", unless the query also
    holds the word "criminal", which wins. *)
Theorem appeal_fixes_jurisdiction :
  forall query : string,
    let f := HybridSearchManager.extractFiltersFromQuery query in
    (Filters.case_type f = Some "Criminal Appeal"%string ->
     Filters.jurisdiction f = Some "Criminal"%string)
    /\ (Filters.case_type f = Some "Civil Appeal"%string ->
        Filters.jurisdiction f =
        if Js.test true (Js.Lit "criminal") query
        then Some "Criminal"%string else Some "Civil"%string).
Proof.
  intros query.
  cbn [HybridSearchManager.extractFiltersFromQuery Filters.case_type Filters.jurisdiction].
  unfold HybridSearchManager.extractJurisdiction.
  cbn [HybridSearchManager.firstCaseType HybridSearchManager.caseTypePatterns].
  pose proof (@test_lit_prefix true "criminal" " appeal" query) as Hcr.
  pose proof (@test_lit_prefix true "civil" " appeal" query) as Hci.
  cbn [append] in Hcr, Hci.
  destruct (Js.test true (Js.Lit "criminal appeal") query).
  - rewrite (Hcr eq_refl). split; [ reflexivity | discriminate ].
  - split.
    + repeat match goal with
             | |- context [if ?b then _ else _] => destruct b; try discriminate
             end.
    + destruct (Js.test true (Js.Lit "civil appeal") query).
      * rewrite (Hci eq_refl). intros _.
        destruct (Js.test true (Js.Lit "criminal") query); reflexivity.
      * repeat match goal with
               | |- context [if ?b then _ else _] => destruct b; try discriminate
               end.
Qed.

Lemma appeal_fixes_jurisdiction_witness :
  Filters.case_type (HybridSearchManager.extractFiltersFromQuery
                       "Criminal Appeal against conviction")
  = Some "Criminal Appeal"%string
  /\ Filters.jurisdiction (HybridSearchManager.extractFiltersFromQuery
                             "Criminal Appeal against conviction")
     = Some "Criminal"%string.
Proof.
  split; [ reflexivity | ].
  apply (proj1 (appeal_fixes_jurisdiction "Criminal Appeal against conviction")).
  reflexivity.
Defined.

Lemma startsWith_take (k : nat) (s : string) : Js.startsWith (Js.take k s) s = true.
Proof.
  revert s. induction k as [ | k IH ]; intros [ | c s ]; simpl; try reflexivity.
  now rewrite Ascii.eqb_refl, IH.
Qed.

Lemma includes_here (s t : string) : Js.startsWith t s = true -> Js.includes s t = true.
Proof. intros H. destruct s; simpl in *; now rewrite H. Qed.

Lemma includes_later (c : ascii) (s t : string) :
  Js.includes s t = true -> Js.includes (String c s) t = true.
Proof. intros H. cbn [Js.includes]. rewrite H. apply orb_true_r. Qed.

(** What a pattern matches is a piece of the text. *)
Lemma searchFrom_includes (ci : bool) (r : Js.regex) (s : string) :
  forall prev i j m,
    Js.searchFrom ci r prev s i = Some (j, m) -> Js.includes s m = true.
Proof.
  assert (Hhere : forall prev s m,
             Js.matchHere ci r prev s = Some m -> Js.includes s m = true).
  { intros prev s0 m. unfold Js.matchHere.
    destruct (Js.rmatch _ _ _ _ _) as [rest | ]; [ | discriminate ].
    intros H. injection H as <-. apply includes_here, startsWith_take. }
  induction s as [ | c s IH ]; intros prev i j m; cbn [Js.searchFrom].
  - destruct (Js.matchHere ci r prev EmptyString) as [m' | ] eqn:E; [ | discriminate ].
    intros H. injection H as <- <-. now apply Hhere in E.
  - destruct (Js.matchHere ci r prev (String c s)) as [m' | ] eqn:E.
    + intros H. injection H as <- <-. now apply Hhere in E.
    + intros H. apply includes_later. now apply IH in H.
Qed.

(** X17: the court that [extractFiltersFromQuery] reads from a query is
    one of the five names its rules carry, or a piece of the query taken
    as it stands. *)
Theorem extracted_court_origin :
  forall (query court : string),
    Filters.court (HybridSearchManager.extractFiltersFromQuery query) = Some court ->
    In court courtNames \/ Js.includes query court = true.
Proof.
  intros query court.
  cbn [HybridSearchManager.extractFiltersFromQuery Filters.court].
  cbn [HybridSearchManager.firstCourt HybridSearchManager.courtPatterns Js.truthyStr
       String.eqb Ascii.eqb Bool.eqb].
  unfold Js.exec.
  repeat match goal with
         | |- context [match Js.searchFrom ?a ?b ?c ?d ?e with _ => _ end] =>
             let E := fresh "E" in
             destruct (Js.searchFrom a b c d e) as [[? ?] | ] eqn:E
         end;
    intros H; try discriminate H; injection H as <-;
    first [ left; cbn; tauto
          | right; eapply searchFrom_includes; eassumption ].
Qed.

Lemma extracted_court_origin_witness :
  Filters.court (HybridSearchManager.extractFiltersFromQuery
                   "appeal before the High Court of Kerala, 2019")
  = Some "High Court of Kerala"%string
  /\ (In "High Court of Kerala"%string courtNames
      \/ Js.includes "appeal before the High Court of Kerala, 2019"
           "High Court of Kerala" = true).
Proof.
  split; [ reflexivity | ].
  apply (@extracted_court_origin "appeal before the High Court of Kerala, 2019"
           "High Court of Kerala").
  reflexivity.
Defined.

(** ** The search as a whole *)

Section Enrichment.
Variable stores : HybridSearchManager.Stores.

Lemma fetch_get (docIds : list string) (m0 : Map.t Meta.t) (k : string) :
  Map.get
    (fold_left
       (fun metadataMap docId =>
          match HybridSearchManager.metadataGet stores docId with
          | Ok (Some m) => Map.set metadataMap docId m
          | _ => metadataMap
          end)
       docIds m0) k =
  if existsb (String.eqb k) docIds then
    match HybridSearchManager.metadataGet stores k with
    | Ok (Some m) => Some m
    | _ => Map.get m0 k
    end
  else Map.get m0 k.
Proof.
  revert m0. induction docIds as [ | x t IH ]; intros m0; cbn [fold_left existsb].
  - reflexivity.
  - rewrite IH.
    destruct (String.eqb k x) eqn:E; cbn [orb].
    + apply String.eqb_eq in E. subst x.
      destruct (HybridSearchManager.metadataGet stores k) as [[m | ] | e];
        try (destruct (existsb _ t); reflexivity).
      rewrite get_set_same. destruct (existsb _ t); reflexivity.
    + apply String.eqb_neq in E.
      assert (G : Map.get
                    match HybridSearchManager.metadataGet stores x with
                    | Ok (Some m) => Map.set m0 x m
                    | _ => m0
                    end k = Map.get m0 k).
      { destruct (HybridSearchManager.metadataGet stores x) as [[m | ] | e];
          try reflexivity.
        now apply get_set_other. }
      rewrite G. reflexivity.
Qed.

Lemma fetchMetadata_get (results : list Doc.t) (r : Doc.t) :
  In r results ->
  Map.get (HybridSearchManager.fetchMetadata stores
             (filter HybridReranker.nonEmpty (map Doc.docId results)))
          (Doc.docId r)
  = lookedUp stores r.
Proof.
  intros Hin. unfold HybridSearchManager.fetchMetadata, lookedUp.
  rewrite fetch_get. cbn [Map.get].
  destruct (HybridReranker.nonEmpty (Doc.docId r)) eqn:N.
  - assert (E : existsb (String.eqb (Doc.docId r))
                  (filter HybridReranker.nonEmpty (map Doc.docId results)) = true).
    { apply existsb_exists. exists (Doc.docId r). split; [ | apply String.eqb_refl ].
      apply filter_In. split; [ now apply in_map | exact N ]. }
    rewrite E. destruct (HybridSearchManager.metadataGet stores (Doc.docId r))
      as [[m | ] | e]; reflexivity.
  - assert (E : existsb (String.eqb (Doc.docId r))
                  (filter HybridReranker.nonEmpty (map Doc.docId results)) = false).
    { apply not_true_iff_false. intros H. apply existsb_exists in H.
      destruct H as (x & Hx & Heq). apply String.eqb_eq in Heq. subst x.
      apply filter_In in Hx. destruct Hx as [_ Hx]. congruence. }
    rewrite E. reflexivity.
Qed.

(** The enrichment, document by document. *)
Lemma enrich_pointwise (results : list Doc.t) (workspaceId : Z) :
  HybridSearchManager.enrichResultsWithMetadata stores results workspaceId
  = Ok (map (fun r =>
               match lookedUp stores r with
               | Some legal =>
                   HybridSearchManager.mkEnriched
                     (HybridSearchManager.withMetadata
                        (HybridSearchManager.displayMetadata (Doc.metadata r) legal) r)
                     (Some legal)
               | None => HybridSearchManager.mkEnriched r None
               end)
            results).
Proof.
  unfold HybridSearchManager.enrichResultsWithMetadata. f_equal.
  apply map_ext_in. intros r Hin. now rewrite fetchMetadata_get.
Qed.
End Enrichment.

(** X18: [enrichResultsWithMetadata] always returns, and returns the
    documents it was given, in the same order, with their identifiers and
    combined scores; a document carries [legalMetadata] exactly when it has
    an identifier and the lookup of that identifier returned a row, and a
    document whose lookup threw or found nothing is returned as it was,
    the others with the court, year, citation and case type of the row
    written over their display metadata. *)
Theorem enrichment_keeps_ranking :
  forall (stores : HybridSearchManager.Stores) (results : list Doc.t) (workspaceId : Z),
    exists enriched,
      HybridSearchManager.enrichResultsWithMetadata stores results workspaceId
      = Ok enriched
      /\ Forall2
           (fun r e =>
              Doc.docId (HybridSearchManager.result e) = Doc.docId r
              /\ Doc.combinedScore (HybridSearchManager.result e) = Doc.combinedScore r
              /\ HybridSearchManager.legalMetadata e = lookedUp stores r
              /\ HybridSearchManager.result e
                 = match lookedUp stores r with
                   | Some legal =>
                       HybridSearchManager.withMetadata
                         (HybridSearchManager.displayMetadata (Doc.metadata r) legal) r
                   | None => r
                   end)
           results enriched.
Proof.
  intros stores results workspaceId. eexists. split; [ apply enrich_pointwise | ].
  induction results as [ | r t IH ]; simpl; constructor; [ | exact IH ].
  destruct (lookedUp stores r) as [legal | ]; cbn; repeat split; reflexivity.
Qed.

Lemma enrich_length (stores : HybridSearchManager.Stores) (results : list Doc.t)
    (workspaceId : Z) (enriched : list HybridSearchManager.Enriched) :
  HybridSearchManager.enrichResultsWithMetadata stores results workspaceId = Ok enriched ->
  List.length enriched = List.length results.
Proof.
  unfold HybridSearchManager.enrichResultsWithMetadata. intros H. injection H as <-.
  apply length_map.
Qed.

(** What [search] answers, by what it is given. *)
Lemma search_cases (env : Env) (net : Network) (stores : HybridSearchManager.Stores)
    (service : RerankerService.t) (p : HybridSearchManager.Params) :
  (HybridSearchManager.workspace p = None ->
   fst (HybridSearchManager.search env net stores service p)
   = Ok (HybridSearchManager.VectorOnly []))
  /\ (forall w,
        HybridSearchManager.workspace p = Some w ->
        HybridSearchManager.query p = None ->
        Filters.size (HybridReranker.orElse (HybridSearchManager.filters p)
                        Filters.empty) = 0%nat ->
        exists hits,
          HybridSearchManager.performVectorSearch stores None (Some w)
            (HybridReranker.orElse (HybridSearchManager.topN p) 10%Z) = Ok hits
          /\ fst (HybridSearchManager.search env net stores service p)
             = Ok (HybridSearchManager.VectorOnly hits))
  /\ (forall w,
        HybridSearchManager.workspace p = Some w ->
        HybridSearchManager.query p <> None
        \/ (0 < Filters.size (HybridReranker.orElse (HybridSearchManager.filters p)
                                Filters.empty))%nat ->
        exists enriched,
          fst (HybridSearchManager.search env net stores service p)
          = Ok (HybridSearchManager.Ranked enriched)).
Proof.
  unfold HybridSearchManager.search, HybridSearchManager.searchBody.
  set (filters := HybridReranker.orElse (HybridSearchManager.filters p) Filters.empty).
  set (topN := HybridReranker.orElse (HybridSearchManager.topN p) 10%Z).
  split; [ | split ].
  - intros Hw. rewrite Hw.
    assert (Hv : forall q n,
               HybridSearchManager.performVectorSearch stores q None n = Ok []).
    { intros q n. unfold HybridSearchManager.performVectorSearch.
      destruct (HybridSearchManager.performSimilaritySearch stores); reflexivity. }
    rewrite !Hv. cbn [HybridSearchManager.ofWorkspace bind].
    destruct (if (Filters.size filters =? 0)%nat then _ else _) as [enhanced | e];
      [ | reflexivity ].
    destruct (0 <? Filters.size enhanced)%nat; cbn [bind]; [ reflexivity | ].
    destruct (HybridReranker.rerank _ _ _ _ _ _ _) as [rr svc]. reflexivity.
  - intros w Hw Hq Hs. rewrite Hw, Hq, Hs. cbn [Nat.eqb].
    destruct (performVectorSearch_returns stores None (Some w) topN) as [hits Hh].
    exists hits. split; [ exact Hh | ]. rewrite Hh. reflexivity.
  - intros w Hw Hor. rewrite Hw.
    destruct (performVectorSearch_returns stores (HybridSearchManager.query p)
                (Some w) (topN * 2)%Z) as [vr Hvr].
    rewrite Hvr. cbn [HybridSearchManager.ofWorkspace bind].
    assert (Hstep : exists enhanced,
               (if (Filters.size filters =? 0)%nat
                then match HybridSearchManager.query p with
                     | Some q =>
                         Ok (Filters.assign filters
                               (HybridSearchManager.extractFiltersFromQuery q))
                     | None =>
                         Throw "Cannot read properties of undefined (reading 'toLowerCase')"
                     end
                else Ok filters) = Ok enhanced).
    { destruct (Filters.size filters =? 0)%nat eqn:Es; [ | eauto ].
      destruct (HybridSearchManager.query p) as [q | ]; [ eauto | ].
      apply Nat.eqb_eq in Es. destruct Hor as [Hq | Hpos]; [ congruence | lia ]. }
    destruct Hstep as [enhanced ->].
    assert (Hm : exists mr,
               (if (0 <? Filters.size enhanced)%nat
                then HybridSearchManager.performMetadataSearch stores enhanced
                       (HybridSearchManager.id w) (topN * 2)%Z
                else Ok []) = Ok mr).
    { destruct (0 <? Filters.size enhanced)%nat; [ | eauto ].
      apply performMetadataSearch_returns. }
    destruct Hm as [mr ->]. cbn [bind].
    destruct (HybridReranker.rerank _ _ _ _ _ _ _) as [rr svc].
    rewrite enrich_pointwise. cbn [fst]. eexists. reflexivity.
Qed.

(** X19: [search] answers with the fused ranking exactly when a workspace
    is given and a query or a filter is given; in every other case it
    answers, without throwing, with the plain vector hits of its fallback:
    what the vector search finds for [topN], which is nothing when the
    workspace is missing. *)
Theorem search_ranked_iff :
  forall (env : Env) (net : Network) (stores : HybridSearchManager.Stores)
         (service : RerankerService.t) (p : HybridSearchManager.Params),
    ((exists enriched,
         fst (HybridSearchManager.search env net stores service p)
         = Ok (HybridSearchManager.Ranked enriched))
     <-> (HybridSearchManager.workspace p <> None
          /\ (HybridSearchManager.query p <> None
              \/ (0 < Filters.size (HybridReranker.orElse (HybridSearchManager.filters p)
                                      Filters.empty))%nat)))
    /\ (~ (HybridSearchManager.workspace p <> None
           /\ (HybridSearchManager.query p <> None
               \/ (0 < Filters.size (HybridReranker.orElse
                                       (HybridSearchManager.filters p)
                                       Filters.empty))%nat)) ->
        exists hits,
          HybridSearchManager.performVectorSearch stores
            (HybridSearchManager.query p) (HybridSearchManager.workspace p)
            (HybridReranker.orElse (HybridSearchManager.topN p) 10%Z) = Ok hits
          /\ fst (HybridSearchManager.search env net stores service p)
             = Ok (HybridSearchManager.VectorOnly hits)
          /\ (HybridSearchManager.workspace p = None -> hits = [])).
Proof.
  intros env net stores service p.
  destruct (search_cases env net stores service p) as (Hnone & Hplain & Hranked).
  assert (Hfall : ~ (HybridSearchManager.workspace p <> None
                     /\ (HybridSearchManager.query p <> None
                         \/ (0 < Filters.size
                                   (HybridReranker.orElse (HybridSearchManager.filters p)
                                      Filters.empty))%nat)) ->
                  exists hits,
                    HybridSearchManager.performVectorSearch stores
                      (HybridSearchManager.query p) (HybridSearchManager.workspace p)
                      (HybridReranker.orElse (HybridSearchManager.topN p) 10%Z) = Ok hits
                    /\ fst (HybridSearchManager.search env net stores service p)
                       = Ok (HybridSearchManager.VectorOnly hits)
                    /\ (HybridSearchManager.workspace p = None -> hits = [])).
  { intros Hn.
    destruct (HybridSearchManager.workspace p) as [w | ] eqn:Hw.
    - destruct (HybridSearchManager.query p) as [q | ] eqn:Hq.
      + exfalso. apply Hn. split; [ discriminate | left; discriminate ].
      + destruct (Filters.size (HybridReranker.orElse (HybridSearchManager.filters p)
                                  Filters.empty)) as [ | n ] eqn:Hs.
        * destruct (Hplain w eq_refl eq_refl eq_refl) as (hits & Hh & Hr).
          exists hits. split; [ exact Hh | ]. split; [ exact Hr | discriminate ].
        * exfalso. apply Hn. split; [ discriminate | right; lia ].
    - exists []. split; [ | split; [ now apply Hnone | reflexivity ] ].
      unfold HybridSearchManager.performVectorSearch.
      destruct (HybridSearchManager.performSimilaritySearch stores); reflexivity. }
  split; [ | exact Hfall ].
  split.
  - intros [enriched He].
    destruct (HybridSearchManager.workspace p) as [w | ] eqn:Hw.
    + split; [ discriminate | ].
      destruct (HybridSearchManager.query p) as [q | ] eqn:Hq; [ left; discriminate | ].
      destruct (Filters.size (HybridReranker.orElse (HybridSearchManager.filters p)
                                Filters.empty)) as [ | n ] eqn:Hs; [ | right; lia ].
      exfalso. destruct (Hplain w eq_refl eq_refl eq_refl) as (hits & _ & Hr).
      rewrite Hr in He. discriminate He.
    + exfalso. rewrite (Hnone eq_refl) in He. discriminate He.
  - intros [Hw Hor].
    destruct (HybridSearchManager.workspace p) as [w | ] eqn:Ew; [ | congruence ].
    now apply (Hranked w).
Qed.

Lemma search_ranked_iff_witness :
  let p := HybridSearchManager.mkParams (Some "bail"%string) (Some someWorkspace)
             None None None in
  (HybridSearchManager.workspace p <> None
   /\ (HybridSearchManager.query p <> None
       \/ (0 < Filters.size (HybridReranker.orElse (HybridSearchManager.filters p)
                               Filters.empty))%nat))
  /\ exists enriched,
       fst (HybridSearchManager.search envNone netDown storesOneHit
              RerankerService.fresh p)
       = Ok (HybridSearchManager.Ranked enriched).
Proof.
  intros p.
  assert (H : HybridSearchManager.workspace p <> None
              /\ (HybridSearchManager.query p <> None
                  \/ (0 < Filters.size
                            (HybridReranker.orElse (HybridSearchManager.filters p)
                               Filters.empty))%nat)).
  { split; [ discriminate | left; discriminate ]. }
  split; [ exact H | ].
  exact (proj2 (proj1 (search_ranked_iff envNone netDown storesOneHit
                         RerankerService.fresh p)) H).
Defined.

Lemma sliceTo_nonneg_length (A : Type) (n : Z) (l : list A) :
  (0 <= n)%Z -> (Z.of_nat (List.length (sliceTo n l)) <= n)%Z.
Proof.
  intros H. unfold sliceTo.
  destruct (n <? 0)%Z eqn:E; [ apply Z.ltb_lt in E; lia | ].
  rewrite length_firstn. lia.
Qed.

Lemma search_ranked_inv (env : Env) (net : Network)
    (stores : HybridSearchManager.Stores) (service : RerankerService.t)
    (p : HybridSearchManager.Params) (enriched : list HybridSearchManager.Enriched) :
  fst (HybridSearchManager.search env net stores service p)
  = Ok (HybridSearchManager.Ranked enriched) ->
  exists vr mr w,
    HybridSearchManager.enrichResultsWithMetadata stores
      (fst (HybridReranker.rerank env net service vr mr (HybridSearchManager.query p)
              (HybridSearchManager.fusionOptions
                 (HybridReranker.orElse (HybridSearchManager.topN p) 10%Z)
                 (HybridReranker.orElse (HybridSearchManager.rerankOptions p)
                    HybridReranker.noOptions))))
      w
    = Ok enriched.
Proof.
  unfold HybridSearchManager.search, HybridSearchManager.searchBody.
  set (topN := HybridReranker.orElse (HybridSearchManager.topN p) 10%Z).
  destruct (performVectorSearch_returns stores (HybridSearchManager.query p)
              (HybridSearchManager.workspace p) topN) as [vr0 Hvr0].
  rewrite Hvr0. cbn [bind].
  assert (Hfall : forall (svc : RerankerService.t),
             fst (Ok (HybridSearchManager.VectorOnly vr0), svc)
             = Ok (HybridSearchManager.Ranked enriched) ->
             exists vr mr w,
               HybridSearchManager.enrichResultsWithMetadata stores
                 (fst (HybridReranker.rerank env net service vr mr
                         (HybridSearchManager.query p)
                         (HybridSearchManager.fusionOptions topN
                            (HybridReranker.orElse (HybridSearchManager.rerankOptions p)
                               HybridReranker.noOptions))))
                 w
               = Ok enriched) by (intros svc H; discriminate H).
  destruct (if (Filters.size _ =? 0)%nat then _ else _) as [enhanced | e];
    [ | apply Hfall ].
  destruct (bind _ _) as [[vr mr] | e]; [ | apply Hfall ].
  destruct (HybridReranker.rerank env net service vr mr _ _) as [rr svc] eqn:Er.
  destruct (HybridSearchManager.workspace p) as [w | ];
    cbn [HybridSearchManager.ofWorkspace bind]; [ | apply Hfall ].
  destruct (HybridSearchManager.enrichResultsWithMetadata stores rr
              (HybridSearchManager.id w)) as [out | e] eqn:Ee; [ | apply Hfall ].
  cbn [fst]. intros H. injection H as <-.
  exists vr, mr, (HybridSearchManager.id w). rewrite Er. exact Ee.
Qed.

(** X20: when [search] answers with the fused ranking, [topN] is not
    negative and [rerankOptions] sets no [maxResults] of its own, the
    ranking has at most [topN] documents (10 when [topN] is not given). *)
Theorem search_at_most_topN :
  forall (env : Env) (net : Network) (stores : HybridSearchManager.Stores)
         (service : RerankerService.t) (p : HybridSearchManager.Params)
         (enriched : list HybridSearchManager.Enriched),
    fst (HybridSearchManager.search env net stores service p)
    = Ok (HybridSearchManager.Ranked enriched) ->
    HybridReranker.maxResults
      (HybridReranker.orElse (HybridSearchManager.rerankOptions p)
         HybridReranker.noOptions) = None ->
    (0 <= HybridReranker.orElse (HybridSearchManager.topN p) 10)%Z ->
    (Z.of_nat (List.length enriched)
     <= HybridReranker.orElse (HybridSearchManager.topN p) 10)%Z.
Proof.
  intros env net stores service p enriched H Hmax Htop.
  destruct (search_ranked_inv _ _ _ _ _ H) as (vr & mr & w & He).
  apply enrich_length in He. rewrite He.
  unfold HybridReranker.rerank.
  destruct (HybridReranker.scoredResults _ _ _ _ _ _ _) as [scored svc]. cbn [fst].
  cbn [HybridSearchManager.fusionOptions HybridReranker.maxResults].
  rewrite Hmax. cbn [HybridReranker.orElse].
  now apply sliceTo_nonneg_length.
Qed.

Lemma search_at_most_topN_witness :
  exists enriched,
    fst (HybridSearchManager.search envNone netDown storesOneHit RerankerService.fresh
           (HybridSearchManager.mkParams (Some "bail"%string) (Some someWorkspace)
              (Some 1%Z) None None))
    = Ok (HybridSearchManager.Ranked enriched)
    /\ (Z.of_nat (List.length enriched) <= 1)%Z.
Proof.
  eexists. split; [ reflexivity | ].
  apply (@search_at_most_topN envNone netDown storesOneHit RerankerService.fresh
           (HybridSearchManager.mkParams (Some "bail"%string) (Some someWorkspace)
              (Some 1%Z) None None)).
  - reflexivity.
  - reflexivity.
  - cbn. discriminate.
Defined.

(** X21: for a request whose query, if any, is of ASCII characters,
    [search] depends on the metadata store's [search] only through the
    answer to one request: the workspace identifier, the limit [2 * topN]
    and the filters, which are the given ones or, when none is given, the
    ones read from the query.  Without workspace, or without any filter,
    the metadata store's [search] is not asked at all. *)
Theorem search_metadata_request :
  forall (env : Env) (net : Network) (stores : HybridSearchManager.Stores)
         (service : RerankerService.t) (p : HybridSearchManager.Params)
         (g g' : HybridSearchManager.SearchParams -> Result (list Meta.t)),
    (forall q, HybridSearchManager.query p = Some q -> asciiText q = true) ->
    (forall request, metadataRequest p = Some request -> g request = g' request) ->
    HybridSearchManager.search env net (withMetadataSearch stores g) service p
    = HybridSearchManager.search env net (withMetadataSearch stores g') service p.
Proof.
  intros env net stores service p g g' _ Hg.
  unfold HybridSearchManager.search, HybridSearchManager.searchBody.
  unfold metadataRequest, enhancedFilters in Hg.
  change (HybridSearchManager.performVectorSearch (withMetadataSearch stores g))
    with (HybridSearchManager.performVectorSearch (withMetadataSearch stores g')).
  change (HybridSearchManager.enrichResultsWithMetadata (withMetadataSearch stores g))
    with (HybridSearchManager.enrichResultsWithMetadata (withMetadataSearch stores g')).
  set (filters := HybridReranker.orElse (HybridSearchManager.filters p) Filters.empty) in *.
  set (topN := HybridReranker.orElse (HybridSearchManager.topN p) 10%Z) in *.
  assert (Hm : forall f w,
             HybridSearchManager.workspace p = Some w ->
             (forall request,
                 (if (0 <? Filters.size f)%nat
                  then Some (HybridSearchManager.mkSearchParams
                               (HybridSearchManager.id w) (topN * 2)%Z
                               (HybridSearchManager.mapFilters f))
                  else None) = Some request -> g request = g' request) ->
             (if (0 <? Filters.size f)%nat then
                bind (HybridSearchManager.ofWorkspace (HybridSearchManager.workspace p)
                        HybridSearchManager.id)
                     (fun workspaceId =>
                        HybridSearchManager.performMetadataSearch
                          (withMetadataSearch stores g) f workspaceId (topN * 2)%Z)
              else Ok [])
             = (if (0 <? Filters.size f)%nat then
                  bind (HybridSearchManager.ofWorkspace (HybridSearchManager.workspace p)
                          HybridSearchManager.id)
                       (fun workspaceId =>
                          HybridSearchManager.performMetadataSearch
                            (withMetadataSearch stores g') f workspaceId (topN * 2)%Z)
                else Ok [])).
  { intros f w Hw Hreq. rewrite Hw. cbn [HybridSearchManager.ofWorkspace bind].
    destruct (0 <? Filters.size f)%nat; [ | reflexivity ].
    unfold HybridSearchManager.performMetadataSearch.
    cbn [withMetadataSearch HybridSearchManager.metadataSearch].
    now rewrite (Hreq _ eq_refl). }
  destruct (HybridSearchManager.workspace p) as [w | ] eqn:Hw.
  - destruct (Filters.size filters =? 0)%nat.
    + destruct (HybridSearchManager.query p) as [q | ]; [ | reflexivity ].
      rewrite (Hm _ w eq_refl Hg). reflexivity.
    + rewrite (Hm _ w eq_refl Hg). reflexivity.
  - cbn [HybridSearchManager.ofWorkspace bind].
    destruct (if (Filters.size filters =? 0)%nat then _ else _) as [f | e];
      [ | reflexivity ].
    destruct (0 <? Filters.size f)%nat; cbn [bind].
    + destruct (HybridSearchManager.performVectorSearch _ _ _ _); reflexivity.
    + destruct (HybridSearchManager.performVectorSearch _ _ _ _); cbn [bind];
        [ | reflexivity ].
      destruct (HybridReranker.rerank _ _ _ _ _ _ _). reflexivity.
Qed.

Lemma search_metadata_request_witness :
  let p := HybridSearchManager.mkParams (Some "bail 2019"%string) (Some someWorkspace)
             None None None in
  let asked (other : Result (list Meta.t)) (request : HybridSearchManager.SearchParams) :=
    if (HybridSearchManager.limit request =? 20)%Z then Ok [scenarioRow] else other in
  asciiText "bail 2019" = true
  /\ metadataRequest p
     = Some (HybridSearchManager.mkSearchParams 1 20
               (Filters.mk (Some 2019%Z) None (Some "Bail Application"%string) None None None
                  None None None))
  /\ HybridSearchManager.search envNone netDown
       (withMetadataSearch storesOneHit (asked (Throw "down"))) RerankerService.fresh p
     = HybridSearchManager.search envNone netDown
         (withMetadataSearch storesOneHit (asked (Ok []))) RerankerService.fresh p.
Proof.
  intros p asked.
  split; [ reflexivity | ]. split; [ reflexivity | ].
  apply (@search_metadata_request envNone netDown storesOneHit RerankerService.fresh
           p (asked (Throw "down")) (asked (Ok []))).
  - intros q H. injection H as <-. reflexivity.
  - intros request H. vm_compute in H. injection H as <-. reflexivity.
Defined.

(** ** The metadata model *)

(** X22: [HybridSearchManager.getFacets] returns no value, for every
    database, workspace and field: it passes the workspace identifier
    where [getUniqueValues] takes the field, and a number is no allowed
    field.  [getUniqueValues] itself, called with an allowed field first,
    returns that column of the rows the database answers with. *)
Theorem getFacets_always_empty :
  forall (Row V : Type) (column : Row -> string -> V)
         (db : LegalJudgmentMetadata.Database Row),
    (forall (workspaceId : Z) (field : string),
        getFacets column db workspaceId field = [])
    /\ (forall (field : string) (workspaceId : option LegalJudgmentMetadata.Value)
               (rows : list Row),
          LegalJudgmentMetadata.isEnabled db = true ->
          In field LegalJudgmentMetadata.allowedFields ->
          LegalJudgmentMetadata.poolQuery db
            (fst (LegalJudgmentMetadata.uniqueValuesStatement field workspaceId))
            (snd (LegalJudgmentMetadata.uniqueValuesStatement field workspaceId))
          = Ok rows ->
          LegalJudgmentMetadata.getUniqueValues column db
            (LegalJudgmentMetadata.VStr field) workspaceId
          = map (fun row => column row field) rows).
Proof.
  intros Row V column db. split.
  - intros workspaceId field.
    unfold getFacets, LegalJudgmentMetadata.getUniqueValues.
    destruct (negb (LegalJudgmentMetadata.isEnabled db)); reflexivity.
  - intros field workspaceId rows He Hin Hq.
    unfold LegalJudgmentMetadata.getUniqueValues, LegalJudgmentMetadata.executeQuery.
    rewrite He. cbn [negb LegalJudgmentMetadata.allowed].
    assert (Ha : Js.arrayIncludes LegalJudgmentMetadata.allowedFields field = true).
    { unfold Js.arrayIncludes. apply existsb_exists. exists field.
      split; [ exact Hin | apply String.eqb_refl ]. }
    rewrite Ha, Hq. reflexivity.
Qed.

Lemma getFacets_always_empty_witness :
  getFacets (fun (row : string) (_ : string) => row) twoCourts 1 "court" = []
  /\ LegalJudgmentMetadata.getUniqueValues (fun (row : string) (_ : string) => row)
       twoCourts (LegalJudgmentMetadata.VStr "court")
       (Some (LegalJudgmentMetadata.VNum 1))
     = ["High Court of Delhi"; "Supreme Court of India"]%string.
Proof.
  destruct (@getFacets_always_empty string string (fun row _ => row) twoCourts)
    as [H0 H1].
  split; [ apply H0 | ].
  rewrite (H1 "court"%string (Some (LegalJudgmentMetadata.VNum 1))
              ["High Court of Delhi"; "Supreme Court of India"]%string).
  - reflexivity.
  - reflexivity.
  - cbn. tauto.
  - reflexivity.
Defined.

(** X23: the full-text residual and the bench type that
    [performMetadataSearch] copies into its request have no effect on what
    [LegalJudgmentMetadata.search] asks the database: the model reads
    neither key.  A request that carries nothing else asks for the newest
    rows of the workspace, whatever the text. *)
Theorem fulltext_never_reaches_sql :
  forall (db : LegalJudgmentMetadata.Database Meta.t)
         (vector : option (string -> option string -> Z
                           -> Result (option (list VectorResult.t))))
         (filters : Filters.t) (workspaceId limit : Z),
    HybridSearchManager.performMetadataSearch (legalStores db vector) filters
      workspaceId limit
    = HybridSearchManager.performMetadataSearch (legalStores db vector)
        (Filters.mk (Filters.year filters) (Filters.court filters)
           (Filters.case_type filters) (Filters.jurisdiction filters) None
           (Filters.judge filters) (Filters.citation filters)
           (Filters.keywords filters) None)
        workspaceId limit
    /\ (forall bench_type fulltext : option string,
          workspaceId <> 0%Z -> limit <> 0%Z ->
          LegalJudgmentMetadata.searchStatement
            (searchParamsObject
               (HybridSearchManager.mkSearchParams workspaceId limit
                  (Filters.mk None None None None bench_type None None None fulltext)))
          = ("SELECT * FROM legal_judgment_metadata WHERE 1=1 AND workspace_id = $1 ORDER BY year DESC NULLS LAST, created_at DESC LIMIT $2 OFFSET $3"%string,
             [LegalJudgmentMetadata.PNum workspaceId;
              LegalJudgmentMetadata.PNum limit;
              LegalJudgmentMetadata.PNum 0])).
Proof.
  intros db vector filters workspaceId limit. split.
  - reflexivity.
  - intros bench_type fulltext Hw Hl.
    unfold LegalJudgmentMetadata.searchStatement, LegalJudgmentMetadata.conditions,
      LegalJudgmentMetadata.whenNum, LegalJudgmentMetadata.whenStr,
      LegalJudgmentMetadata.orZ, searchParamsObject.
    cbn [LegalJudgmentMetadata.workspace_id LegalJudgmentMetadata.court
         LegalJudgmentMetadata.year LegalJudgmentMetadata.year_from
         LegalJudgmentMetadata.year_to LegalJudgmentMetadata.case_type
         LegalJudgmentMetadata.judge LegalJudgmentMetadata.citation
         LegalJudgmentMetadata.case_id LegalJudgmentMetadata.cnr
         LegalJudgmentMetadata.jurisdiction LegalJudgmentMetadata.keywords
         LegalJudgmentMetadata.text_search LegalJudgmentMetadata.limit
         LegalJudgmentMetadata.offset
         HybridSearchManager.params HybridSearchManager.workspace_id
         HybridSearchManager.limit
         Filters.year Filters.court Filters.case_type Filters.jurisdiction
         Filters.judge Filters.citation Filters.keywords option_map
         Js.truthyStr HybridSearchManager.truthyZ].
    apply Z.eqb_neq in Hw. apply Z.eqb_neq in Hl. rewrite Hw, Hl.
    reflexivity.
Qed.

Lemma fulltext_never_reaches_sql_witness :
  1%Z <> 0%Z /\ 20%Z <> 0%Z
  /\ LegalJudgmentMetadata.searchStatement
       (searchParamsObject
          (HybridSearchManager.mkSearchParams 1 20
             (Filters.mk None None None None None None None None
                (Some "right to privacy"%string))))
     = ("SELECT * FROM legal_judgment_metadata WHERE 1=1 AND workspace_id = $1 ORDER BY year DESC NULLS LAST, created_at DESC LIMIT $2 OFFSET $3"%string,
        [LegalJudgmentMetadata.PNum 1; LegalJudgmentMetadata.PNum 20;
         LegalJudgmentMetadata.PNum 0]).
Proof.
  assert (H1 : 1%Z <> 0%Z) by discriminate.
  assert (H2 : 20%Z <> 0%Z) by discriminate.
  split; [ exact H1 | ]. split; [ exact H2 | ].
  exact (proj2 (fulltext_never_reaches_sql
                  (LegalJudgmentMetadata.mkDatabase true (fun _ _ => Ok []))
                  None Filters.empty 1 20)
           None (Some "right to privacy"%string) H1 H2).
Defined.

(** ** The statement [search] builds *)

Lemma digitsValue_clean (acc : Z) (t : string) :
  startsClean t = true -> Js.digitsValue acc t = acc.
Proof.
  destruct t as [ | c t ]; simpl; [ reflexivity | ].
  intros H. apply negb_true_iff in H. now rewrite H.
Qed.

Lemma digitsValue_app (a t : string) :
  startsClean t = true ->
  forall acc, Js.digitsValue acc (a ++ t) = Js.digitsValue acc a.
Proof.
  intros H. induction a as [ | d a IH ]; intros acc; simpl.
  - now apply digitsValue_clean.
  - destruct (Js.isDigit d); [ apply IH | reflexivity ].
Qed.

Lemma placeholders_app (q t : string) :
  startsClean t = true -> placeholders (q ++ t) = (placeholders q ++ placeholders t)%list.
Proof.
  intros H. induction q as [ | c q IH ]; [ reflexivity | ].
  cbn [append placeholders]. rewrite IH.
  assert (Hd : match (q ++ t)%string with
               | String d _ => Js.isDigit d
               | EmptyString => false
               end
               = match q with
                 | String d _ => Js.isDigit d
                 | EmptyString => false
                 end).
  { destruct q as [ | d q ]; [ | reflexivity ].
    destruct t as [ | d t ]; [ reflexivity | ].
    simpl in *. now apply negb_true_iff in H. }
  rewrite Hd, (@digitsValue_app q t H).
  destruct (Ascii.eqb c "$" && _); reflexivity.
Qed.

Lemma placeholders_plain (sql rest : string) :
  allChars notDollar sql = true -> placeholders (sql ++ rest) = placeholders rest.
Proof.
  induction sql as [ | c sql IH ]; intros H; [ reflexivity | ].
  cbn [allChars] in H. apply andb_true_iff in H. destruct H as [Hc Hs].
  cbn [append placeholders]. unfold notDollar in Hc. apply negb_true_iff in Hc.
  rewrite Hc. cbn [andb]. now apply IH.
Qed.

(** A placeholder is read back as its number. *)
Lemma placeholder_single (n : Z) :
  (1 <= n <= 20)%Z ->
  placeholders (LegalJudgmentMetadata.placeholder n) = [n].
Proof.
  intros H. destruct n as [ | p | p ]; try lia.
  do 5 (try (destruct p as [p | p | ]; try lia)); reflexivity.
Qed.

Lemma placeholder_head (n : Z) (t : string) :
  (1 <= n <= 20)%Z -> startsClean t = true ->
  placeholders (LegalJudgmentMetadata.placeholder n ++ t) = n :: placeholders t.
Proof.
  intros Hn Ht. rewrite placeholders_app by exact Ht.
  now rewrite placeholder_single.
Qed.

Lemma upTo_S (n : nat) : upTo (S n) = (upTo n ++ [(1 + Z.of_nat n)%Z])%list.
Proof.
  unfold upTo. rewrite seq_S, map_app. cbn [map]. do 2 f_equal. lia.
Qed.

Lemma wellNumbered_weaken (k k' : Z) (b : LegalJudgmentMetadata.Builder) :
  (k <= k')%Z -> wellNumbered k b -> wellNumbered k' b.
Proof. intros Hk (H1 & H2 & H3). repeat split; [ exact H1 | lia | exact H3 ]. Qed.

Lemma addClause_numbered (k : Z) (sql close : string)
    (value : LegalJudgmentMetadata.Param) (b : LegalJudgmentMetadata.Builder) :
  (k < 20)%Z ->
  allChars notDollar sql = true ->
  startsClean (sql ++ "0") = true ->
  startsClean close = true ->
  placeholders close = [] ->
  wellNumbered k b ->
  wellNumbered (k + 1) (LegalJudgmentMetadata.addClause sql close value b).
Proof.
  intros Hk Hsql Hstart Hclose Hnone (H1 & H2 & H3).
  unfold wellNumbered, LegalJudgmentMetadata.addClause.
  cbn [LegalJudgmentMetadata.query LegalJudgmentMetadata.params
       LegalJudgmentMetadata.paramCount].
  rewrite length_app. cbn [List.length].
  split; [ rewrite H1; lia | ]. split; [ lia | ].
  rewrite placeholders_app.
  - rewrite placeholders_plain by exact Hsql.
    rewrite placeholder_head by (try exact Hclose; lia).
    rewrite Hnone, H3, Nat.add_1_r, upTo_S. now rewrite H1.
  - destruct sql as [ | c sql ]; [ discriminate Hstart | exact Hstart ].
Qed.

Lemma whenStr_numbered (k : Z) (x : option string)
    (f : string -> LegalJudgmentMetadata.Builder -> LegalJudgmentMetadata.Builder)
    (b : LegalJudgmentMetadata.Builder) :
  (forall v, wellNumbered k b -> wellNumbered (k + 1) (f v b)) ->
  wellNumbered k b ->
  wellNumbered (k + 1) (LegalJudgmentMetadata.whenStr x f b).
Proof.
  intros Hf Hb. unfold LegalJudgmentMetadata.whenStr.
  destruct (Js.truthyStr x); [ now apply Hf | ].
  apply wellNumbered_weaken with k; [ lia | exact Hb ].
Qed.

Lemma whenNum_numbered (k : Z) (x : option Z)
    (f : Z -> LegalJudgmentMetadata.Builder -> LegalJudgmentMetadata.Builder)
    (b : LegalJudgmentMetadata.Builder) :
  (forall v, wellNumbered k b -> wellNumbered (k + 1) (f v b)) ->
  wellNumbered k b ->
  wellNumbered (k + 1) (LegalJudgmentMetadata.whenNum x f b).
Proof.
  intros Hf Hb. unfold LegalJudgmentMetadata.whenNum.
  destruct (HybridSearchManager.truthyZ x); [ now apply Hf | ].
  apply wellNumbered_weaken with k; [ lia | exact Hb ].
Qed.

Ltac clause_numbered :=
  intros; apply addClause_numbered; [ lia | reflexivity .. | assumption ].

Ltac numbered_step k :=
  lazymatch goal with
  | |- wellNumbered _ (LegalJudgmentMetadata.whenStr _ _ _) =>
      apply (@whenStr_numbered k); [ clause_numbered | ]
  | |- wellNumbered _ (LegalJudgmentMetadata.whenNum _ _ _) =>
      apply (@whenNum_numbered k); [ clause_numbered | ]
  | |- wellNumbered _ (LegalJudgmentMetadata.addClause _ _ _ _) =>
      apply (@addClause_numbered k); [ lia | reflexivity .. | ]
  end.

Lemma conditions_numbered (filters : LegalJudgmentMetadata.SearchFilters)
    (b : LegalJudgmentMetadata.Builder) :
  wellNumbered 1 b ->
  wellNumbered 13 (LegalJudgmentMetadata.conditions filters b).
Proof.
  intros H0. unfold LegalJudgmentMetadata.conditions.
  numbered_step 12%Z.
  destruct (LegalJudgmentMetadata.keywords filters) as [[[ | w ws] | s] | ];
    [ apply wellNumbered_weaken with 11%Z; [ lia | ]
    | numbered_step 11%Z
    | apply wellNumbered_weaken with 11%Z; [ lia | ]
    | apply wellNumbered_weaken with 11%Z; [ lia | ] ];
    numbered_step 10%Z; numbered_step 9%Z; numbered_step 8%Z; numbered_step 7%Z;
    numbered_step 6%Z; numbered_step 5%Z;
    (destruct (HybridSearchManager.truthyZ (LegalJudgmentMetadata.year filters));
     [ apply wellNumbered_weaken with 4%Z; [ lia | ]; numbered_step 3%Z
     | numbered_step 4%Z; numbered_step 3%Z ]);
    numbered_step 2%Z; numbered_step 1%Z; exact H0.
Qed.

(** X24: in the statement [search] builds, whatever the filters, the
    placeholders are numbered 1, 2, ... in the order they are written, and
    there is exactly one bound value for each of them. *)
Theorem searchStatement_placeholders :
  forall filters : LegalJudgmentMetadata.SearchFilters,
    placeholders (fst (LegalJudgmentMetadata.searchStatement filters))
    = upTo (List.length (snd (LegalJudgmentMetadata.searchStatement filters))).
Proof.
  intros filters. unfold LegalJudgmentMetadata.searchStatement. cbn [fst snd].
  assert (H0 : wellNumbered 1
                 (LegalJudgmentMetadata.mkBuilder
                    "SELECT * FROM legal_judgment_metadata WHERE 1=1" [] 1)).
  { repeat split. cbn. lia. }
  pose proof (conditions_numbered filters H0) as (H1 & H2 & H3).
  remember (LegalJudgmentMetadata.conditions filters _) as b eqn:Eb. clear Eb H0.
  assert (Hpos : (1 <= LegalJudgmentMetadata.paramCount b)%Z) by (rewrite H1; lia).
  rewrite placeholders_app by reflexivity.
  rewrite placeholders_app by reflexivity.
  rewrite (@placeholders_plain " LIMIT ") by reflexivity.
  rewrite placeholder_head by (try reflexivity; lia).
  rewrite (@placeholders_plain " OFFSET ") by reflexivity.
  rewrite placeholder_single by lia.
  rewrite H3, length_app. cbn [List.length].
  replace (List.length (LegalJudgmentMetadata.params b) + 2)%nat
    with (S (S (List.length (LegalJudgmentMetadata.params b)))) by lia.
  rewrite !upTo_S, H1.
  change (placeholders " ORDER BY year DESC NULLS LAST, created_at DESC")
    with (@nil Z).
  rewrite app_nil_r, <- app_assoc. cbn [app]. do 3 f_equal. lia.
Qed.

Lemma addClause_same (sql close : string) (v v' : LegalJudgmentMetadata.Param)
    (b b' : LegalJudgmentMetadata.Builder) :
  sameText b b' ->
  sameText (LegalJudgmentMetadata.addClause sql close v b)
           (LegalJudgmentMetadata.addClause sql close v' b').
Proof.
  intros [Hq Hc]. unfold sameText, LegalJudgmentMetadata.addClause.
  cbn [LegalJudgmentMetadata.query LegalJudgmentMetadata.paramCount].
  now rewrite Hq, Hc.
Qed.

Lemma whenStr_same (x x' : option string)
    (f f' : string -> LegalJudgmentMetadata.Builder -> LegalJudgmentMetadata.Builder)
    (b b' : LegalJudgmentMetadata.Builder) :
  (Filters.count (Js.truthyStr x) =? 1)%nat
  = (Filters.count (Js.truthyStr x') =? 1)%nat ->
  (forall v v', sameText b b' -> sameText (f v b) (f' v' b')) ->
  sameText b b' ->
  sameText (LegalJudgmentMetadata.whenStr x f b) (LegalJudgmentMetadata.whenStr x' f' b').
Proof.
  intros H Hf Hb. unfold LegalJudgmentMetadata.whenStr.
  destruct (Js.truthyStr x), (Js.truthyStr x'); try discriminate H;
    [ now apply Hf | exact Hb ].
Qed.

Lemma whenNum_same (x x' : option Z)
    (f f' : Z -> LegalJudgmentMetadata.Builder -> LegalJudgmentMetadata.Builder)
    (b b' : LegalJudgmentMetadata.Builder) :
  (Filters.count (HybridSearchManager.truthyZ x) =? 1)%nat
  = (Filters.count (HybridSearchManager.truthyZ x') =? 1)%nat ->
  (forall v v', sameText b b' -> sameText (f v b) (f' v' b')) ->
  sameText b b' ->
  sameText (LegalJudgmentMetadata.whenNum x f b) (LegalJudgmentMetadata.whenNum x' f' b').
Proof.
  intros H Hf Hb. unfold LegalJudgmentMetadata.whenNum.
  destruct (HybridSearchManager.truthyZ x), (HybridSearchManager.truthyZ x');
    try discriminate H; [ now apply Hf | exact Hb ].
Qed.

Ltac same_step :=
  lazymatch goal with
  | |- sameText (LegalJudgmentMetadata.whenStr _ _ _) _ =>
      apply whenStr_same;
      [ assumption | intros; apply addClause_same; assumption | ]
  | |- sameText (LegalJudgmentMetadata.whenNum _ _ _) _ =>
      apply whenNum_same;
      [ assumption | intros; apply addClause_same; assumption | ]
  | |- sameText (LegalJudgmentMetadata.addClause _ _ _ _) _ =>
      apply addClause_same
  end.

Lemma conditions_same (filters filters' : LegalJudgmentMetadata.SearchFilters)
    (b b' : LegalJudgmentMetadata.Builder) :
  present filters = present filters' ->
  sameText b b' ->
  sameText (LegalJudgmentMetadata.conditions filters b)
           (LegalJudgmentMetadata.conditions filters' b').
Proof.
  intros H Hb. unfold present in H.
  injection H as E1 E2 E3 E4 E5 E6 E7 E8 E9 E10 E11 E12 E13.
  unfold LegalJudgmentMetadata.conditions.
  same_step.
  destruct (LegalJudgmentMetadata.keywords filters) as [[[ | w ws] | s] | ],
           (LegalJudgmentMetadata.keywords filters') as [[[ | w' ws'] | s'] | ];
    try discriminate E12; repeat same_step;
    (destruct (HybridSearchManager.truthyZ (LegalJudgmentMetadata.year filters)),
              (HybridSearchManager.truthyZ (LegalJudgmentMetadata.year filters'));
     try discriminate E3);
    repeat same_step; exact Hb.
Qed.

(** X25: the text of the statement [search] builds depends only on which
    conditions the filters ask for, never on their values: what a caller
    puts into a filter reaches the database as a bound value, not as SQL
    text. *)
Theorem searchStatement_text_fixed :
  forall filters filters' : LegalJudgmentMetadata.SearchFilters,
    present filters = present filters' ->
    fst (LegalJudgmentMetadata.searchStatement filters)
    = fst (LegalJudgmentMetadata.searchStatement filters').
Proof.
  intros filters filters' H. unfold LegalJudgmentMetadata.searchStatement. cbn [fst].
  assert (H0 : sameText
                 (LegalJudgmentMetadata.mkBuilder
                    "SELECT * FROM legal_judgment_metadata WHERE 1=1" [] 1)
                 (LegalJudgmentMetadata.mkBuilder
                    "SELECT * FROM legal_judgment_metadata WHERE 1=1" [] 1))
    by (split; reflexivity).
  destruct (conditions_same H H0) as [Hq Hc].
  now rewrite Hq, Hc.
Qed.

Lemma searchStatement_text_fixed_witness :
  present filtersDelhi = present filtersQuoted
  /\ fst (LegalJudgmentMetadata.searchStatement filtersQuoted)
     = "SELECT * FROM legal_judgment_metadata WHERE 1=1 AND workspace_id = $1 AND court ILIKE $2 AND year = $3 ORDER BY year DESC NULLS LAST, created_at DESC LIMIT $4 OFFSET $5"%string.
Proof.
  assert (H : present filtersDelhi = present filtersQuoted) by reflexivity.
  split; [ exact H | ].
  rewrite <- (searchStatement_text_fixed H). reflexivity.
Defined.

(** ** The search over its collaborators *)

Lemma sortedDesc_map (A B : Type) (key : A -> Q) (key' : B -> Q) (g : A -> B)
    (l : list A) :
  (forall a, key' (g a) = key a) ->
  sortedDesc key l -> sortedDesc key' (map g l).
Proof.
  intros Hk. unfold sortedDesc. induction 1 as [ | a l Hs IH Hall ]; simpl.
  - constructor.
  - constructor; [ exact IH | ].
    apply Forall_map. rewrite Forall_forall in *. intros x Hx.
    rewrite !Hk. now apply Hall.
Qed.

Lemma rerank_sorted (env : Env) (net : Network) (service : RerankerService.t)
    (vr : list VectorResult.t) (mr : list Meta.t) (query : option string)
    (options : HybridReranker.Options) :
  sortedDesc Doc.combinedScore
    (fst (HybridReranker.rerank env net service vr mr query options)).
Proof.
  unfold HybridReranker.rerank.
  destruct (HybridReranker.scoredResults env net service vr mr query options)
    as [scored svc] eqn:E.
  cbn [fst].
  destruct (sliceTo_prefix (HybridReranker.orElse (HybridReranker.maxResults options) 10%Z)
              (HybridReranker.applyDiversity scored
                 (HybridReranker.orElse (HybridReranker.diversityFactor options) (1 # 10))))
    as [k ->].
  apply sortedDesc_firstn, applyDiversity_sorted.
  unfold HybridReranker.scoredResults in E.
  destruct (HybridReranker.hostedScores _ _ _ _ _) as [scores svc'].
  injection E as <- _. apply sortDesc_sorted.
Qed.

(** X26: the ranking [search] answers with is in non-increasing order of
    [combinedScore] and holds no document twice. *)
Theorem search_ranking_shape :
  forall (env : Env) (net : Network) (stores : HybridSearchManager.Stores)
         (service : RerankerService.t) (p : HybridSearchManager.Params)
         (enriched : list HybridSearchManager.Enriched),
    fst (HybridSearchManager.search env net stores service p)
    = Ok (HybridSearchManager.Ranked enriched) ->
    sortedDesc (fun e => Doc.combinedScore (HybridSearchManager.result e)) enriched
    /\ NoDup (map (fun e => Doc.docId (HybridSearchManager.result e)) enriched).
Proof.
  intros env net stores service p enriched H.
  destruct (search_ranked_inv _ _ _ _ _ H) as (vr & mr & w & He).
  rewrite enrich_pointwise in He. injection He as <-.
  split.
  - apply sortedDesc_map with (key := Doc.combinedScore); [ | apply rerank_sorted ].
    intros r. destruct (lookedUp stores r); reflexivity.
  - rewrite map_map.
    erewrite map_ext; [ apply (proj1 (rerank_ids env net service vr mr
                                        (HybridSearchManager.query p) _)) | ].
    intros r. cbn beta. destruct (lookedUp stores r); reflexivity.
Qed.

Lemma search_ranking_shape_witness :
  exists enriched,
    fst (HybridSearchManager.search envNone netDown storesTwoHits RerankerService.fresh
           (HybridSearchManager.mkParams (Some "bail"%string) (Some someWorkspace)
              None None None))
    = Ok (HybridSearchManager.Ranked enriched)
    /\ map (fun e => Doc.docId (HybridSearchManager.result e)) enriched
       = ["d2"%string; "d1"%string]
    /\ sortedDesc (fun e => Doc.combinedScore (HybridSearchManager.result e)) enriched
    /\ NoDup (map (fun e => Doc.docId (HybridSearchManager.result e)) enriched).
Proof.
  eexists. split; [ reflexivity | ]. split; [ reflexivity | ].
  apply (@search_ranking_shape envNone netDown storesTwoHits RerankerService.fresh
           (HybridSearchManager.mkParams (Some "bail"%string) (Some someWorkspace)
              None None None)).
  reflexivity.
Defined.

(** X27: with [rerankOptions: { useHostedReranker: false }], [search] does
    not touch the reranking service: the service is left as it was and the
    answer is the same in every environment and whatever the scoring
    endpoints would answer. *)
Theorem search_without_hosted_reranker :
  forall (env env' : Env) (net net' : Network) (stores : HybridSearchManager.Stores)
         (service : RerankerService.t) (p : HybridSearchManager.Params)
         (options : HybridReranker.Options),
    HybridSearchManager.rerankOptions p = Some options ->
    HybridReranker.useHostedReranker options = Some false ->
    HybridSearchManager.search env net stores service p
    = HybridSearchManager.search env' net' stores service p
    /\ snd (HybridSearchManager.search env net stores service p) = service.
Proof.
  intros env env' net net' stores service p options Ho Hu.
  assert (Hf : forall topN,
             HybridReranker.useHostedReranker
               (HybridSearchManager.fusionOptions topN options) = Some false).
  { intros topN. cbn. now rewrite Hu. }
  unfold HybridSearchManager.search, HybridSearchManager.searchBody.
  rewrite Ho. cbn [HybridReranker.orElse].
  destruct (if (Filters.size _ =? 0)%nat then _ else _) as [enhanced | e];
    [ | split; reflexivity ].
  destruct (bind _ _) as [[vr mr] | e]; [ | split; reflexivity ].
  destruct (@rerank_no_hosted env env' net net' service vr mr
              (HybridSearchManager.query p)
              (HybridSearchManager.fusionOptions
                 (HybridReranker.orElse (HybridSearchManager.topN p) 10%Z)
                 options)
              (Hf _)) as (Heq & Hsnd & _).
  rewrite <- Heq.
  destruct (HybridReranker.rerank env net service vr mr _ _) as [rr svc].
  cbn [snd] in Hsnd. subst svc.
  destruct (bind _ _); split; reflexivity.
Qed.

Lemma search_without_hosted_reranker_witness :
  let p := HybridSearchManager.mkParams (Some "bail"%string) (Some someWorkspace)
             None None
             (Some (HybridReranker.mkOptions None None None None None (Some false))) in
  snd (HybridSearchManager.search envGeminiTwoKeys netDown storesOneHit
         RerankerService.fresh p)
  = RerankerService.fresh.
Proof.
  exact (proj2 (@search_without_hosted_reranker envGeminiTwoKeys envNone netDown netDown
                  storesOneHit RerankerService.fresh
                  (HybridSearchManager.mkParams (Some "bail"%string) (Some someWorkspace)
                     None None
                     (Some (HybridReranker.mkOptions None None None None None
                              (Some false))))
                  (HybridReranker.mkOptions None None None None None (Some false))
                  eq_refl eq_refl)).
Defined.

(** The search sees its stores only through what they answer. *)
Lemma search_ext (env : Env) (net : Network) (stores stores' : HybridSearchManager.Stores)
    (service : RerankerService.t) (p : HybridSearchManager.Params) :
  HybridSearchManager.performSimilaritySearch stores
  = HybridSearchManager.performSimilaritySearch stores' ->
  (forall request,
      HybridSearchManager.metadataSearch stores request
      = HybridSearchManager.metadataSearch stores' request) ->
  (forall docId,
      HybridSearchManager.metadataGet stores docId
      = HybridSearchManager.metadataGet stores' docId) ->
  HybridSearchManager.search env net stores service p
  = HybridSearchManager.search env net stores' service p.
Proof.
  intros Hs Hm Hg.
  assert (Hv : forall q w n,
             HybridSearchManager.performVectorSearch stores q w n
             = HybridSearchManager.performVectorSearch stores' q w n).
  { intros q w n. unfold HybridSearchManager.performVectorSearch. now rewrite Hs. }
  assert (Hms : forall f w n,
             HybridSearchManager.performMetadataSearch stores f w n
             = HybridSearchManager.performMetadataSearch stores' f w n).
  { intros f w n. unfold HybridSearchManager.performMetadataSearch. now rewrite Hm. }
  assert (He : forall r w,
             HybridSearchManager.enrichResultsWithMetadata stores r w
             = HybridSearchManager.enrichResultsWithMetadata stores' r w).
  { intros r w. rewrite !enrich_pointwise. f_equal. apply map_ext. intros d.
    unfold lookedUp. now rewrite Hg. }
  unfold HybridSearchManager.search, HybridSearchManager.searchBody.
  rewrite !Hv.
  destruct (if (Filters.size _ =? 0)%nat then _ else _) as [enhanced | e];
    [ | reflexivity ].
  destruct (HybridSearchManager.workspace p) as [w | ];
    cbn [HybridSearchManager.ofWorkspace bind].
  - rewrite Hms.
    destruct (HybridSearchManager.performVectorSearch stores' _ _ _) as [vr | e];
      cbn [bind]; [ | reflexivity ].
    destruct (if (0 <? Filters.size enhanced)%nat then _ else _) as [mr | e];
      cbn [bind]; [ | reflexivity ].
    destruct (HybridReranker.rerank _ _ _ _ _ _ _) as [rr svc].
    now rewrite He.
  - destruct (HybridSearchManager.performVectorSearch stores' _ _ _) as [vr | e];
      cbn [bind]; [ | reflexivity ].
    destruct (0 <? Filters.size enhanced)%nat; cbn [bind]; [ reflexivity | ].
    destruct (HybridReranker.rerank _ _ _ _ _ _ _) as [rr svc]. reflexivity.
Qed.

Lemma search_down (db : LegalJudgmentMetadata.Database Meta.t)
    (filters : LegalJudgmentMetadata.SearchFilters) :
  databaseDown db -> LegalJudgmentMetadata.search db filters = [].
Proof.
  intros [Hd | Ht]; unfold LegalJudgmentMetadata.search.
  - now rewrite Hd.
  - destruct (negb (LegalJudgmentMetadata.isEnabled db)); [ reflexivity | ].
    unfold LegalJudgmentMetadata.executeQuery.
    destruct (LegalJudgmentMetadata.isEnabled db); [ | reflexivity ].
    destruct (Ht (fst (LegalJudgmentMetadata.searchStatement filters))
                 (snd (LegalJudgmentMetadata.searchStatement filters))) as [e ->].
    reflexivity.
Qed.

Lemma get_down (db : LegalJudgmentMetadata.Database Meta.t) (docId : string) :
  databaseDown db -> LegalJudgmentMetadata.get db docId = None.
Proof.
  intros [Hd | Ht]; unfold LegalJudgmentMetadata.get.
  - now rewrite Hd.
  - destruct (negb (LegalJudgmentMetadata.isEnabled db)); [ reflexivity | ].
    unfold LegalJudgmentMetadata.executeQuery.
    destruct (LegalJudgmentMetadata.isEnabled db); [ | reflexivity ].
    destruct (Ht LegalJudgmentMetadata.getStatement
                 [LegalJudgmentMetadata.PStr docId]) as [e ->].
    reflexivity.
Qed.

(** X28: when PostgreSQL is not configured, or every statement sent to it
    throws, [search] over this model answers what it answers over a
    metadata store that holds nothing: the errors of the database never
    reach the caller, and the vector hits are still fused and ranked. *)
Theorem database_down_is_empty_store :
  forall (env : Env) (net : Network) (service : RerankerService.t)
         (p : HybridSearchManager.Params)
         (db : LegalJudgmentMetadata.Database Meta.t)
         (vector : option (string -> option string -> Z
                           -> Result (option (list VectorResult.t)))),
    databaseDown db ->
    HybridSearchManager.search env net (legalStores db vector) service p
    = HybridSearchManager.search env net (emptyMetadata vector) service p.
Proof.
  intros env net service p db vector Hd. apply search_ext.
  - reflexivity.
  - intros request. cbn. now rewrite search_down.
  - intros docId. cbn. now rewrite get_down.
Qed.

Lemma database_down_is_empty_store_witness :
  let db := LegalJudgmentMetadata.mkDatabase true
              (fun _ _ => @Throw (list Meta.t) "connection refused") in
  let p := HybridSearchManager.mkParams (Some "bail 2019"%string) (Some someWorkspace)
             None None None in
  databaseDown db
  /\ HybridSearchManager.search envNone netDown
       (legalStores db (Some (fun _ _ _ => Ok (Some [hybridHit]))))
       RerankerService.fresh p
     = HybridSearchManager.search envNone netDown
         (emptyMetadata (Some (fun _ _ _ => Ok (Some [hybridHit]))))
         RerankerService.fresh p.
Proof.
  intros db p.
  assert (H : databaseDown db).
  { right. intros query params. eexists. reflexivity. }
  split; [ exact H | ].
  exact (@database_down_is_empty_store envNone netDown RerankerService.fresh p db
           (Some (fun _ _ _ => Ok (Some [hybridHit]))) H).
Defined.

Lemma performVectorSearch_no_workspace (stores : HybridSearchManager.Stores)
    (query : option string) (topN : Z) :
  HybridSearchManager.performVectorSearch stores query None topN = Ok [].
Proof.
  unfold HybridSearchManager.performVectorSearch.
  destruct (HybridSearchManager.performSimilaritySearch stores); reflexivity.
Qed.

(** X29: without a workspace [search] answers with the empty list of
    vector hits, whatever else it is given: reading the workspace throws in
    the main path and again, caught, in the vector search of the
    fallback. *)
Theorem search_without_workspace :
  forall (env : Env) (net : Network) (stores : HybridSearchManager.Stores)
         (service : RerankerService.t) (p : HybridSearchManager.Params),
    HybridSearchManager.workspace p = None ->
    fst (HybridSearchManager.search env net stores service p)
    = Ok (HybridSearchManager.VectorOnly []).
Proof.
  intros env net stores service p Hw.
  unfold HybridSearchManager.search, HybridSearchManager.searchBody.
  rewrite Hw, !performVectorSearch_no_workspace.
  cbn [HybridSearchManager.ofWorkspace bind].
  destruct (if (Filters.size _ =? 0)%nat then _ else _) as [enhanced | e];
    [ | reflexivity ].
  destruct (0 <? Filters.size enhanced)%nat; cbn [bind]; [ reflexivity | ].
  destruct (HybridReranker.rerank _ _ _ _ _ _ _) as [rr svc]. reflexivity.
Qed.

Lemma search_without_workspace_witness :
  let p := HybridSearchManager.mkParams (Some "bail 2019"%string) None None None None in
  HybridSearchManager.workspace p = None
  /\ fst (HybridSearchManager.search envNone netDown storesOneHit
            RerankerService.fresh p)
     = Ok (HybridSearchManager.VectorOnly []).
Proof.
  split; [ reflexivity | ].
  apply (@search_without_workspace envNone netDown storesOneHit RerankerService.fresh
           (HybridSearchManager.mkParams (Some "bail 2019"%string) None None None None)).
  reflexivity.
Defined.

(* ================================================================== *)
(** * Scores that are exactly 0 *)
(* ================================================================== *)

Lemma zeroToHalf_orQ (x : option Q) : orQ x (1#2) = zeroToHalf x.
Proof. destruct x as [s | ]; reflexivity. Qed.

Lemma In_attach (D : Type) (documents : list D) (scores : list Q) :
  forall idx i d,
    nth_error documents i = Some d ->
    In (mkScored d (zeroToHalf (nth_error scores (idx + i)))) (attach documents scores idx).
Proof.
  induction documents as [ | x t IH ]; intros idx i d H.
  - destruct i; discriminate H.
  - destruct i as [ | i ]; cbn [nth_error] in H; cbn [attach].
    + injection H as <-. left. now rewrite Nat.add_0_r, zeroToHalf_orQ.
    + right. replace (idx + S i)%nat with (S idx + i)%nat by lia. now apply IH.
Qed.

Lemma In_attachFound (D : Type) (documents : list D)
    (results : option (list Cohere.Entry)) :
  forall idx i d,
    nth_error documents i = Some d ->
    In (mkScored d (zeroToHalf (Cohere.scoreAt results (idx + i))))
       (Cohere.attachFound documents results idx).
Proof.
  induction documents as [ | x t IH ]; intros idx i d H.
  - destruct i; discriminate H.
  - destruct i as [ | i ]; cbn [nth_error] in H; cbn [Cohere.attachFound].
    + injection H as <-. left. now rewrite Nat.add_0_r, zeroToHalf_orQ.
    + right. replace (idx + S i)%nat with (S idx + i)%nat by lia. now apply IH.
Qed.

Lemma In_sortDesc (A : Type) (key : A -> Q) (x : A) (l : list A) :
  In x l -> In x (sortDesc key l).
Proof. intros H. eapply Permutation_in; [ apply Permutation_sym, sortDesc_perm | exact H ]. Qed.

(** What [parseFloat] reads is 0 or lies above the underflow threshold. *)
Lemma parseFloat_underflow (s : string) (q : Q) :
  Gemini.parseFloat s = Finite q -> q == 0 \/ 1 # (2 ^ 1075) < Qabs q.
Proof.
  unfold Gemini.parseFloat.
  destruct (Gemini.spanDigits (Js.trimStart s)) as [ip rest].
  destruct (String.eqb ip EmptyString && String.eqb _ EmptyString); [ discriminate | ].
  intros H. injection H as <-. unfold readDecimal, roundsToZero.
  destruct (Qle_bool _ _) eqn:E.
  - left. reflexivity.
  - right. apply Qnot_le_lt. intros Hle. apply Qle_bool_iff in Hle. congruence.
Qed.

(** The hosted score of every candidate of a fusion, from the scores
    stored for the identifiers. *)
Lemma fusion_hosted_scores env net service vr mr q opts :
  Forall (fun d =>
            Doc.hostedRerankerScore d
            = Some (zeroToHalf
                      (Map.get
                         (fst (HybridReranker.hostedScores env net service
                                 (HybridReranker.orElse
                                    (HybridReranker.useHostedReranker opts) true)
                                 (HybridReranker.merge vr mr
                                    (HybridReranker.orElse q EmptyString))))
                         (Doc.docId d))))
         (fst (HybridReranker.rerank env net service vr mr q opts)).
Proof.
  apply rerank_Forall; [ intros d c Hd; exact Hd | ].
  apply scoredResults_Forall. intros k d Hin.
  destruct (merge_entries vr mr (HybridReranker.orElse q EmptyString)) as (_ & He & _).
  rewrite Forall_forall in He. destruct (He _ Hin) as (Hid & _).
  cbn [fst snd] in Hid.
  rewrite scoreDoc_hosted, zeroToHalf_orQ.
  cbn [HybridReranker.scoreDoc Doc.setScores Doc.docId]. now rewrite Hid.
Qed.

(** C10: wherever a reranker score is attached, a score of exactly 0 (or
    a missing one) is replaced by 0.5 and every other score is kept.  For
    every reply and every document list, each provider's [rerank] returns
    the documents with scores that are never 0; when the reply is read
    (for Gemini, an answer in ASCII text), the document at index [i]
    carries [zeroToHalf] of the score the reply gives for [i]; every
    candidate that fusion returns carries [zeroToHalf]
    of the score stored for its identifier, which is never 0; and a decimal
    literal that Gemini's answer holds is read as 0, and so replaced, when
    it lies below the smallest double. *)
Theorem reranker_score_never_zero :
  forall (D : Type) (documents : list D)
         (oReply : OpenAI.Reply) (cReply : Cohere.Reply) (gReply : Gemini.Reply)
         env net service vr mr q opts,
    returnsAll (OpenAI.rerank oReply documents) documents (fun s => ~ s == 0)
    /\ returnsAll (Cohere.rerank cReply documents) documents (fun s => ~ s == 0)
    /\ returnsAll (Gemini.rerank gReply documents) documents (fun s => ~ s == 0)
    /\ Forall (fun d => exists h, Doc.hostedRerankerScore d = Some h /\ ~ h == 0)
              (fst (HybridReranker.rerank env net service vr mr q opts))
    /\ (forall content i d,
          nth_error documents i = Some d ->
          exists out,
            OpenAI.rerank (OpenAI.Body content) documents = Ok out
            /\ In (mkScored d
                     (zeroToHalf
                        (nth_error
                           (OpenAI.parseScores content (List.length documents)) i)))
                  out)
    /\ (forall results i d,
          nth_error documents i = Some d ->
          exists out,
            Cohere.rerank (Cohere.Data results) documents = Ok out
            /\ In (mkScored d (zeroToHalf (Cohere.scoreAt results i))) out)
    /\ (forall text i d,
          asciiText text = true ->
          nth_error documents i = Some d ->
          exists out,
            Gemini.rerank (Gemini.Text text) documents = Ok out
            /\ In (mkScored d
                     (zeroToHalf
                        (nth_error
                           (Gemini.parseScores text (List.length documents)) i)))
                  out)
    /\ Forall (fun d =>
                 Doc.hostedRerankerScore d
                 = Some (zeroToHalf
                           (Map.get
                              (fst (HybridReranker.hostedScores env net service
                                      (HybridReranker.orElse
                                         (HybridReranker.useHostedReranker opts) true)
                                      (HybridReranker.merge vr mr
                                         (HybridReranker.orElse q EmptyString))))
                              (Doc.docId d))))
              (fst (HybridReranker.rerank env net service vr mr q opts))
    /\ (forall s x, Gemini.parseFloat s = Finite x ->
                    x == 0 \/ 1 # (2 ^ 1075) < Qabs x).
Proof.
  intros D documents oReply cReply gReply env net service vr mr q opts.
  assert (W : forall r (Pq : Q -> Prop),
             returnsAll r documents (fun s => Pq s /\ ~ s == 0) ->
             returnsAll r documents (fun s => ~ s == 0)).
  { intros r Pq [out [E [Hp Hf]]]. exists out. split; [ exact E | split; [ exact Hp | ] ].
    eapply Forall_impl; [ | exact Hf ]. intros s Hs. apply Hs. }
  split; [ eapply W; apply openai_rerank_returns | ].
  split; [ apply cohere_rerank_returns | ].
  split; [ eapply W; apply gemini_rerank_returns | ].
  split.
  { apply rerank_Forall; [ intros d c Hd; exact Hd | ].
    apply scoredResults_Forall. intros k d _.
    rewrite scoreDoc_hosted. eexists. split; [ reflexivity | ].
    apply orQ_nonzero, half_nonzero. }
  split.
  { intros content i d Hd. unfold OpenAI.rerank.
    destruct documents as [ | x t ]; [ destruct i; discriminate Hd | ].
    cbn [tryCatch bind OpenAI.request]. eexists. split; [ reflexivity | ].
    apply In_sortDesc. apply (In_attach (x :: t) _ 0 i Hd). }
  split.
  { intros results i d Hd. unfold Cohere.rerank.
    destruct documents as [ | x t ]; [ destruct i; discriminate Hd | ].
    cbn [tryCatch bind Cohere.request]. eexists. split; [ reflexivity | ].
    apply In_sortDesc. apply (In_attachFound (x :: t) _ 0 i Hd). }
  split.
  { intros text i d _ Hd. unfold Gemini.rerank.
    destruct documents as [ | x t ]; [ destruct i; discriminate Hd | ].
    cbn [tryCatch bind Gemini.request]. eexists. split; [ reflexivity | ].
    apply In_sortDesc. apply (In_attach (x :: t) _ 0 i Hd). }
  split; [ apply fusion_hosted_scores | ].
  intros s x. apply parseFloat_underflow.
Qed.

(** The claim at an OpenAI answer with the scores 0 and 0.75 for two
    documents, and at a Gemini answer whose first literal underflows: the
    first document carries 0.5 each time. *)
Lemma reranker_score_never_zero_witness :
  nth_error ["a"; "b"]%string 0 = Some "a"%string
  /\ zeroToHalf (nth_error
                   (OpenAI.parseScores (OpenAI.Scores [Finite 0; Finite (3#4)]) 2) 0)
     = 1#2
  /\ (exists out,
        OpenAI.rerank (OpenAI.Body (OpenAI.Scores [Finite 0; Finite (3#4)]))
          ["a"; "b"]%string = Ok out
        /\ In (mkScored "a"%string
                 (zeroToHalf
                    (nth_error
                       (OpenAI.parseScores (OpenAI.Scores [Finite 0; Finite (3#4)])
                          (List.length ["a"; "b"]%string)) 0)))
              out)
  /\ asciiText tinyScores = true
  /\ zeroToHalf (nth_error (Gemini.parseScores tinyScores 2) 0) = 1#2
  /\ (exists out,
        Gemini.rerank (Gemini.Text tinyScores) ["a"; "b"]%string = Ok out
        /\ In (mkScored "a"%string
                 (zeroToHalf
                    (nth_error
                       (Gemini.parseScores tinyScores (List.length ["a"; "b"]%string))
                       0)))
              out).
Proof.
  assert (H : nth_error ["a"; "b"]%string 0 = Some "a"%string) by reflexivity.
  assert (Ha : asciiText tinyScores = true) by (vm_compute; reflexivity).
  pose proof (@reranker_score_never_zero string ["a"; "b"]%string
                OpenAI.FetchRejected Cohere.FetchRejected Gemini.Rejected
                envNone netDown RerankerService.fresh [] [] None
                HybridReranker.noOptions) as T.
  split; [ exact H | ]. split; [ reflexivity | ].
  split.
  - exact (proj1 (proj2 (proj2 (proj2 (proj2 T))))
             (OpenAI.Scores [Finite 0; Finite (3#4)]) 0%nat "a"%string H).
  - split; [ exact Ha | ]. split; [ vm_compute; reflexivity | ].
    exact (proj1 (proj2 (proj2 (proj2 (proj2 (proj2 (proj2 T))))))
             tinyScores 0%nat "a"%string Ha H).
Defined.

(* ================================================================== *)
(** * What reaches the caller of [search] *)
(* ================================================================== *)

(** C7 (amended): called with an argument object, [search] returns for
    every configuration and every behaviour of the stores and scoring
    endpoints (which throw values with a message, as [Error] objects are):
    it never throws; called without one it throws, the parameter being
    destructured before the [try].  A vector client that throws gives the same result as
    one that finds nothing, and so does a metadata search that throws, the
    other branch going on as usual; the two search helpers themselves
    always return.  A missing query or workspace is not rejected: without a
    workspace the answer is the empty list of the vector-only fallback;
    with a workspace but neither query nor filter it is what the vector
    search of the fallback finds; with a workspace and a query or a filter,
    also when the query is missing and a filter is given, it is the fused
    ranking. *)
Theorem search_never_throws :
  forall env net stores service p,
    (exists out, fst (searchCall env net stores service (Some p)) = Ok out)
    /\ (exists e, fst (searchCall env net stores service None) = Throw e)
    /\ (forall e,
          HybridSearchManager.search env net
            (withVector stores (fun _ _ _ => Throw e)) service p
          = HybridSearchManager.search env net
              (withVector stores (fun _ _ _ => Ok (Some []))) service p)
    /\ (forall e,
          HybridSearchManager.search env net
            (withMetadataSearch stores (fun _ => Throw e)) service p
          = HybridSearchManager.search env net
              (withMetadataSearch stores (fun _ => Ok [])) service p)
    /\ (forall q w n,
          exists r, HybridSearchManager.performVectorSearch stores q w n = Ok r)
    /\ (forall f w n,
          exists r, HybridSearchManager.performMetadataSearch stores f w n = Ok r)
    /\ (HybridSearchManager.workspace p = None ->
        fst (HybridSearchManager.search env net stores service p)
        = Ok (HybridSearchManager.VectorOnly []))
    /\ (forall w,
          HybridSearchManager.workspace p = Some w ->
          HybridSearchManager.query p = None ->
          Filters.size (HybridReranker.orElse (HybridSearchManager.filters p)
                          Filters.empty) = 0%nat ->
          exists hits,
            HybridSearchManager.performVectorSearch stores None (Some w)
              (HybridReranker.orElse (HybridSearchManager.topN p) 10%Z) = Ok hits
            /\ fst (HybridSearchManager.search env net stores service p)
               = Ok (HybridSearchManager.VectorOnly hits))
    /\ (forall w,
          HybridSearchManager.workspace p = Some w ->
          HybridSearchManager.query p <> None
          \/ (0 < Filters.size (HybridReranker.orElse (HybridSearchManager.filters p)
                                  Filters.empty))%nat ->
          exists enriched,
            fst (HybridSearchManager.search env net stores service p)
            = Ok (HybridSearchManager.Ranked enriched)).
Proof.
  intros env net stores service p.
  destruct (search_cases env net stores service p) as (Hnone & Hplain & Hranked).
  split; [ | split; [ eexists; reflexivity | ] ].
  2: split; [ | split; [ | split; [ | split; [ | split ] ] ] ].
  - cbn [searchCall]. unfold HybridSearchManager.search.
    destruct (HybridSearchManager.searchBody env net stores service p) as [[r | e] svc].
    + eexists. reflexivity.
    + destruct (performVectorSearch_returns stores (HybridSearchManager.query p)
                  (HybridSearchManager.workspace p)
                  (HybridReranker.orElse (HybridSearchManager.topN p) 10%Z)) as [r ->].
      eexists. reflexivity.
  - intros e. unfold HybridSearchManager.search, HybridSearchManager.searchBody.
    rewrite !performVectorSearch_throwing. reflexivity.
  - intros e. unfold HybridSearchManager.search, HybridSearchManager.searchBody.
    reflexivity.
  - intros q w n. apply performVectorSearch_returns.
  - intros f w n. apply performMetadataSearch_returns.
  - exact Hnone.
  - split; [ exact Hplain | exact Hranked ].
Qed.

(** The claim without a query and with the filter [{ year: 2019 }]: the
    answer is the fused ranking, not the fallback. *)
Lemma search_never_throws_witness :
  HybridSearchManager.workspace yearOnly = Some someWorkspace
  /\ (HybridSearchManager.query yearOnly <> None
      \/ (0 < Filters.size (HybridReranker.orElse (HybridSearchManager.filters yearOnly)
                              Filters.empty))%nat)
  /\ exists enriched,
       fst (HybridSearchManager.search envNone netDown storesOneHit
              RerankerService.fresh yearOnly)
       = Ok (HybridSearchManager.Ranked enriched).
Proof.
  assert (H1 : HybridSearchManager.workspace yearOnly = Some someWorkspace)
    by reflexivity.
  assert (H2 : HybridSearchManager.query yearOnly <> None
               \/ (0 < Filters.size
                         (HybridReranker.orElse (HybridSearchManager.filters yearOnly)
                            Filters.empty))%nat).
  { right. cbn. lia. }
  split; [ exact H1 | ]. split; [ exact H2 | ].
  exact (proj2 (proj2 (proj2 (proj2 (proj2 (proj2 (proj2 (proj2
           (search_never_throws envNone netDown storesOneHit RerankerService.fresh
              yearOnly))))))))
           someWorkspace H1 H2).
Defined.

(* ================================================================== *)
(** * The filters read from a query, rule by rule *)
(* ================================================================== *)

Lemma litMatch_length (ci : bool) (p : string) :
  forall prev s prev' rest,
    Js.litMatch ci p prev s = Some (prev', rest) ->
    String.length s = (String.length p + String.length rest)%nat.
Proof.
  induction p as [ | a p IH ]; intros prev s prev' rest; simpl.
  - intros H. injection H as _ <-. reflexivity.
  - destruct s as [ | c s ]; [ discriminate | ].
    destruct (Js.charTest ci a c); [ | discriminate ].
    intros H. apply IH in H. simpl. now rewrite H.
Qed.

Lemma plusRun_length (t : ascii -> bool) (s r : string) :
  Js.plusRun t s (fun _ rest => Some rest) = Some r ->
  (String.length r < String.length s)%nat.
Proof.
  revert r. induction s as [ | c s IH ]; intros r; simpl; [ discriminate | ].
  destruct (t c); [ | discriminate ].
  destruct (Js.plusRun t s (fun _ rest => Some rest)) as [r' | ] eqn:E.
  - intros H. injection H as <-. specialize (IH r' eq_refl). lia.
  - intros H. injection H as <-. lia.
Qed.

Lemma take_nonempty (n : nat) (s : string) :
  (0 < n)%nat -> s <> EmptyString -> Js.take n s <> EmptyString.
Proof.
  destruct n as [ | n ]; [ lia | ]. destruct s as [ | c s ]; [ congruence | ].
  intros _ _. discriminate.
Qed.

(** A match of a rule [literal, then one or more of a class] is not
    empty. *)
Lemma searchFrom_literal_run (ci : bool) (lit : string) (p : ascii -> bool) (s : string) :
  forall prev i j m,
    Js.searchFrom ci (Js.Seq (Js.Lit lit) (Js.Plus p)) prev s i = Some (j, m) ->
    m <> EmptyString.
Proof.
  assert (Hhere : forall prev s0 m,
             Js.matchHere ci (Js.Seq (Js.Lit lit) (Js.Plus p)) prev s0 = Some m ->
             m <> EmptyString).
  { intros prev s0 m. unfold Js.matchHere. cbn [Js.rmatch].
    destruct (Js.litMatch ci lit prev s0) as [[prev' rest] | ] eqn:EL; [ | discriminate ].
    destruct (Js.plusRun (Js.classTest ci p) rest (fun _ rest0 => Some rest0))
      as [r | ] eqn:EP; [ | discriminate ].
    intros H. injection H as <-.
    apply litMatch_length in EL. apply plusRun_length in EP.
    apply take_nonempty; [ lia | ].
    destruct s0; [ simpl in EL; lia | discriminate ]. }
  induction s as [ | c s IH ]; intros prev i j m; cbn [Js.searchFrom].
  - destruct (Js.matchHere _ _ prev EmptyString) as [m' | ] eqn:E; [ | discriminate ].
    intros H. injection H as _ <-. now apply Hhere in E.
  - destruct (Js.matchHere _ _ prev (String c s)) as [m' | ] eqn:E.
    + intros H. injection H as _ <-. now apply Hhere in E.
    + apply IH.
Qed.

Lemma truthyStr_nonempty_iff (s : string) :
  s <> EmptyString -> Js.truthyStr (Some s) = Some s.
Proof.
  intros H. simpl. destruct (String.eqb s EmptyString) eqn:E; [ | reflexivity ].
  apply String.eqb_eq in E. contradiction.
Qed.

(** The court read from a query is not the empty string. *)
Lemma firstCourt_truthy (query c : string) :
  HybridSearchManager.firstCourt HybridSearchManager.courtPatterns query = Some c ->
  Js.truthyStr (Some c) = Some c.
Proof.
  cbn [HybridSearchManager.firstCourt HybridSearchManager.courtPatterns Js.truthyStr
       String.eqb Ascii.eqb Bool.eqb].
  unfold Js.exec.
  repeat match goal with
         | |- context [match Js.searchFrom ?a ?b ?c ?d ?e with _ => _ end] =>
             let E := fresh "E" in
             destruct (Js.searchFrom a b c d e) as [[? ?] | ] eqn:E
         end;
    intros H; try discriminate H; injection H as <-;
    first [ reflexivity
          | apply truthyStr_nonempty_iff; eapply searchFrom_literal_run; eassumption ].
Qed.

(** The case type read from a query is not the empty string. *)
Lemma firstCaseType_truthy (query t : string) :
  HybridSearchManager.firstCaseType HybridSearchManager.caseTypePatterns query = Some t ->
  Js.truthyStr (Some t) = Some t.
Proof.
  cbn [HybridSearchManager.firstCaseType HybridSearchManager.caseTypePatterns].
  repeat match goal with
         | |- context [if ?b then _ else _] => destruct b
         end;
    intros H; try discriminate H; injection H as <-; reflexivity.
Qed.

(** The text left of a query once the year, the court and the case type
    read from it are taken out. *)
Lemma cleanQuery_steps (query : string) :
  let year := HybridSearchManager.extractYear query in
  let court := HybridSearchManager.firstCourt HybridSearchManager.courtPatterns query in
  let case_type :=
    HybridSearchManager.firstCaseType HybridSearchManager.caseTypePatterns query in
  HybridSearchManager.cleanQuery query year court case_type
  = (let q1 := match year with
               | Some y => Js.removeFirst (Js.stringOfZ y) query
               | None => query
               end in
     let q2 := match court with
               | Some c => Js.removeAll true (Js.Lit c) q1
               | None => q1
               end in
     match case_type with
     | Some t => Js.removeAll true (Js.Lit t) q2
     | None => q2
     end).
Proof.
  cbv zeta. unfold HybridSearchManager.cleanQuery, HybridSearchManager.regExpOf.
  destruct (HybridSearchManager.extractYear query) as [y | ] eqn:Ey.
  - destruct (extractYear_digits _ Ey) as [m [_ [_ [_ [_ Ht]]]]]. rewrite Ht.
    destruct (HybridSearchManager.firstCourt _ query) as [c | ] eqn:Ec.
    + rewrite (firstCourt_truthy _ Ec).
      destruct (HybridSearchManager.firstCaseType _ query) as [t | ] eqn:Et;
        [ now rewrite (firstCaseType_truthy _ Et) | reflexivity ].
    + destruct (HybridSearchManager.firstCaseType _ query) as [t | ] eqn:Et;
        [ now rewrite (firstCaseType_truthy _ Et) | reflexivity ].
  - destruct (HybridSearchManager.firstCourt _ query) as [c | ] eqn:Ec.
    + rewrite (firstCourt_truthy _ Ec).
      destruct (HybridSearchManager.firstCaseType _ query) as [t | ] eqn:Et;
        [ now rewrite (firstCaseType_truthy _ Et) | reflexivity ].
    + destruct (HybridSearchManager.firstCaseType _ query) as [t | ] eqn:Et;
        [ now rewrite (firstCaseType_truthy _ Et) | reflexivity ].
Qed.


